(** * EnsoAI main process: worktree service and agent sessions

    A shallow embedding of
    - [src/main/services/git/WorktreeService.ts]
      ([killProcessesInDirectory], the constructor of [WorktreeService],
      [list], [add], [remove], [prune]),
    - the worktree IPC handlers ([registerWorktreeHandlers]), and
    - [AgentSessionManager] (session map, NDJSON framing, [stopByWorkdir]).

    JavaScript strings are modelled by [string]; a character stands for one
    code unit.  The operations modelled here compare code units and never
    look inside one; [toLowerCase], [JSON.parse] and [JSON.stringify], which
    do, are functions of the environment. *)

From Stdlib Require Import String Ascii List Bool Arith NArith Lia.
From Stdlib Require Import DecimalString DecimalN.
From ExtLib Require Import Structures.Monad.
Import ListNotations.
Import MonadNotation.
Local Open Scope list_scope.
Local Open Scope string_scope.

(* ===================================================================== *)
(** * JavaScript string primitives used by the sources                    *)
(* ===================================================================== *)

Module Js.

(** The line feed, ['\n']. *)
Definition LF : ascii := "010"%char.
(** The double quote. *)
Definition DQUOTE : ascii := "034"%char.
(** The backslash. *)
Definition BACKSLASH : ascii := "092"%char.
(** The forward slash. *)
Definition SLASH : ascii := "047"%char.

(** [truthy s]: a string is truthy iff it is not empty. *)
Definition truthy (s : string) : bool :=
  match s with
  | EmptyString => false
  | String _ _ => true
  end.

(** [s.startsWith(p)] *)
Fixpoint startsWith (s p : string) {struct p} : bool :=
  match p with
  | EmptyString => true
  | String c p' =>
      match s with
      | EmptyString => false
      | String d s' => Ascii.eqb d c && startsWith s' p'
      end
  end.

(** [s.substring(n)]: the text from index [n] to the end. *)
Fixpoint substring (s : string) (n : nat) {struct n} : string :=
  match n with
  | 0 => s
  | S n' =>
      match s with
      | EmptyString => EmptyString
      | String _ s' => substring s' n'
      end
  end.

(** [s.split(sep)] for a one-character separator.  The result is never
    empty: a string without the separator yields itself. *)
Fixpoint split (s : string) (sep : ascii) : list string :=
  match s with
  | EmptyString => [EmptyString]
  | String c s' =>
      if Ascii.eqb c sep then EmptyString :: split s' sep
      else match split s' sep with
           | [] => [String c EmptyString]
           | l :: ls => String c l :: ls
           end
  end.

(** [s.replace(pat, rep)] with a string pattern: only the first
    occurrence of [pat] is replaced. *)
Fixpoint replace (s pat rep : string) : string :=
  if startsWith s pat then rep ++ substring s (String.length pat)
  else match s with
       | EmptyString => EmptyString
       | String c s' => String c (replace s' pat rep)
       end.

(** [s.replace(/c/g, rep)]: every occurrence of the character [c]. *)
Fixpoint replaceAll (s : string) (c : ascii) (rep : string) : string :=
  match s with
  | EmptyString => EmptyString
  | String d s' =>
      (if Ascii.eqb d c then rep else String d EmptyString)
        ++ replaceAll s' c rep
  end.

(** [s.includes(needle)] *)
Fixpoint includes (s needle : string) : bool :=
  if startsWith s needle then true
  else match s with
       | EmptyString => false
       | String _ s' => includes s' needle
       end.

(** WhiteSpace and LineTerminator code units below 256:
    TAB, LF, VT, FF, CR, SP and NBSP. *)
Definition isWhiteSpace (c : ascii) : bool :=
  match nat_of_ascii c with
  | 9 | 10 | 11 | 12 | 13 | 32 | 160 => true
  | _ => false
  end.

Fixpoint trimStart (s : string) : string :=
  match s with
  | EmptyString => EmptyString
  | String c s' => if isWhiteSpace c then trimStart s' else s
  end.

Fixpoint trimEnd (s : string) : string :=
  match s with
  | EmptyString => EmptyString
  | String c s' =>
      match trimEnd s' with
      | EmptyString => if isWhiteSpace c then EmptyString
                       else String c EmptyString
      | t => String c t
      end
  end.

(** [s.trim()] *)
Definition trim (s : string) : string := trimEnd (trimStart s).

(** Template-literal rendering of a non-negative integer. *)
Definition ofNumber (n : N) : string :=
  NilZero.string_of_uint (N.to_uint n).

(** 2^53: every integer up to it is a double, the next one is not. *)
Definition MAX_EXACT : N := 9007199254740992.

(** [++n] on a number that holds an integer of 0..2^53, which is where a
    counter that starts at 0 stays: the sum [n + 1] is exact below 2^53,
    and [2^53 + 1], which is not a double, rounds back to 2^53. *)
Definition increment (n : N) : N :=
  if (n <? MAX_EXACT)%N then (n + 1)%N else n.

End Js.

(* ===================================================================== *)
(** * Worktree records and the porcelain parser                           *)
(* ===================================================================== *)

(** The objects built by [list] are [Partial<GitWorktree>] values that are
    pushed unchanged (the cast [current as GitWorktree] does nothing at run
    time), so every property is optional. *)
Record GitWorktree : Type := mkGitWorktree {
  path : option string;
  head : option string;
  branch : option string;
  isMainWorktree : option bool;
  isLocked : option bool;
  prunable : option bool
}.

Definition emptyObject : GitWorktree :=
  mkGitWorktree None None None None None None.

Definition set_head (w : GitWorktree) (v : string) : GitWorktree :=
  mkGitWorktree (path w) (Some v) (branch w)
                (isMainWorktree w) (isLocked w) (prunable w).
Definition set_branch (w : GitWorktree) (v : string) : GitWorktree :=
  mkGitWorktree (path w) (head w) (Some v)
                (isMainWorktree w) (isLocked w) (prunable w).
Definition set_isMainWorktree (w : GitWorktree) (v : bool) : GitWorktree :=
  mkGitWorktree (path w) (head w) (branch w)
                (Some v) (isLocked w) (prunable w).
Definition set_isLocked (w : GitWorktree) (v : bool) : GitWorktree :=
  mkGitWorktree (path w) (head w) (branch w)
                (isMainWorktree w) (Some v) (prunable w).
Definition set_prunable (w : GitWorktree) (v : bool) : GitWorktree :=
  mkGitWorktree (path w) (head w) (branch w)
                (isMainWorktree w) (isLocked w) (Some v).

(** [if (current.path)]: defined and not the empty string. *)
Definition hasPath (w : GitWorktree) : bool :=
  match path w with
  | Some p => Js.truthy p
  | None => false
  end.

Module Porcelain.

(** The object literal of lines 50-55. *)
Definition fresh (p : string) : GitWorktree :=
  mkGitWorktree (Some p) None None (Some false) (Some false) (Some false).

(** [if (current.path) worktrees.push(current)] *)
Definition pushCurrent (worktrees : list GitWorktree) (current : GitWorktree)
  : list GitWorktree :=
  if hasPath current then (worktrees ++ [current])%list else worktrees.

(** One iteration of the [for (const line of ...)] loop, on the pair of
    the array [worktrees] and the variable [current]. *)
Definition parseLine (st : list GitWorktree * GitWorktree) (line : string)
  : list GitWorktree * GitWorktree :=
  let (worktrees, current) := st in
  if Js.startsWith line "worktree " then
    (pushCurrent worktrees current, fresh (Js.substring line 9))
  else if Js.startsWith line "HEAD " then
    (worktrees, set_head current (Js.substring line 5))
  else if Js.startsWith line "branch " then
    (worktrees,
     set_branch current
       (Js.replace (Js.substring line 7) "refs/heads/" EmptyString))
  else if String.eqb line "bare" then
    (worktrees, set_isMainWorktree current true)
  else if String.eqb line "locked" then
    (worktrees, set_isLocked current true)
  else if String.eqb line "prunable" then
    (worktrees, set_prunable current true)
  else (worktrees, current).

(** [if (worktrees.length > 0) worktrees[0].isMainWorktree = true] *)
Definition markFirst (worktrees : list GitWorktree) : list GitWorktree :=
  match worktrees with
  | [] => []
  | w :: rest => set_isMainWorktree w true :: rest
  end.

(** The body of [WorktreeService.list] after the [git] call returned
    [result]. *)
Definition parse (result : string) : list GitWorktree :=
  let (worktrees, current) :=
    fold_left parseLine (Js.split result Js.LF) ([], emptyObject) in
  markFirst (pushCurrent worktrees current).

End Porcelain.

(* ===================================================================== *)
(** * [Map<string, V>]                                                    *)
(* ===================================================================== *)

(** A JavaScript [Map] iterates in insertion order, so it is an association
    list; [set] on a present key keeps the entry's position. *)
Module JsMap.

Definition t (V : Type) : Type := list (string * V).

Definition empty {V : Type} : t V := [].

Fixpoint get {V : Type} (m : t V) (k : string) : option V :=
  match m with
  | [] => None
  | (k', v) :: m' => if String.eqb k' k then Some v else get m' k
  end.

Definition has {V : Type} (m : t V) (k : string) : bool :=
  match get m k with
  | Some _ => true
  | None => false
  end.

Fixpoint set {V : Type} (m : t V) (k : string) (v : V) : t V :=
  match m with
  | [] => [(k, v)]
  | (k', v') :: m' =>
      if String.eqb k' k then (k', v) :: m' else (k', v') :: set m' k v
  end.

Definition delete {V : Type} (m : t V) (k : string) : t V :=
  filter (fun e => negb (String.eqb (fst e) k)) m.

Definition clear {V : Type} (m : t V) : t V := [].

Definition keys {V : Type} (m : t V) : list string := map fst m.

Definition values {V : Type} (m : t V) : list V := map snd m.

Definition entries {V : Type} (m : t V) : list (string * V) := m.

(** What every [Map] satisfies by construction: one entry per key. *)
Definition wf {V : Type} (m : t V) : Prop := NoDup (keys m).

End JsMap.

(* ===================================================================== *)
(** * Shared types                                                        *)
(* ===================================================================== *)

(** Objects that the sources only store and pass on (a [ChildProcess], an
    [AgentMetadata] value, a callback) are references. *)
Definition Ref : Type := nat.
Definition ChildProcess : Type := Ref.
Definition AgentMetadata : Type := Ref.
Definition Callback : Type := Ref.

(** What [JSON.parse] returns and [JSON.stringify] takes. *)
#[warnings="-register-all"]
Inductive Json : Type :=
| JNull
| JBool (b : bool)
| JNumber (literal : string)
| JString (s : string)
| JArray (items : list Json)
| JObject (members : list (string * Json)).

Module AgentMessage.
Record t : Type := mk {
  id : string;
  role : string;
  content : string;
  timestamp : N
}.
End AgentMessage.

Module Session.
Record t : Type := mk {
  id : string;
  process : ChildProcess;
  agent : AgentMetadata;
  workdir : string;
  onMessage : Callback
}.
End Session.

(** The fields of [AgentSessionManager].  [counter] starts at 0 and is only
    ever incremented, with [Js.increment]: it holds an integer of
    0..2^53. *)
Module Manager.
Record t : Type := mk {
  sessions : JsMap.t Session.t;
  counter : N
}.
(** [new AgentSessionManager()] *)
Definition init : t := mk JsMap.empty 0.
End Manager.

(** [WorktreeRemoveOptions]; an absent flag is falsy, an absent branch is
    [None]. *)
Module RemoveOptions.
Record t : Type := mk {
  path : string;
  force : bool;
  deleteBranch : bool;
  branch : option string
}.
End RemoveOptions.

(** [WorktreeCreateOptions]; an absent name is [None]. *)
Module CreateOptions.
Record t : Type := mk {
  path : string;
  newBranch : option string;
  branch : option string
}.
End CreateOptions.

(** A [WorktreeService] holds the [simple-git] instance bound to its
    working directory; the instance is known by that directory. *)
Module Service.
Record t : Type := mk { git : string }.
End Service.

(* ===================================================================== *)
(** * Effects                                                             *)
(* ===================================================================== *)

(** A thrown value: an [Error] object with its message, or anything else,
    with what [String(error)] gives for it. *)
Inductive Thrown : Type :=
| ErrorObject (message : string)
| NotAnError (rendered : string).

(** [error instanceof Error ? error.message : String(error)] *)
Definition messageOf (error : Thrown) : string :=
  match error with
  | ErrorObject message => message
  | NotAnError rendered => rendered
  end.

(** Calls that leave the program. *)
Inductive Call : Type :=
| SimpleGit (baseDir : string)
| GitRaw (workdir : string) (args : list string)
| ExistsSync (p : string)
| ExecAsync (command : string)
| FsRm (p : string) (recursive force : bool)
| SetTimeout (ms : N)
| StopWatchersInDirectory (p : string)
| PtyDestroyByWorkdir (p : string)
| Spawn (command : string) (args : list string) (cwd : string)
| ProcessKill (proc : ChildProcess)
| StdinWrite (proc : ChildProcess) (data : string)
| RandomUUID
| DateNow
| OnMessage (callback : Callback) (message : AgentMessage.t).

Inductive Outcome : Type :=
| Returned
| ReturnedBool (b : bool)
| ReturnedString (s : string)
| ReturnedNumber (n : N)
| ReturnedRef (r : Ref)
| Threw (error : Thrown).

Definition Event : Type := (Call * Outcome)%type.

(** The environment answers every call from the history of the run, so the
    same call may succeed once and fail later. *)
Record World : Type := mkWorld {
  platform : string;
  simpleGit : list Event -> string -> Thrown + unit;
  git_raw : list Event -> string -> list string -> Thrown + string;
  existsSync : list Event -> string -> bool;
  execAsync : list Event -> string -> Thrown + unit;
  rm : list Event -> string -> bool -> bool -> Thrown + unit;
  stopWatchersInDirectory : list Event -> string -> Thrown + unit;
  ptyDestroyByWorkdir : list Event -> string -> Thrown + unit;
  spawn : list Event -> string -> list string -> string -> Thrown + ChildProcess;
  randomUUID : list Event -> string;
  Date_now : list Event -> N;
  callback : list Event -> Callback -> AgentMessage.t -> Thrown + unit;
  JSON_parse : string -> Thrown + Json;
  JSON_stringify : Json -> string;
  toLowerCase : string -> string
}.

(** The mutable state of the main process that the handlers touch. *)
Record Machine : Type := mkMachine {
  trace : list Event;
  agentSessionManager : Manager.t;
  worktreeServices : JsMap.t Service.t
}.

Inductive Completion (A : Type) : Type :=
| Normal (a : A)
| Throw (error : Thrown).
Arguments Normal {A} a.
Arguments Throw {A} error.

(** Computations: state is kept when an exception is thrown. *)
Definition M (A : Type) : Type := World -> Machine -> Machine * Completion A.

Definition retM {A : Type} (a : A) : M A := fun _ m => (m, Normal a).

Definition bindM {A B : Type} (c : M A) (k : A -> M B) : M B :=
  fun w m =>
    match c w m with
    | (m', Normal a) => k a w m'
    | (m', Throw e) => (m', Throw e)
    end.

#[export] Instance Monad_M : Monad M :=
  {| ret := @retM; bind := @bindM |}.

(** [throw e] *)
Definition throw {A : Type} (e : Thrown) : M A := fun _ m => (m, Throw e).

(** [try { c } catch (error) { handler(error) }] *)
Definition tryCatch {A : Type} (c : M A) (handler : Thrown -> M A) : M A :=
  fun w m =>
    match c w m with
    | (m', Normal a) => (m', Normal a)
    | (m', Throw e) => handler e w m'
    end.

(** [for (const x of xs) body(x)] *)
Fixpoint forOf {A : Type} (xs : list A) (body : A -> M unit) : M unit :=
  match xs with
  | [] => retM tt
  | x :: xs' => bindM (body x) (fun _ => forOf xs' body)
  end.

Definition record (m : Machine) (ev : Event) : Machine :=
  mkMachine (trace m ++ [ev])%list (agentSessionManager m) (worktreeServices m).

(** A call that may throw. *)
Definition invoke {T : Type} (c : Call) (shown : T -> Outcome)
  (answer : World -> list Event -> Thrown + T) : M T :=
  fun w m =>
    match answer w (trace m) with
    | inl e => (record m (c, Threw e), Throw e)
    | inr v => (record m (c, shown v), Normal v)
    end.

(** A call that cannot throw. *)
Definition invokeTotal {T : Type} (c : Call) (shown : T -> Outcome)
  (answer : World -> list Event -> T) : M T :=
  fun w m =>
    let v := answer w (trace m) in (record m (c, shown v), Normal v).

Definition getWorld : M World := fun w m => (m, Normal w).
Definition getManager : M Manager.t :=
  fun _ m => (m, Normal (agentSessionManager m)).
Definition putManager (a : Manager.t) : M unit :=
  fun _ m => (mkMachine (trace m) a (worktreeServices m), Normal tt).
Definition getServices : M (JsMap.t Service.t) :=
  fun _ m => (m, Normal (worktreeServices m)).
Definition putServices (s : JsMap.t Service.t) : M unit :=
  fun _ m => (mkMachine (trace m) (agentSessionManager m) s, Normal tt).

Definition unitOutcome (_ : unit) : Outcome := Returned.

Module Env.
Definition simpleGit (baseDir : string) : M unit :=
  invoke (SimpleGit baseDir) unitOutcome (fun w h => simpleGit w h baseDir).
Definition gitRaw (workdir : string) (args : list string) : M string :=
  invoke (GitRaw workdir args) ReturnedString
         (fun w h => git_raw w h workdir args).
Definition existsSync (p : string) : M bool :=
  invokeTotal (ExistsSync p) ReturnedBool (fun w h => existsSync w h p).
Definition execAsync (command : string) : M unit :=
  invoke (ExecAsync command) unitOutcome (fun w h => execAsync w h command).
Definition rm (p : string) (recursive force : bool) : M unit :=
  invoke (FsRm p recursive force) unitOutcome
         (fun w h => rm w h p recursive force).
Definition setTimeout (ms : N) : M unit :=
  invokeTotal (SetTimeout ms) unitOutcome (fun _ _ => tt).
Definition stopWatchersInDirectory (p : string) : M unit :=
  invoke (StopWatchersInDirectory p) unitOutcome
         (fun w h => stopWatchersInDirectory w h p).
Definition ptyDestroyByWorkdir (p : string) : M unit :=
  invoke (PtyDestroyByWorkdir p) unitOutcome
         (fun w h => ptyDestroyByWorkdir w h p).
Definition spawn (command : string) (args : list string) (cwd : string)
  : M ChildProcess :=
  invoke (Spawn command args cwd) ReturnedRef
         (fun w h => spawn w h command args cwd).
Definition kill (proc : ChildProcess) : M unit :=
  invokeTotal (ProcessKill proc) unitOutcome (fun _ _ => tt).
Definition stdinWrite (proc : ChildProcess) (data : string) : M unit :=
  invokeTotal (StdinWrite proc data) unitOutcome (fun _ _ => tt).
Definition randomUUID : M string :=
  invokeTotal RandomUUID ReturnedString (fun w h => randomUUID w h).
Definition dateNow : M N :=
  invokeTotal DateNow ReturnedNumber (fun w h => Date_now w h).
Definition call (cb : Callback) (message : AgentMessage.t) : M unit :=
  invoke (OnMessage cb message) unitOutcome
         (fun w h => callback w h cb message).
Definition jsonParse (text : string) : M Json :=
  fun w m =>
    match JSON_parse w text with
    | inl e => (m, Throw e)
    | inr v => (m, Normal v)
    end.
End Env.

Local Open Scope monad_scope.

(* ===================================================================== *)
(** * WorktreeService.ts                                                  *)
(* ===================================================================== *)

Module WorktreeService.

Definition q : string := String Js.DQUOTE EmptyString.
Definition nl : string := String Js.LF EmptyString.
Definition bs : string := String Js.BACKSLASH EmptyString.

(** The template literal [psScript] (lines 19-26), with [inner] for the
    interpolated expression. *)
Definition psScript (inner : string) : string :=
  nl ++ "      Get-Process node -ErrorAction SilentlyContinue | Where-Object {"
  ++ nl ++ "        try {"
  ++ nl ++ "          $cwd = (Get-CimInstance Win32_Process -Filter "
  ++ q ++ "ProcessId = $($_.Id)" ++ q ++ ").CommandLine"
  ++ nl ++ "          $cwd -like " ++ q ++ "*" ++ inner ++ "*" ++ q
  ++ nl ++ "        } catch { $false }"
  ++ nl ++ "      } | Stop-Process -Force -ErrorAction SilentlyContinue"
  ++ nl ++ "    ".

(** The command line handed to [execAsync] on line 27. *)
Definition killCommand (dirPath : string) : string :=
  let normalizedPath := Js.replaceAll dirPath Js.SLASH bs in
  let script :=
    psScript (Js.replaceAll normalizedPath Js.BACKSLASH (bs ++ bs)) in
  "powershell -Command " ++ q
  ++ Js.replaceAll (Js.replaceAll script Js.DQUOTE (bs ++ q)) Js.LF " "
  ++ q.

(** [killProcessesInDirectory] (lines 13-31) *)
Definition killProcessesInDirectory (dirPath : string) : M unit :=
  w <- getWorld ;;
  if negb (String.eqb (platform w) "win32") then ret tt
  else
    tryCatch (Env.execAsync (killCommand dirPath))
             (fun _ => ret tt).

(** The constructor (lines 36-38): [simpleGit(workdir)] throws when it
    cannot use the directory, for one when the directory does not
    exist. *)
Definition new (workdir : string) : M Service.t :=
  Env.simpleGit workdir ;;
  ret (Service.mk workdir).

(** [list] (lines 40-79) *)
Definition list_ (this : Service.t) : M (list GitWorktree) :=
  result <- Env.gitRaw (Service.git this) ["worktree"; "list"; "--porcelain"] ;;
  ret (Porcelain.parse result).

(** [prune] (lines 157-159) *)
Definition prune (this : Service.t) : M unit :=
  _ <- Env.gitRaw (Service.git this) ["worktree"; "prune"] ;;
  ret tt.

(** The argument vector built on lines 101-105. *)
Definition removeArgs (options : RemoveOptions.t) : list string :=
  (["worktree"; "remove"]
   ++ (if RemoveOptions.force options then ["--force"] else [])
   ++ [RemoveOptions.path options])%list.

(** [errorMessage.includes('Permission denied') ||
     errorMessage.includes('is not a working tree')] (lines 110-116) *)
Definition recoverable (error : Thrown) : bool :=
  let errorMessage := messageOf error in
  let isPermissionDenied := Js.includes errorMessage "Permission denied" in
  let isNotWorktree := Js.includes errorMessage "is not a working tree" in
  isPermissionDenied || isNotWorktree.

(** The error built on lines 134-137. *)
Definition removalFailed (p : string) : Thrown :=
  ErrorObject
    ("Failed to remove worktree directory: " ++ p ++ ". "
     ++ "Please close any programs using this directory and try again.").

(** The command of line 128. *)
Definition rmdirCommand (p : string) : string :=
  "rmdir /s /q " ++ q ++ p ++ q.

(** Lines 118-139: remove the directory by hand when it is still there. *)
Definition manualCleanup (options : RemoveOptions.t) : M unit :=
  present <- Env.existsSync (RemoveOptions.path options) ;;
  if present : bool then
    killProcessesInDirectory (RemoveOptions.path options) ;;
    Env.setTimeout 500 ;;
    tryCatch
      (w <- getWorld ;;
       if String.eqb (platform w) "win32"
       then Env.execAsync (rmdirCommand (RemoveOptions.path options))
       else Env.rm (RemoveOptions.path options) true true)
      (fun _ => throw (removalFailed (RemoveOptions.path options)))
  else ret tt.

(** [options.deleteBranch && options.branch] with the branch it names. *)
Definition branchToDelete (options : RemoveOptions.t) : option string :=
  if RemoveOptions.deleteBranch options then
    match RemoveOptions.branch options with
    | Some b => if Js.truthy b then Some b else None
    | None => None
    end
  else None.

(** [remove] (lines 97-155) *)
Definition remove (this : Service.t) (options : RemoveOptions.t) : M unit :=
  prune this ;;
  let args := removeArgs options in
  tryCatch
    (_ <- Env.gitRaw (Service.git this) args ;; ret tt)
    (fun error =>
       if recoverable error then
         manualCleanup options ;;
         prune this
       else throw error) ;;
  match branchToDelete options with
  | Some b =>
      tryCatch
        (_ <- Env.gitRaw (Service.git this) ["branch"; "-D"; b] ;; ret tt)
        (fun _ => ret tt)
  | None => ret tt
  end.

(** [if (options.name)] for an optional string: the value when it is
    defined and not empty. *)
Definition given (name : option string) : option string :=
  match name with
  | Some s => if Js.truthy s then Some s else None
  | None => None
  end.

(** The argument vector built on lines 82-92. *)
Definition addArgs (options : CreateOptions.t) : list string :=
  (["worktree"; "add"]
   ++ match given (CreateOptions.newBranch options) with
      | Some b => ["-b"; b]
      | None => []
      end
   ++ [CreateOptions.path options]
   ++ match given (CreateOptions.branch options) with
      | Some b => [b]
      | None => []
      end)%list.

(** [add] (lines 81-95) *)
Definition add (this : Service.t) (options : CreateOptions.t) : M unit :=
  _ <- Env.gitRaw (Service.git this) (addArgs options) ;;
  ret tt.

End WorktreeService.

(* ===================================================================== *)
(** * AgentSessionManager                                                 *)
(* ===================================================================== *)

Module AgentSessionManager.

(** [this.sessions = f(this.sessions)] *)
Definition updateSessions
  (f : JsMap.t Session.t -> JsMap.t Session.t) : M unit :=
  this <- getManager ;;
  putManager (Manager.mk (f (Manager.sessions this)) (Manager.counter this)).

(** [handleMessage] (lines 73-82) *)
Definition handleMessage (session : Session.t) (rawMessage : Json) : M unit :=
  w <- getWorld ;;
  uuid <- Env.randomUUID ;;
  let content := JSON_stringify w rawMessage in
  now <- Env.dateNow ;;
  Env.call (Session.onMessage session)
           (AgentMessage.mk uuid "assistant" content now).

(** The body of the loop on lines 48-57. *)
Definition handleLine (session : Session.t) (line : string) : M unit :=
  if Js.truthy (Js.trim line) then
    tryCatch
      (message <- Env.jsonParse line ;;
       handleMessage session message)
      (fun _ => ret tt)
  else ret tt.

(** The listener of [proc.stdout] (lines 43-58).  The closure variable
    [buffer] is passed in and its new value returned; [chunk] is the text
    [chunk.toString()] yields. *)
Definition onStdoutData (session : Session.t) (buffer : string)
  (chunk : string) : M string :=
  let buffer := buffer ++ chunk in
  let lines := Js.split buffer Js.LF in
  (* [buffer = lines.pop() || ''] *)
  let buffer := last lines EmptyString in
  let lines := removelast lines in
  forOf lines (handleLine session) ;;
  ret buffer.

(** The listener of [proc.on('exit')] (lines 64-67); console output is
    not modelled. *)
Definition onExit (id : string) : M unit :=
  updateSessions (fun sessions => JsMap.delete sessions id).

(** [create] (lines 16-71).  The two listeners it registers are
    [onStdoutData], started with the empty buffer, and [onExit]. *)
Definition create (agent : AgentMetadata) (workdir : string)
  (onMessage : Callback) : M string :=
  this <- getManager ;;
  let counter := Js.increment (Manager.counter this) in
  putManager (Manager.mk (Manager.sessions this) counter) ;;
  let id := "agent-" ++ Js.ofNumber counter in
  proc <- Env.spawn "npx" ["claude-code-acp"] workdir ;;
  let session := Session.mk id proc agent workdir onMessage in
  updateSessions (fun sessions => JsMap.set sessions id session) ;;
  ret id.

(** The request object of lines 91-98. *)
Definition promptRequest (uuid content : string) : Json :=
  JObject
    [ ("jsonrpc", JString "2.0");
      ("method", JString "prompt");
      ("id", JString uuid);
      ("params",
       JObject
         [ ("prompt",
            JArray [ JObject [ ("type", JString "text");
                               ("text", JString content) ] ]) ]) ].

(** [send] (lines 84-101) *)
Definition send (sessionId : string) (content : string) : M unit :=
  this <- getManager ;;
  match JsMap.get (Manager.sessions this) sessionId with
  | None => throw (ErrorObject ("Session not found: " ++ sessionId))
  | Some session =>
      w <- getWorld ;;
      uuid <- Env.randomUUID ;;
      Env.stdinWrite (Session.process session)
        (JSON_stringify w (promptRequest uuid content) ++ String Js.LF EmptyString)
  end.

(** [stop] (lines 103-109) *)
Definition stop (sessionId : string) : M unit :=
  this <- getManager ;;
  match JsMap.get (Manager.sessions this) sessionId with
  | Some session =>
      Env.kill (Session.process session) ;;
      updateSessions (fun sessions => JsMap.delete sessions sessionId)
  | None => ret tt
  end.

(** The body of the loop of [stopAll]. *)
Definition killSession (session : Session.t) : M unit :=
  Env.kill (Session.process session).

(** [stopAll] (lines 111-116) *)
Definition stopAll : M unit :=
  this <- getManager ;;
  forOf (JsMap.values (Manager.sessions this)) killSession ;;
  updateSessions (fun sessions => JsMap.clear sessions).

(** [s.replace(/\\/g, '/').toLowerCase()] *)
Definition normalize (w : World) (s : string) : string :=
  toLowerCase w (Js.replaceAll s Js.BACKSLASH (String Js.SLASH EmptyString)).

(** The test of lines 122-125. *)
Definition under (w : World) (workdir : string) (session : Session.t) : bool :=
  let normalizedWorkdir := normalize w workdir in
  let normalizedCwd := normalize w (Session.workdir session) in
  String.eqb normalizedCwd normalizedWorkdir
  || Js.startsWith normalizedCwd
       (normalizedWorkdir ++ String Js.SLASH EmptyString).

(** The body of the loop of [stopByWorkdir] (lines 121-128). *)
Definition stopIfUnder (w : World) (workdir : string)
  (entry : string * Session.t) : M unit :=
  let (id, session) := entry in
  if under w workdir session then
    Env.kill (Session.process session) ;;
    updateSessions (fun sessions => JsMap.delete sessions id)
  else ret tt.

(** [stopByWorkdir] (lines 118-130).  Deleting the entry being visited
    does not disturb a [Map] iterator, so the loop visits the entries that
    were present when it started, in order. *)
Definition stopByWorkdir (workdir : string) : M unit :=
  w <- getWorld ;;
  this <- getManager ;;
  forOf (JsMap.entries (Manager.sessions this)) (stopIfUnder w workdir).

(** The runtime calls the [stdout] listener once per chunk, in order; the
    closure variable [buffer] lives from one call to the next. *)
Fixpoint feed (session : Session.t) (buffer : string)
  (chunks : list string) : M string :=
  match chunks with
  | [] => ret buffer
  | chunk :: later =>
      buffer' <- onStdoutData session buffer chunk ;;
      feed session buffer' later
  end.

End AgentSessionManager.

(* ===================================================================== *)
(** * Worktree IPC handlers                                               *)
(* ===================================================================== *)

Module Handlers.

(** [getWorktreeService] (lines 14-19): when the constructor throws,
    nothing is cached. *)
Definition getWorktreeService (workdir : string) : M Service.t :=
  services <- getServices ;;
  (if negb (JsMap.has services workdir)
   then
     service <- WorktreeService.new workdir ;;
     services <- getServices ;;
     putServices (JsMap.set services workdir service)
   else ret tt) ;;
  services <- getServices ;;
  match JsMap.get services workdir with
  | Some service => ret service
  | None => throw (ErrorObject "TypeError: service is undefined")
  end.

(** The teardown of lines 47-52. *)
Definition teardown (options : RemoveOptions.t) : M unit :=
  Env.stopWatchersInDirectory (RemoveOptions.path options) ;;
  Env.ptyDestroyByWorkdir (RemoveOptions.path options) ;;
  AgentSessionManager.stopByWorkdir (RemoveOptions.path options) ;;
  Env.setTimeout 1000.

(** The [WORKTREE_REMOVE] handler (lines 43-57) *)
Definition worktreeRemove (workdir : string) (options : RemoveOptions.t)
  : M unit :=
  teardown options ;;
  service <- getWorktreeService workdir ;;
  WorktreeService.remove service options.

(** The [WORKTREE_LIST] handler (lines 30-33) *)
Definition worktreeList (workdir : string) : M (list GitWorktree) :=
  service <- getWorktreeService workdir ;;
  WorktreeService.list_ service.

(** The [WORKTREE_ADD] handler (lines 35-41) *)
Definition worktreeAdd (workdir : string) (options : CreateOptions.t)
  : M unit :=
  service <- getWorktreeService workdir ;;
  WorktreeService.add service options.

(** [clearWorktreeService] (lines 21-23) *)
Definition clearWorktreeService (workdir : string) : M unit :=
  services <- getServices ;;
  putServices (JsMap.delete services workdir).

(** [clearAllWorktreeServices] (lines 25-27) *)
Definition clearAllWorktreeServices : M unit :=
  services <- getServices ;;
  putServices (JsMap.clear services).

End Handlers.

(* ===================================================================== *)
(** * WorkspaceSidebar: the repository filter                             *)
(* ===================================================================== *)

Module WorkspaceSidebar.

Record Repository : Type := mkRepository {
  name : string;
  path : string
}.

(** [filteredRepos] (lines 187-189): the repositories whose
    lowercased name includes the lowercased query. *)
Definition filteredRepos (w : World) (repositories : list Repository)
  (searchQuery : string) : list Repository :=
  filter (fun repo =>
            Js.includes (toLowerCase w (name repo))
                        (toLowerCase w searchQuery))
         repositories.

(** [filteredRepos.length === 0 && searchQuery] (line 246): the notice
    that nothing matches. *)
Definition showsNoMatch (w : World) (repositories : list Repository)
  (searchQuery : string) : bool :=
  Nat.eqb (List.length (filteredRepos w repositories searchQuery)) 0
  && Js.truthy searchQuery.

(** [repositories.length === 0 && !searchQuery] (line 252): the
    invitation to select a project. *)
Definition showsEmpty (repositories : list Repository)
  (searchQuery : string) : bool :=
  Nat.eqb (List.length repositories) 0 && negb (Js.truthy searchQuery).

End WorkspaceSidebar.

(* ===================================================================== *)
(** * The porcelain format, stanza by stanza                              *)
(* ===================================================================== *)

(** The reading of [git worktree list --porcelain] output that the parser
    is compared with: the output is cut into stanzas, and each stanza is
    turned into a record on its own. *)
Module PorcelainSpec.

(** A line that opens a stanza. *)
Definition opens (line : string) : bool := Js.startsWith line "worktree ".

(** The lines that follow an opening line, up to the next one. *)
Fixpoint body (lines : list string) : list string :=
  match lines with
  | [] => []
  | l :: ls => if opens l then [] else l :: body ls
  end.

(** Every stanza: the remainder of its opening line and its body. *)
Fixpoint stanzas (lines : list string) : list (string * list string) :=
  match lines with
  | [] => []
  | l :: ls =>
      if opens l then (Js.substring l 9, body ls) :: stanzas ls
      else stanzas ls
  end.

(** The stanzas whose opening line has a non-empty remainder. *)
Definition named (result : string) : list (string * list string) :=
  filter (fun st => Js.truthy (fst st)) (stanzas (Js.split result Js.LF)).

(** The remainder of the last line of [b] that begins with [prefix]. *)
Definition lastRemainder (prefix : string) (b : list string)
  : option string :=
  match rev (filter (fun l => Js.startsWith l prefix) b) with
  | [] => None
  | l :: _ => Some (Js.substring l (String.length prefix))
  end.

(** Some line of [b] is equal to [word]. *)
Definition hasLine (word : string) (b : list string) : bool :=
  existsb (fun l => String.eqb l word) b.

(** [s] without [prefix] when it begins with it, [s] otherwise. *)
Definition stripPrefix (s prefix : string) : string :=
  if Js.startsWith s prefix then Js.substring s (String.length prefix)
  else s.

(** The record of a stanza, with the branch name computed by [shorten]. *)
Definition recordWith (shorten : string -> string)
  (st : string * list string) : GitWorktree :=
  let (p, b) := st in
  mkGitWorktree (Some p)
                (lastRemainder "HEAD " b)
                (option_map shorten (lastRemainder "branch " b))
                (Some (hasLine "bare" b))
                (Some (hasLine "locked" b))
                (Some (hasLine "prunable" b)).

(** The records as first described: the prefix ['refs/heads/'] is removed
    from the branch, and the three flags are false unless their line is
    present. *)
Definition claimed (result : string) : list GitWorktree :=
  map (recordWith (fun r => stripPrefix r "refs/heads/")) (named result).

(** The records as [list] builds them: the first occurrence of
    ['refs/heads/'] is removed from the branch, and the first record is
    marked as the main worktree. *)
Definition expected (result : string) : list GitWorktree :=
  Porcelain.markFirst
    (map (recordWith (fun r => Js.replace r "refs/heads/" EmptyString))
         (named result)).

(** What a line that opens no stanza does to [current]. *)
Definition applyLine (current : GitWorktree) (line : string) : GitWorktree :=
  snd (Porcelain.parseLine ([], current) line).

(** The first of two optional values that is defined. *)
Definition orElse {A : Type} (x y : option A) : option A :=
  match x with
  | Some _ => x
  | None => y
  end.

(** The branch name as [list] shortens it. *)
Definition shorten (r : string) : string :=
  Js.replace r "refs/heads/" EmptyString.

End PorcelainSpec.

(* ===================================================================== *)
(** * The calls of a removal, in order                                    *)
(* ===================================================================== *)

(** The events that a computation adds to the trace. *)
Definition eventsOf {A : Type} (c : M A) (w : World) (m : Machine)
  : list Event :=
  skipn (List.length (trace m)) (trace (fst (c w m))).

Module RemovalSpec.

(** [process.platform === 'win32'] *)
Definition onWindows (w : World) : bool := String.eqb (platform w) "win32".

Definition pruneCall (this : Service.t) : Call :=
  GitRaw (Service.git this) ["worktree"; "prune"].

Definition removeCall (this : Service.t) (options : RemoveOptions.t) : Call :=
  GitRaw (Service.git this) (WorktreeService.removeArgs options).

Definition existsCall (options : RemoveOptions.t) : Call :=
  ExistsSync (RemoveOptions.path options).

(** The process-kill pass: one PowerShell command on Windows, nothing
    elsewhere. *)
Definition killCall (options : RemoveOptions.t) : Call :=
  ExecAsync (WorktreeService.killCommand (RemoveOptions.path options)).

Definition killPass (win : bool) (options : RemoveOptions.t) : list Call :=
  if win then [killCall options] else [].

Definition killEvents (win : bool) (options : RemoveOptions.t) (o : Outcome)
  : list Event :=
  if win then [(killCall options, o)] else [].

(** [rmdir /s /q] on Windows, a recursive forced [rm] elsewhere. *)
Definition deletion (win : bool) (options : RemoveOptions.t) : Call :=
  if win
  then ExecAsync (WorktreeService.rmdirCommand (RemoveOptions.path options))
  else FsRm (RemoveOptions.path options) true true.

(** [git branch -D], when a branch is to be deleted. *)
Definition branchCall (this : Service.t) (b : string) : Call :=
  GitRaw (Service.git this) ["branch"; "-D"; b].

Definition branchDeletion (this : Service.t) (target : option string)
  : list Call :=
  match target with
  | Some b => [branchCall this b]
  | None => []
  end.

Definition branchEvents (this : Service.t) (target : option string)
  (o : Outcome) : list Event :=
  match target with
  | Some b => [(branchCall this b, o)]
  | None => []
  end.

(** The runs of [remove], event by event, with what the caller gets.
    [win] tells whether the platform is Windows and [target] which branch
    is to be deleted. *)
Inductive run (this : Service.t) (options : RemoveOptions.t)
  (win : bool) (target : option string)
  : list Event -> Completion unit -> Prop :=
| run_prune_failed e :
    run this options win target
        [(pruneCall this, Threw e)]
        (Throw e)
| run_removed s1 s2 bo :
    run this options win target
        ([(pruneCall this, ReturnedString s1);
          (removeCall this options, ReturnedString s2)]
         ++ branchEvents this target bo)
        (Normal tt)
| run_rethrown s1 e :
    WorktreeService.recoverable e = false ->
    run this options win target
        [(pruneCall this, ReturnedString s1);
         (removeCall this options, Threw e)]
        (Throw e)
| run_gone s1 e s3 bo :
    WorktreeService.recoverable e = true ->
    run this options win target
        ([(pruneCall this, ReturnedString s1);
          (removeCall this options, Threw e);
          (existsCall options, ReturnedBool false);
          (pruneCall this, ReturnedString s3)]
         ++ branchEvents this target bo)
        (Normal tt)
| run_gone_prune_failed s1 e e3 :
    WorktreeService.recoverable e = true ->
    run this options win target
        [(pruneCall this, ReturnedString s1);
         (removeCall this options, Threw e);
         (existsCall options, ReturnedBool false);
         (pruneCall this, Threw e3)]
        (Throw e3)
| run_cleaned s1 e ko s3 bo :
    WorktreeService.recoverable e = true ->
    run this options win target
        ([(pruneCall this, ReturnedString s1);
          (removeCall this options, Threw e);
          (existsCall options, ReturnedBool true)]
         ++ killEvents win options ko
         ++ [(SetTimeout 500, Returned);
             (deletion win options, Returned);
             (pruneCall this, ReturnedString s3)]
         ++ branchEvents this target bo)
        (Normal tt)
| run_cleaned_prune_failed s1 e ko e3 :
    WorktreeService.recoverable e = true ->
    run this options win target
        ([(pruneCall this, ReturnedString s1);
          (removeCall this options, Threw e);
          (existsCall options, ReturnedBool true)]
         ++ killEvents win options ko
         ++ [(SetTimeout 500, Returned);
             (deletion win options, Returned);
             (pruneCall this, Threw e3)])
        (Throw e3)
| run_deletion_failed s1 e ko e2 :
    WorktreeService.recoverable e = true ->
    run this options win target
        ([(pruneCall this, ReturnedString s1);
          (removeCall this options, Threw e);
          (existsCall options, ReturnedBool true)]
         ++ killEvents win options ko
         ++ [(SetTimeout 500, Returned);
             (deletion win options, Threw e2)])
        (Throw (WorktreeService.removalFailed (RemoveOptions.path options))).

(** The second call of the run threw an error that [remove] recovers
    from. *)
Definition failedRecoverably (evs : list Event) : bool :=
  match nth_error evs 1 with
  | Some (_, Threw e) => WorktreeService.recoverable e
  | _ => false
  end.

(** The third call of the run found the path. *)
Definition present (evs : list Event) : bool :=
  match nth_error evs 2 with
  | Some (_, ReturnedBool b) => b
  | _ => false
  end.

(** The sequence as first described: the second [prune] belongs to the
    case where the path still exists. *)
Definition claimedSequence (this : Service.t) (options : RemoveOptions.t)
  (win : bool) (target : option string) (failed found : bool) : list Call :=
  ([pruneCall this; removeCall this options]
   ++ (if failed then
         existsCall options
         :: (if found then
               killPass win options
               ++ [SetTimeout 500; deletion win options; pruneCall this]
             else [])
       else [])
   ++ branchDeletion this target)%list.

(** The sequence of a run that no error cuts short: the second [prune]
    follows every recovered failure. *)
Definition sequence (this : Service.t) (options : RemoveOptions.t)
  (win : bool) (target : option string) (failed found : bool) : list Call :=
  ([pruneCall this; removeCall this options]
   ++ (if failed then
         existsCall options
         :: (if found then
               killPass win options ++ [SetTimeout 500; deletion win options]
             else [])
         ++ [pruneCall this]
       else [])
   ++ branchDeletion this target)%list.

(** Where an error that reaches the caller of [remove] comes from: [err]
    is what the caller gets, [ev] the last event of the run. *)
Definition escapes (this : Service.t) (options : RemoveOptions.t)
  (win : bool) (ev : Event) (err : Thrown) : Prop :=
  match ev with
  | (call, Threw e) =>
      (call = pruneCall this /\ err = e)
      \/ (call = removeCall this options
          /\ WorktreeService.recoverable e = false /\ err = e)
      \/ (call = deletion win options
          /\ err = WorktreeService.removalFailed (RemoveOptions.path options))
  | _ => False
  end.

End RemovalSpec.

(** Lowercasing of the letters A to Z. *)
Definition lowerChar (c : ascii) : ascii :=
  let n := nat_of_ascii c in
  if Nat.leb 65 n && Nat.leb n 90 then ascii_of_nat (n + 32) else c.

Fixpoint lowerAscii (s : string) : string :=
  match s with
  | EmptyString => EmptyString
  | String c rest => String (lowerChar c) (lowerAscii rest)
  end.

(** Worlds used to run the model on concrete inputs: every call succeeds,
    except that [git] fails with [gitError] on the argument vectors that
    [failing] selects. *)
Definition scriptedWorld (os : string) (failing : list string -> bool)
  (gitError : Thrown) (found : bool) : World :=
  mkWorld os
          (fun _ _ => inr tt)
          (fun _ _ args => if failing args then inl gitError
                           else inr EmptyString)
          (fun _ _ => found)
          (fun _ _ => inr tt)
          (fun _ _ _ _ => inr tt)
          (fun _ _ => inr tt)
          (fun _ _ => inr tt)
          (fun h _ _ _ => inr (List.length h))
          (fun _ => "00000000-0000-4000-8000-000000000000")
          (fun _ => 0%N)
          (fun _ _ _ => inr tt)
          (fun text => if String.eqb text "{}" then inr (JObject [])
                       else inl (ErrorObject "SyntaxError"))
          (fun _ => "{}")
          lowerAscii.

(** The world [w], except that [spawn] throws [e] and the constructor of
    [simple-git] throws [e] on the directories that [missing] selects. *)
Definition broken (w : World) (e : Thrown) (missing : string -> bool)
  : World :=
  mkWorld (platform w)
          (fun h baseDir => if missing baseDir then inl e
                            else simpleGit w h baseDir)
          (git_raw w) (existsSync w) (execAsync w) (rm w)
          (stopWatchersInDirectory w) (ptyDestroyByWorkdir w)
          (fun _ _ _ _ => inl e)
          (randomUUID w) (Date_now w) (callback w)
          (JSON_parse w) (JSON_stringify w) (toLowerCase w).

(** The main process at start-up. *)
Definition startup : Machine := mkMachine [] Manager.init JsMap.empty.

(** Selects [git worktree remove ...]. *)
Definition isRemove (args : list string) : bool :=
  match args with
  | "worktree" :: "remove" :: _ => true
  | _ => false
  end.

(** A machine with two sessions, in sibling directories. *)
Definition twoSessions : Machine :=
  mkMachine []
            (Manager.mk
               [ ("agent-1", Session.mk "agent-1" 101 7 "C:\Repo\WT\sub" 9);
                 ("agent-2", Session.mk "agent-2" 102 7 "C:\Repo\WTX" 9) ]
               2)
            JsMap.empty.

(** A machine whose counter has reached 2^53, with the session created
    last. *)
Definition stalled : Machine :=
  mkMachine []
            (Manager.mk
               [ ("agent-9007199254740992",
                  Session.mk "agent-9007199254740992" 0 7 "/a" 9) ]
               Js.MAX_EXACT)
            JsMap.empty.

(* ===================================================================== *)
(** * The session map and the NDJSON stream, as described                 *)
(* ===================================================================== *)

Module SessionSpec.

(** Every key is the id of its session. *)
Definition keyed (a : Manager.t) : Prop :=
  Forall (fun e => fst e = Session.id (snd e)) (Manager.sessions a).

(** Every key is ['agent-<n>'] for a value [n] that the counter has
    already taken. *)
Definition numbered (a : Manager.t) : Prop :=
  Forall (fun e => exists n : N,
              (1 <= n <= Manager.counter a)%N
              /\ fst e = "agent-" ++ Js.ofNumber n)
         (Manager.sessions a).

(** The counter is an integer of 0..2^53. *)
Definition bounded (a : Manager.t) : Prop :=
  (Manager.counter a <= Js.MAX_EXACT)%N.

Definition invariant (a : Manager.t) : Prop :=
  JsMap.wf (Manager.sessions a) /\ keyed a /\ numbered a /\ bounded a.

(** The operations of the manager, with the exit callback of a session. *)
Inductive Op : Type :=
| Create (agent : AgentMetadata) (workdir : string) (onMessage : Callback)
| Send (sessionId content : string)
| Stop (sessionId : string)
| StopAll
| StopByWorkdir (workdir : string)
| Exit (id : string).

Definition perform (op : Op) : M unit :=
  match op with
  | Create agent workdir onMessage =>
      bindM (AgentSessionManager.create agent workdir onMessage)
            (fun _ => retM tt)
  | Send sessionId content => AgentSessionManager.send sessionId content
  | Stop sessionId => AgentSessionManager.stop sessionId
  | StopAll => AgentSessionManager.stopAll
  | StopByWorkdir workdir => AgentSessionManager.stopByWorkdir workdir
  | Exit id => AgentSessionManager.onExit id
  end.

(** The machines that the main process can be in: it starts with a new
    manager, and the manager changes through its operations only. *)
Inductive reachable (w : World) : Machine -> Prop :=
| reach_start tr services :
    reachable w (mkMachine tr Manager.init services)
| reach_op m op :
    reachable w m -> reachable w (fst (perform op w m))
| reach_other m tr services :
    reachable w m ->
    reachable w (mkMachine tr (agentSessionManager m) services).

(** A line of white space only. *)
Fixpoint blank (line : string) : bool :=
  match line with
  | EmptyString => true
  | String c rest => Js.isWhiteSpace c && blank rest
  end.

(** The JSON values of the lines that are not blank and parse. *)
Definition parsed (w : World) (lines : list string) : list Json :=
  flat_map (fun line =>
              if blank line then []
              else match JSON_parse w line with
                   | inr raw => [raw]
                   | inl _ => []
                   end)
           lines.

(** The calls of [onMessage] among some events: the callback, and the role
    and content of the message. *)
Definition deliveries (evs : list Event)
  : list (Callback * string * string) :=
  flat_map (fun ev =>
              match ev with
              | (OnMessage cb message, _) =>
                  [(cb, AgentMessage.role message,
                    AgentMessage.content message)]
              | _ => []
              end)
           evs.

(** All the chunks, one after the other. *)
Definition joined (chunks : list string) : string :=
  fold_right append EmptyString chunks.

(** The calls that [WorktreeService.remove] makes on the repository and
    on the file system. *)
Definition destructive (c : Call) : bool :=
  match c with
  | GitRaw _ _ | ExecAsync _ | FsRm _ _ _ | ExistsSync _ => true
  | _ => false
  end.

(** The calls of the teardown of the [WORKTREE_REMOVE] handler, for the
    sessions [victims] to stop. *)
Definition teardownCalls (p : string) (victims : list Session.t)
  : list Call :=
  ([StopWatchersInDirectory p; PtyDestroyByWorkdir p]
   ++ map (fun s => ProcessKill (Session.process s)) victims
   ++ [SetTimeout 1000])%list.

(** [stopByWorkdir] stops the session of entry [e]. *)
Definition hit (w : World) (workdir : string) (e : string * Session.t)
  : bool :=
  AgentSessionManager.under w workdir (snd e).

(** The event of killing the process of entry [e]. *)
Definition killed (e : string * Session.t) : Event :=
  (ProcessKill (Session.process (snd e)), Returned).

(** What one iteration of [stopByWorkdir] does to the map. *)
Definition stopStep (w : World) (workdir : string)
  (sessions : JsMap.t Session.t) (e : string * Session.t)
  : JsMap.t Session.t :=
  if hit w workdir e then JsMap.delete sessions (fst e) else sessions.

(** Some entry of [entries] with key [k] is hit. *)
Definition struck (w : World) (workdir : string)
  (entries : JsMap.t Session.t) (k : string) : bool :=
  existsb (fun e => hit w workdir e && String.eqb (fst e) k) entries.

(** What [deliveries] of the events of a run must be for [lines]. *)
Definition delivered (w : World) (session : Session.t)
  (lines : list string) : list (Callback * string * string) :=
  map (fun raw => (Session.onMessage session, "assistant",
                   JSON_stringify w raw))
      (parsed w lines).

(** A computation that only adds [evs] to the trace and returns [a]. *)
Definition adds {A : Type} (w : World) (c : M A) (m : Machine)
  (evs : list Event) (a : A) : Prop :=
  c w m = (mkMachine (trace m ++ evs) (agentSessionManager m)
                     (worktreeServices m), Normal a).

(** The sessions that the teardown of [options] stops. *)
Definition victims (w : World) (options : RemoveOptions.t) (m : Machine)
  : list Session.t :=
  filter (AgentSessionManager.under w (RemoveOptions.path options))
         (JsMap.values (Manager.sessions (agentSessionManager m))).

(** A call that returned. *)
Definition completed (c : Call) : Event := (c, Returned).

End SessionSpec.

(* ===================================================================== *)
(** * Further notions used to describe the code                           *)
(* ===================================================================== *)

Module Notions.

(** The character [c] occurs in [s]. *)
Fixpoint occurs (c : ascii) (s : string) : bool :=
  match s with
  | EmptyString => false
  | String d rest => Ascii.eqb d c || occurs c rest
  end.

(** A line that none of the six tests of the parser recognises. *)
Definition inert (line : string) : bool :=
  negb (Js.startsWith line "worktree "
        || Js.startsWith line "HEAD "
        || Js.startsWith line "branch "
        || String.eqb line "bare"
        || String.eqb line "locked"
        || String.eqb line "prunable").

(** The loop of [list] and what follows it, on the lines of the output. *)
Definition parseLines (lines : list string) : list GitWorktree :=
  let (worktrees, current) :=
    fold_left Porcelain.parseLine lines ([], emptyObject) in
  Porcelain.markFirst (Porcelain.pushCurrent worktrees current).

(** The properties that the type [GitWorktree] requires are defined, and
    the path is not empty. *)
Definition complete (wt : GitWorktree) : Prop :=
  (exists p, path wt = Some p /\ p <> EmptyString)
  /\ isMainWorktree wt <> None
  /\ isLocked wt <> None
  /\ prunable wt <> None.

(** Every ['branch '] line names a ref under ['refs/heads/'], as [git]
    prints them. *)
Definition branchesUnderHeads (result : string) : Prop :=
  forall line,
    In line (Js.split result Js.LF) ->
    Js.startsWith line "branch " = true ->
    Js.startsWith (Js.substring line 7) "refs/heads/" = true.

(** Shell commands are run on Windows only and [rm] elsewhere only; the
    commands are the two of [WorktreeService] on [p]. *)
Definition platformCall (win : bool) (p : string) (c : Call) : Prop :=
  match c with
  | ExecAsync command =>
      win = true
      /\ (command = WorktreeService.killCommand p
          \/ command = WorktreeService.rmdirCommand p)
  | FsRm target recursive force =>
      win = false /\ target = p /\ recursive = true /\ force = true
  | _ => True
  end.

(** A call that deletes the directory by hand or kills processes. *)
Definition forceful (c : Call) : bool :=
  match c with
  | ExecAsync _ | FsRm _ _ _ => true
  | _ => false
  end.

(** A [git] call runs in [workdir]. *)
Definition gitIn (workdir : string) (ev : Event) : Prop :=
  match fst ev with
  | GitRaw dir _ => dir = workdir
  | _ => True
  end.

(** Every cached service is bound to the directory it is cached under. *)
Definition cacheBound (services : JsMap.t Service.t) : Prop :=
  JsMap.wf services
  /\ Forall (fun e => snd e = Service.mk (fst e)) services.

(** The ids that the calls of [create] among [ops] return, in order, when
    the operations are performed one after the other from [m]. *)
Fixpoint createdIds (w : World) (ops : list SessionSpec.Op) (m : Machine)
  : list string :=
  match ops with
  | [] => []
  | op :: later =>
      let m' := fst (SessionSpec.perform op w m) in
      match op with
      | SessionSpec.Create agent workdir onMessage =>
          match snd (AgentSessionManager.create agent workdir onMessage w m)
          with
          | Normal id => id :: createdIds w later m'
          | Throw _ => createdIds w later m'
          end
      | _ => createdIds w later m'
      end
  end.

(** The number of calls of [create] among [ops]. *)
Fixpoint creations (ops : list SessionSpec.Op) : N :=
  match ops with
  | [] => 0%N
  | SessionSpec.Create _ _ _ :: later => (1 + creations later)%N
  | _ :: later => creations later
  end.

(** The text written to the standard input of [proc] among some events. *)
Definition written (proc : ChildProcess) (evs : list Event) : list string :=
  flat_map (fun ev =>
              match fst ev with
              | StdinWrite target data =>
                  if Nat.eqb target proc then [data] else []
              | _ => []
              end)
           evs.

(** The error of [send] for an id that is not in the map. *)
Definition notFound (sessionId : string) : Thrown :=
  ErrorObject ("Session not found: " ++ sessionId).

(** The computation [c] leaves the session manager and the service cache
    alone and only adds events to the trace. *)
Definition keeps {A : Type} (c : M A) (w : World) (m : Machine) : Prop :=
  agentSessionManager (fst (c w m)) = agentSessionManager m
  /\ worktreeServices (fst (c w m)) = worktreeServices m
  /\ trace (fst (c w m)) = (trace m ++ eventsOf c w m)%list.

End Notions.
(* ===================================================================== *)
(** * Running computations                                                *)
(* ===================================================================== *)

(** Unfolds the monad and the calls, leaving the answers of the world. *)
Ltac run_m :=
  cbv beta iota zeta delta
    [bind ret Monad_M bindM retM throw tryCatch invoke invokeTotal
     getWorld getManager putManager getServices putServices unitOutcome
     Env.simpleGit Env.gitRaw Env.existsSync Env.execAsync Env.rm Env.setTimeout
     Env.stopWatchersInDirectory Env.ptyDestroyByWorkdir Env.spawn Env.kill
     Env.stdinWrite Env.randomUUID Env.dateNow Env.call Env.jsonParse].


(** Case analysis on the next answer of the world. *)
Ltac next_answer :=
  match goal with
  | |- context [match ?x with inl _ => _ | inr _ => _ end] =>
      lazymatch x with
      | context [match _ with inl _ => _ | inr _ => _ end] => fail
      | context [if _ then _ else _] => fail
      | _ => destruct x
      end
  | |- context [if ?x then _ else _] =>
      lazymatch x with
      | context [match _ with inl _ => _ | inr _ => _ end] => fail
      | context [if _ then _ else _] => fail
      | _ => destruct x eqn:?
      end
  end.

Ltac close_run := first [ eassumption | exact Returned ].

(** Finds the run of [RemovalSpec.run] that a list of events is. *)
Ltac pick_run :=
  first
    [ solve [unshelve refine (RemovalSpec.run_prune_failed _ _ _ _ _);
             close_run]
    | solve [unshelve refine (RemovalSpec.run_removed _ _ _ _ _ _ _);
             close_run]
    | solve [unshelve refine (RemovalSpec.run_rethrown _ _ _ _ _ _ _);
             close_run]
    | solve [unshelve refine (RemovalSpec.run_gone _ _ _ _ _ _ _ _ _);
             close_run]
    | solve [unshelve refine
               (RemovalSpec.run_gone_prune_failed _ _ _ _ _ _ _ _);
             close_run]
    | solve [unshelve refine (RemovalSpec.run_cleaned _ _ _ _ _ _ _ _ _ _);
             close_run]
    | solve [unshelve refine
               (RemovalSpec.run_cleaned_prune_failed _ _ _ _ _ _ _ _ _);
             close_run]
    | solve [unshelve refine
               (RemovalSpec.run_deletion_failed _ _ _ _ _ _ _ _ _);
             close_run] ].

(** Case analysis on a run, the platform and the branch to delete. *)
Ltac run_cases R win target :=
  destruct R; destruct win, target;
  cbn [RemovalSpec.killEvents RemovalSpec.branchEvents RemovalSpec.killPass
       RemovalSpec.branchDeletion app map fst snd nth_error
       RemovalSpec.failedRecoverably RemovalSpec.present
       RemovalSpec.sequence last In] in *.

(** Shows the calls of a run as the constructors they are. *)
Ltac expose_calls options :=
  unfold RemovalSpec.removeCall, RemovalSpec.pruneCall,
    RemovalSpec.branchCall, RemovalSpec.existsCall, RemovalSpec.killCall,
    RemovalSpec.deletion, WorktreeService.removeArgs,
    WorktreeService.rmdirCommand, WorktreeService.killCommand in *;
  destruct (RemoveOptions.force options);
  cbn [app append] in *.

(** Goes through the events that a hypothesis says an event is among. *)
Ltac in_cases :=
  repeat match goal with
         | Hor : _ \/ _ |- _ => destruct Hor as [Hor|Hor]
         end;
  try contradiction; try congruence.

(* ===================================================================== *)
(** * Facts about the string primitives                                   *)
(* ===================================================================== *)

Lemma startsWith_cons_inv s c p :
  Js.startsWith s (String c p) = true ->
  exists s', s = String c s' /\ Js.startsWith s' p = true.
Proof.
  destruct s as [|d s']; simpl; [discriminate|].
  intros H. apply andb_true_iff in H. destruct H as [Hc Hp].
  apply Ascii.eqb_eq in Hc. subst d. eauto.
Qed.

Lemma startsWith_app p r : Js.startsWith (p ++ r) p = true.
Proof.
  induction p as [|c p IH]; simpl; [reflexivity|].
  rewrite Ascii.eqb_refl. exact IH.
Qed.

Lemma startsWith_iff s p :
  Js.startsWith s p = true <-> exists r, s = p ++ r.
Proof.
  split.
  - revert s. induction p as [|c p IH]; intros s H.
    + exists s. reflexivity.
    + apply startsWith_cons_inv in H. destruct H as (s' & -> & H).
      destruct (IH _ H) as [r ->]. exists r. reflexivity.
  - intros [r ->]. apply startsWith_app.
Qed.

Lemma substring_app p r : Js.substring (p ++ r) (String.length p) = r.
Proof. induction p as [|c p IH]; simpl; auto. Qed.

(** [replace] agrees with removing a prefix on strings that begin with
    the pattern. *)
Lemma replace_prefix s pat :
  Js.startsWith s pat = true ->
  Js.replace s pat EmptyString = PorcelainSpec.stripPrefix s pat.
Proof.
  intros H. unfold PorcelainSpec.stripPrefix. rewrite H.
  destruct s; simpl; rewrite H; reflexivity.
Qed.

Lemma includes_unfold s needle :
  Js.includes s needle
  = if Js.startsWith s needle then true
    else match s with
         | EmptyString => false
         | String _ s' => Js.includes s' needle
         end.
Proof. destruct s; reflexivity. Qed.

(** [includes] finds exactly the substrings. *)
Lemma includes_iff s needle :
  Js.includes s needle = true <-> exists a b, s = a ++ needle ++ b.
Proof.
  split.
  - induction s as [|c s IH]; rewrite includes_unfold.
    + destruct (Js.startsWith EmptyString needle) eqn:E; [|discriminate].
      intros _. apply startsWith_iff in E. destruct E as [r E].
      exists EmptyString, r. exact E.
    + destruct (Js.startsWith (String c s) needle) eqn:E.
      * intros _. apply startsWith_iff in E. destruct E as [r E].
        exists EmptyString, r. exact E.
      * intros H. destruct (IH H) as (a & b & ->).
        exists (String c a), b. reflexivity.
  - intros (a & b & ->). induction a as [|c a IH]; rewrite includes_unfold.
    + simpl. rewrite startsWith_app. reflexivity.
    + destruct (Js.startsWith _ needle); [reflexivity | exact IH].
Qed.

(* ===================================================================== *)
(** * The porcelain parser                                                *)
(* ===================================================================== *)

Section ParserFacts.

Import PorcelainSpec.

Lemma parseLine_body ws cur l :
  opens l = false ->
  Porcelain.parseLine (ws, cur) l = (ws, applyLine cur l).
Proof.
  unfold applyLine, Porcelain.parseLine, opens. intros ->.
  repeat match goal with
         | |- context [if ?c then _ else _] => destruct c
         end; reflexivity.
Qed.

Lemma parseLine_opens ws cur l :
  opens l = true ->
  Porcelain.parseLine (ws, cur) l
  = (Porcelain.pushCurrent ws cur, Porcelain.fresh (Js.substring l 9)).
Proof. unfold Porcelain.parseLine, opens. intros ->. reflexivity. Qed.

Lemma body_closed lines : Forall (fun l => opens l = false) (body lines).
Proof.
  induction lines as [|l ls IH]; simpl; [constructor|].
  destruct (opens l) eqn:E; constructor; assumption.
Qed.

Lemma lastRemainder_cons prefix l b :
  lastRemainder prefix (l :: b)
  = match lastRemainder prefix b with
    | Some r => Some r
    | None => if Js.startsWith l prefix
              then Some (Js.substring l (String.length prefix)) else None
    end.
Proof.
  unfold lastRemainder. simpl.
  destruct (Js.startsWith l prefix); simpl.
  - destruct (rev (filter (fun l0 => Js.startsWith l0 prefix) b));
      reflexivity.
  - destruct (rev (filter (fun l0 => Js.startsWith l0 prefix) b));
      reflexivity.
Qed.

(** A line is classified by its first character. *)
Lemma first_char_decides l c p :
  Js.startsWith l (String c p) = true ->
  forall d q, Ascii.eqb c d = false ->
    Js.startsWith l (String d q) = false /\ String.eqb l (String d q) = false.
Proof.
  intros H d q Hd. apply startsWith_cons_inv in H.
  destruct H as (l' & -> & _). simpl. rewrite Hd. split; reflexivity.
Qed.

(** The loop over a stanza's body, in closed form. *)
Lemma absorb_closed b :
  Forall (fun l => opens l = false) b ->
  forall cur,
    fold_left applyLine b cur
    = mkGitWorktree
        (path cur)
        (orElse (lastRemainder "HEAD " b) (head cur))
        (orElse (option_map shorten (lastRemainder "branch " b)) (branch cur))
        (if hasLine "bare" b then Some true else isMainWorktree cur)
        (if hasLine "locked" b then Some true else isLocked cur)
        (if hasLine "prunable" b then Some true else prunable cur).
Proof.
  induction 1 as [|l b Hl Hb IH]; intros cur.
  - destruct cur; reflexivity.
  - simpl fold_left. rewrite IH. rewrite !lastRemainder_cons.
    unfold hasLine. simpl existsb.
    unfold applyLine, Porcelain.parseLine. unfold opens in Hl. rewrite Hl.
    destruct (Js.startsWith l "HEAD ") eqn:E1.
    { pose proof (first_char_decides _ _ _ E1) as F.
      rewrite (proj1 (F "b"%char "ranch " eq_refl)),
        (proj2 (F "b"%char "are" eq_refl)),
        (proj2 (F "l"%char "ocked" eq_refl)),
        (proj2 (F "p"%char "runable" eq_refl)).
      destruct (lastRemainder "HEAD " b), (lastRemainder "branch " b),
        (existsb _ b), (existsb _ b), (existsb _ b); reflexivity. }
    destruct (Js.startsWith l "branch ") eqn:E2.
    { pose proof (first_char_decides _ _ _ E2) as F.
      rewrite (proj2 (F "l"%char "ocked" eq_refl)),
        (proj2 (F "p"%char "runable" eq_refl)).
      assert (String.eqb l "bare" = false) as ->.
      { destruct (String.eqb l "bare") eqn:E; [|reflexivity].
        apply String.eqb_eq in E. subst l. discriminate E2. }
      destruct (lastRemainder "HEAD " b), (lastRemainder "branch " b),
        (existsb _ b), (existsb _ b), (existsb _ b); reflexivity. }
    destruct (String.eqb l "bare") eqn:E3.
    { apply String.eqb_eq in E3. subst l.
      destruct (lastRemainder "HEAD " b), (lastRemainder "branch " b),
        (existsb _ b), (existsb _ b), (existsb _ b); reflexivity. }
    destruct (String.eqb l "locked") eqn:E4.
    { apply String.eqb_eq in E4. subst l.
      destruct (lastRemainder "HEAD " b), (lastRemainder "branch " b),
        (existsb _ b), (existsb _ b), (existsb _ b); reflexivity. }
    destruct (String.eqb l "prunable") eqn:E5.
    { apply String.eqb_eq in E5. subst l.
      destruct (lastRemainder "HEAD " b), (lastRemainder "branch " b),
        (existsb _ b), (existsb _ b), (existsb _ b); reflexivity. }
    destruct (lastRemainder "HEAD " b), (lastRemainder "branch " b),
      (existsb _ b), (existsb _ b), (existsb _ b); reflexivity.
Qed.

Lemma absorb_fresh p b :
  Forall (fun l => opens l = false) b ->
  fold_left applyLine b (Porcelain.fresh p) = recordWith shorten (p, b).
Proof.
  intros H. rewrite (absorb_closed _ H). simpl.
  destruct (lastRemainder "HEAD " b), (lastRemainder "branch " b),
    (hasLine "bare" b), (hasLine "locked" b), (hasLine "prunable" b);
    reflexivity.
Qed.

Lemma absorb_path b :
  Forall (fun l => opens l = false) b ->
  forall cur, hasPath (fold_left applyLine b cur) = hasPath cur.
Proof. intros H cur. rewrite (absorb_closed _ H). reflexivity. Qed.

Lemma push_fresh ws p b :
  Forall (fun l => opens l = false) b ->
  Porcelain.pushCurrent ws (fold_left applyLine b (Porcelain.fresh p))
  = (ws ++ map (recordWith shorten)
             (filter (fun st => Js.truthy (fst st)) [(p, b)]))%list.
Proof.
  intros H. unfold Porcelain.pushCurrent.
  rewrite (absorb_path _ H), (absorb_fresh _ _ H).
  unfold hasPath. cbn [Porcelain.fresh path filter fst].
  destruct (Js.truthy p); cbn [map]; rewrite ?app_nil_r; reflexivity.
Qed.

(** The loop, followed by the last push, cuts its input into stanzas. *)
Lemma loop_stanzas lines :
  forall ws cur,
    (let (ws', cur') := fold_left Porcelain.parseLine lines (ws, cur) in
     Porcelain.pushCurrent ws' cur')
    = (Porcelain.pushCurrent ws (fold_left applyLine (body lines) cur)
       ++ map (recordWith shorten)
            (filter (fun st => Js.truthy (fst st)) (stanzas lines)))%list.
Proof.
  induction lines as [|l ls IH]; intros ws cur.
  - simpl. rewrite app_nil_r. reflexivity.
  - cbn [fold_left body stanzas].
    destruct (opens l) eqn:E.
    + rewrite (parseLine_opens _ _ _ E). rewrite IH.
      rewrite (push_fresh _ _ _ (body_closed ls)).
      change ((Js.substring l 9, body ls) :: stanzas ls)
        with ([(Js.substring l 9, body ls)] ++ stanzas ls)%list.
      rewrite filter_app, map_app, app_assoc. reflexivity.
    + rewrite (parseLine_body _ _ _ E). rewrite IH. reflexivity.
Qed.

(** The parser computes the records of the named stanzas. *)
Lemma parse_expected result : Porcelain.parse result = expected result.
Proof.
  unfold Porcelain.parse, expected, named.
  pose proof (loop_stanzas (Js.split result Js.LF) [] emptyObject) as H.
  destruct (fold_left Porcelain.parseLine (Js.split result Js.LF)
              ([], emptyObject)) as [ws cur].
  rewrite H. unfold Porcelain.pushCurrent at 1.
  rewrite (absorb_path _ (body_closed _)). reflexivity.
Qed.

Lemma stanzas_paths lines :
  map fst (stanzas lines)
  = map (fun l => Js.substring l 9) (filter opens lines).
Proof.
  induction lines as [|l ls IH]; simpl; [reflexivity|].
  destruct (opens l); simpl; rewrite IH; reflexivity.
Qed.

Lemma markFirst_paths ws :
  map path (Porcelain.markFirst ws) = map path ws.
Proof. destruct ws as [|w ws]; reflexivity. Qed.

Lemma map_filter_fst {A B : Type} (f : A -> bool) (l : list (A * B)) :
  map fst (filter (fun st => f (fst st)) l) = filter f (map fst l).
Proof.
  induction l as [|[a b] l IH]; simpl; [reflexivity|].
  destruct (f a); simpl; rewrite IH; reflexivity.
Qed.

End ParserFacts.

Lemma hasLine_In word b :
  PorcelainSpec.hasLine word b = true <-> In word b.
Proof.
  unfold PorcelainSpec.hasLine. rewrite existsb_exists. split.
  - intros (l & Hl & E). apply String.eqb_eq in E. subst l. exact Hl.
  - intros H. exists word. split; [exact H | apply String.eqb_refl].
Qed.

Lemma Forall2_map_left {A B : Type} (P : B -> A -> Prop) (f : A -> B) l :
  (forall a, In a l -> P (f a) a) -> Forall2 P (map f l) l.
Proof.
  induction l as [|a l IH]; intros H; simpl; constructor.
  - apply H. left. reflexivity.
  - apply IH. intros b Hb. apply H. right. exact Hb.
Qed.

Example parse_two :
  Porcelain.parse
    ("worktree /repo" ++ String Js.LF
     ("HEAD abc" ++ String Js.LF
     ("branch refs/heads/main" ++ String Js.LF
     (String Js.LF
     ("worktree /repo-wt" ++ String Js.LF
     ("HEAD def" ++ String Js.LF
     ("detached" ++ String Js.LF
     ("locked" ++ String Js.LF EmptyString))))))))
  = [ mkGitWorktree (Some "/repo") (Some "abc") (Some "main")
                    (Some true) (Some false) (Some false);
      mkGitWorktree (Some "/repo-wt") (Some "def") None
                    (Some false) (Some true) (Some false) ].
Proof. reflexivity. Qed.

(** C1, as amended.  [WorktreeService.list] fails with the error of the
    [git] call or returns the parse of its output.  For every output the
    parse has one record per line that begins with ['worktree '] and has a
    non-empty remainder, in input order, with that remainder as its path;
    and each record is the record of its stanza: [head] is the remainder of
    the last ['HEAD '] line, [branch] the remainder of the last ['branch ']
    line with the first occurrence of ['refs/heads/'] removed, [isLocked]
    and [prunable] tell whether the stanza has a line ['locked'] or
    ['prunable'], and [isMainWorktree] tells whether it has a line ['bare'],
    except in the first record, where it is always true. *)
Theorem list_records_of_stanzas :
  (forall this w m,
      snd (WorktreeService.list_ this w m)
      = match git_raw w (trace m) (Service.git this)
                ["worktree"; "list"; "--porcelain"] with
        | inl e => Throw e
        | inr result => Normal (Porcelain.parse result)
        end)
  /\ (forall result,
         map path (Porcelain.parse result)
         = map Some
             (filter Js.truthy
                (map (fun l => Js.substring l 9)
                   (filter PorcelainSpec.opens (Js.split result Js.LF)))))
  /\ (forall result, Porcelain.parse result = PorcelainSpec.expected result).
Proof.
  split; [|split].
  - intros this w m. unfold WorktreeService.list_. run_m.
    destruct (git_raw w (trace m) (Service.git this) _); reflexivity.
  - intros result. rewrite parse_expected. unfold PorcelainSpec.expected.
    rewrite markFirst_paths, map_map. unfold PorcelainSpec.named.
    rewrite <- stanzas_paths, <- map_filter_fst, map_map.
    apply map_ext. intros [p b]. reflexivity.
  - exact parse_expected.
Qed.

(** C1, as first stated, fails twice: the first record is the main
    worktree without any ['bare'] line, and ['refs/heads/'] is removed from
    the middle of a branch name. *)
Lemma list_claimed_counterexample :
  Porcelain.parse "worktree /a"
  = [ mkGitWorktree (Some "/a") None None
                    (Some true) (Some false) (Some false) ]
  /\ PorcelainSpec.claimed "worktree /a"
     = [ mkGitWorktree (Some "/a") None None
                       (Some false) (Some false) (Some false) ]
  /\ map branch
       (Porcelain.parse
          ("worktree /a" ++ String Js.LF "branch x/refs/heads/y"))
     = [ Some "x/y" ]
  /\ map branch
       (PorcelainSpec.claimed
          ("worktree /a" ++ String Js.LF "branch x/refs/heads/y"))
     = [ Some "x/refs/heads/y" ]
  /\ ~ (forall result, Porcelain.parse result = PorcelainSpec.claimed result).
Proof.
  repeat split; try reflexivity.
  intros H. specialize (H "worktree /a"). discriminate H.
Qed.

(** C9.  When [list] returns a non-empty array, its first element has
    [isMainWorktree] true whatever its stanza holds, and every later
    element belongs to its own stanza and has [isMainWorktree] true only
    when (indeed exactly when) that stanza has a line ['bare']. *)
Theorem list_first_is_main (result : string) :
  match Porcelain.parse result, PorcelainSpec.named result with
  | [], [] => True
  | w :: rest, _ :: later =>
      isMainWorktree w = Some true
      /\ Forall2 (fun w st =>
                    path w = Some (fst st)
                    /\ (isMainWorktree w = Some true <-> In "bare" (snd st)))
                 rest later
  | _, _ => False
  end.
Proof.
  rewrite parse_expected. unfold PorcelainSpec.expected.
  destruct (PorcelainSpec.named result) as [|st later]; simpl; [exact I|].
  split; [reflexivity|].
  apply Forall2_map_left. intros [p b] _. simpl. split; [reflexivity|].
  rewrite <- hasLine_In.
  destruct (PorcelainSpec.hasLine "bare" b); split; congruence.
Qed.

(** The first element is the main worktree even without a ['bare'] line. *)
Example lone_worktree_is_main :
  map isMainWorktree (Porcelain.parse "worktree /a") = [Some true]
  /\ PorcelainSpec.named "worktree /a" = [("/a", [])].
Proof. split; reflexivity. Qed.

(* ===================================================================== *)
(** * WorktreeService.remove                                              *)
(* ===================================================================== *)

Lemma skipn_length_app {A : Type} (l r : list A) :
  skipn (List.length l) (l ++ r) = r.
Proof. induction l as [|a l IH]; simpl; auto. Qed.

Section Removal.

Import RemovalSpec.

Variable w : World.
Variable this : Service.t.
Variable options : RemoveOptions.t.

(** [killProcessesInDirectory] swallows every failure. *)
Lemma kill_outcome dirPath m :
  WorktreeService.killProcessesInDirectory dirPath w m
  = (mkMachine
       (trace m
        ++ (if String.eqb (platform w) "win32"
            then [(ExecAsync (WorktreeService.killCommand dirPath),
                   match execAsync w (trace m)
                           (WorktreeService.killCommand dirPath) with
                   | inl e => Threw e
                   | inr _ => Returned
                   end)]
            else []))%list
       (agentSessionManager m) (worktreeServices m),
     Normal tt).
Proof.
  unfold WorktreeService.killProcessesInDirectory. run_m.
  destruct (String.eqb (platform w) "win32"); cbn [negb].
  - destruct (execAsync w (trace m) _) as [e|[]]; reflexivity.
  - rewrite app_nil_r. destruct m; reflexivity.
Qed.

(** Every run of [remove] is one of the runs of [RemovalSpec.run], and it
    touches nothing but the trace. *)
Lemma remove_run m :
  exists evs r,
    WorktreeService.remove this options w m
    = (mkMachine (trace m ++ evs) (agentSessionManager m)
                 (worktreeServices m), r)
    /\ run this options (onWindows w)
           (WorktreeService.branchToDelete options) evs r.
Proof.
  unfold onWindows, WorktreeService.remove, WorktreeService.prune,
    WorktreeService.manualCleanup.
  run_m.
  destruct (String.eqb (platform w) "win32") eqn:Hwin;
    destruct (WorktreeService.branchToDelete options) as [b|] eqn:Hb.
  all: repeat (first [ rewrite kill_outcome, Hwin | next_answer ]; run_m).
  all: repeat (progress
                 (unfold record;
                  cbn [trace agentSessionManager worktreeServices app];
                  rewrite <- ?app_assoc)).
  all: eexists; eexists; (split; [reflexivity|]).
  all: pick_run.
Qed.

End Removal.

(* ===================================================================== *)
(** * What the runs of [remove] have in common                            *)
(* ===================================================================== *)

Section Runs.

Import RemovalSpec.

Variable this : Service.t.
Variable options : RemoveOptions.t.
Variable win : bool.
Variable target : option string.

Lemma removeCall_not_prune : removeCall this options <> pruneCall this.
Proof.
  unfold removeCall, pruneCall, WorktreeService.removeArgs.
  destruct (RemoveOptions.force options); discriminate.
Qed.

Lemma deletion_not_kill : deletion win options <> killCall options.
Proof.
  unfold deletion, killCall, WorktreeService.rmdirCommand,
    WorktreeService.killCommand.
  destruct win; discriminate.
Qed.

(** The calls of a run, in order. *)
Lemma run_calls evs r :
  run this options win target evs r ->
  (exists rest,
      sequence this options win target (failedRecoverably evs) (present evs)
      = (map fst evs ++ rest)%list)
  /\ (r = Normal tt ->
      map fst evs
      = sequence this options win target
                 (failedRecoverably evs) (present evs))
  /\ (forall b o, In (branchCall this b, o) evs -> r = Normal tt).
Proof.
  intros R. split; [|split].
  - run_cases R win target;
      repeat match goal with
             | H : WorktreeService.recoverable _ = _ |- _ => rewrite H
             end;
      cbn [app]; eexists; reflexivity.
  - run_cases R win target; intros E; try discriminate E;
      repeat match goal with
             | H : WorktreeService.recoverable _ = _ |- _ => rewrite H
             end;
      reflexivity.
  - intros b o. pose proof removeCall_not_prune as NP.
    unfold removeCall, pruneCall, branchCall, existsCall, killCall,
      deletion, WorktreeService.removeArgs in *.
    destruct (RemoveOptions.force options);
      run_cases R win target; intros Hin; try reflexivity; exfalso;
      repeat match goal with
             | Hor : _ \/ _ |- _ => destruct Hor as [Hor|Hor]
             end;
      try contradiction; discriminate.
Qed.

(** Where the errors of a run go. *)
Lemma run_errors evs r :
  run this options win target evs r ->
  (forall err, r = Throw err ->
               escapes this options win (last evs (SetTimeout 0, Returned)) err)
  /\ (forall e, In (pruneCall this, Threw e) evs -> r = Throw e)
  /\ (forall e, In (removeCall this options, Threw e) evs ->
                WorktreeService.recoverable e = false -> r = Throw e)
  /\ (forall e, In (deletion win options, Threw e) evs ->
                r = Throw (WorktreeService.removalFailed
                             (RemoveOptions.path options)))
  /\ (forall e, In (killCall options, Threw e) evs ->
                In (SetTimeout 500, Returned) evs)
  /\ (forall b e, In (branchCall this b, Threw e) evs -> r = Normal tt).
Proof.
  intros R. split; [|split; [|split; [|split; [|split]]]].
  - intros err E. unfold escapes.
    run_cases R win target; try discriminate E; injection E as <-; auto 6.
  - intros e0. run_cases R win target; intros Hin; expose_calls options; in_cases.
  - intros e0. run_cases R win target; intros Hin Hrec; expose_calls options; in_cases.
  - intros e0. run_cases R win target; intros Hin; expose_calls options; in_cases.
  - intros e0. run_cases R win target; intros Hin; expose_calls options; in_cases;
      cbn [In]; auto 10.
  - intros b e0. exact (proj2 (proj2 (run_calls evs r R)) b (Threw e0)).
Qed.

(** A call whose failure escapes is the last call of its run, and a run
    that throws ends with such a call. *)
Lemma run_stops evs r :
  run this options win target evs r ->
  (forall i ev err,
      nth_error evs i = Some ev ->
      escapes this options win ev err ->
      S i = List.length evs /\ r = Throw err)
  /\ (forall err,
         r = Throw err ->
         exists front ev,
           evs = (front ++ [ev])%list /\ escapes this options win ev err).
Proof.
  intros R. split.
  - intros i ev err. unfold escapes.
    run_cases R win target; intros Hn Hesc;
      repeat (destruct i as [|i];
              [ injection Hn as <-
              | cbn [nth_error] in Hn ]);
      try (destruct i; discriminate Hn);
      repeat match goal with
             | o : Outcome |- _ => destruct o
             end;
      try contradiction;
      expose_calls options;
      repeat match goal with
             | H : _ \/ _ |- _ => destruct H as [H|H]
             | H : _ /\ _ |- _ => destruct H as [? H]
             end;
      try discriminate; try congruence;
      subst; split; reflexivity.
  - intros err E.
    exists (removelast evs), (last evs (SetTimeout 0, Returned)).
    unfold escapes.
    run_cases R win target; try discriminate E; injection E as <-;
      cbn [removelast app]; (split; [reflexivity | auto 6]).
Qed.

(** A failed [git worktree remove] is followed by the existence check
    exactly when its error is recoverable, and ends the run otherwise. *)
Lemma run_recovery evs r e :
  run this options win target evs r ->
  nth_error evs 1 = Some (removeCall this options, Threw e) ->
  (WorktreeService.recoverable e = true
   <-> exists found,
       nth_error evs 2 = Some (existsCall options, ReturnedBool found))
  /\ (WorktreeService.recoverable e = false ->
      r = Throw e /\ List.length evs = 2).
Proof.
  intros R. run_cases R win target; intros E; try discriminate E;
    injection E as <-;
    (split; [split; [intros _; eexists; reflexivity | intros _; assumption]
            | intros F; try congruence; split; reflexivity])
    || (split; [split; [congruence | intros [found F]; discriminate F]
               | intros _; split; reflexivity]).
Qed.

End Runs.

(** The test on the error message, in words. *)
Lemma recoverable_iff e :
  WorktreeService.recoverable e = true
  <-> (exists a b, messageOf e = a ++ "Permission denied" ++ b)
      \/ (exists a b, messageOf e = a ++ "is not a working tree" ++ b).
Proof.
  unfold WorktreeService.recoverable.
  rewrite orb_true_iff, !includes_iff. reflexivity.
Qed.

Lemma remove_events w this options m :
  exists r,
    WorktreeService.remove this options w m
    = (mkMachine
         (trace m ++ eventsOf (WorktreeService.remove this options) w m)
         (agentSessionManager m) (worktreeServices m), r)
    /\ RemovalSpec.run this options (RemovalSpec.onWindows w)
         (WorktreeService.branchToDelete options)
         (eventsOf (WorktreeService.remove this options) w m) r.
Proof.
  destruct (remove_run w this options m) as (evs & r & E & R).
  exists r. unfold eventsOf. rewrite E. cbn [fst trace].
  rewrite skipn_length_app. split; [reflexivity | exact R].
Qed.


(* ===================================================================== *)
(** * Claims about removal                                                *)
(* ===================================================================== *)

(** C8.  [killProcessesInDirectory] returns normally for every path, on
    every platform and whatever the PowerShell command does: off Windows it
    runs no command and leaves the machine as it is, on Windows it runs one
    command and swallows its failure. *)
Theorem kill_never_throws (dirPath : string) (w : World) (m : Machine) :
  let r := WorktreeService.killProcessesInDirectory dirPath w m in
  snd r = Normal tt
  /\ map fst (eventsOf (WorktreeService.killProcessesInDirectory dirPath) w m)
     = (if String.eqb (platform w) "win32"
        then [ExecAsync (WorktreeService.killCommand dirPath)]
        else [])
  /\ (String.eqb (platform w) "win32" = false -> fst r = m)
  /\ agentSessionManager (fst r) = agentSessionManager m
  /\ worktreeServices (fst r) = worktreeServices m.
Proof.
  cbv zeta. unfold eventsOf. rewrite kill_outcome. cbn [fst snd trace].
  rewrite skipn_length_app.
  destruct (String.eqb (platform w) "win32").
  - repeat split; try reflexivity. intros F. discriminate F.
  - repeat split; try reflexivity. intros _. rewrite app_nil_r.
    destruct m; reflexivity.
Qed.

(** C2, as amended.  [remove] only adds events to the trace, and its calls
    are, in order: [git worktree prune]; [git worktree remove] on the path,
    with ['--force'] before the path iff [options.force]; then, if that
    call threw a recoverable error, the existence check of the path, and
    when the path is there the process-kill pass, the 500 ms delay and
    [rmdir /s /q] (Windows) or the recursive forced [rm] (elsewhere); then,
    whether the path was there or not, [git worktree prune] again; and
    last, iff [options.deleteBranch] is set and [options.branch] is a
    non-empty string, [git branch -D] on it.  The run goes through this
    sequence until a call fails with an error that escapes (a [prune], the
    [git worktree remove] with an error that is not recoverable, the
    deletion of the directory): that call is the last of the run, which
    then throws.  So every run performs a prefix of the sequence; a run
    that returns has performed all of it; a run that throws ends with the
    call that failed; and a run that reaches the branch deletion returns
    normally whatever that call does. *)
Theorem remove_call_sequence (w : World) (this : Service.t)
  (options : RemoveOptions.t) (m : Machine) :
  let r := WorktreeService.remove this options w m in
  let evs := eventsOf (WorktreeService.remove this options) w m in
  let full :=
    RemovalSpec.sequence this options (RemovalSpec.onWindows w)
      (WorktreeService.branchToDelete options)
      (RemovalSpec.failedRecoverably evs) (RemovalSpec.present evs) in
  trace (fst r) = (trace m ++ evs)%list
  /\ WorktreeService.removeArgs options
     = (if RemoveOptions.force options
        then ["worktree"; "remove"; "--force"; RemoveOptions.path options]
        else ["worktree"; "remove"; RemoveOptions.path options])
  /\ (forall b,
         WorktreeService.branchToDelete options = Some b
         <-> RemoveOptions.deleteBranch options = true
             /\ RemoveOptions.branch options = Some b
             /\ b <> EmptyString)
  /\ (exists rest, full = (map fst evs ++ rest)%list)
  /\ (snd r = Normal tt -> map fst evs = full)
  /\ (forall b o,
         In (RemovalSpec.branchCall this b, o) evs -> snd r = Normal tt)
  /\ (forall i ev err,
         nth_error evs i = Some ev ->
         RemovalSpec.escapes this options (RemovalSpec.onWindows w) ev err ->
         S i = List.length evs /\ snd r = Throw err)
  /\ (forall err,
         snd r = Throw err ->
         exists front ev,
           evs = (front ++ [ev])%list
           /\ RemovalSpec.escapes this options (RemovalSpec.onWindows w)
                                  ev err).
Proof.
  cbv zeta.
  destruct (remove_events w this options m) as (r & E & R).
  rewrite E. cbn [fst snd trace].
  split; [reflexivity|].
  split; [unfold WorktreeService.removeArgs;
          destruct (RemoveOptions.force options); reflexivity|].
  split;
    [|destruct (run_calls _ _ _ _ _ _ R) as (P & F & B);
      destruct (run_stops _ _ _ _ _ _ R) as (S1 & S2);
      exact (conj P (conj F (conj B (conj S1 S2))))].
  intros b. unfold WorktreeService.branchToDelete.
  destruct (RemoveOptions.deleteBranch options),
    (RemoveOptions.branch options) as [[|c s]|];
    cbn [Js.truthy]; split;
    first [ intros (H1 & H2 & H3); congruence
          | intros H; try discriminate H; injection H as <-;
            repeat split; discriminate ].
Qed.

(** C2, as first stated, fails in two ways.  When [git worktree remove]
    fails with a recoverable error and the path is already gone, the
    second [git worktree prune] is run all the same.  And when the first
    [git worktree prune] fails, the run ends there: [remove] throws and
    [git worktree remove] is never called. *)
Lemma remove_claimed_sequence_counterexample :
  let w := scriptedWorld "linux" isRemove
             (ErrorObject "fatal: '/repo/wt' is not a working tree") false in
  let boom := ErrorObject "fatal: not a git repository" in
  let w' := scriptedWorld "linux" (fun _ => true) boom true in
  let this := Service.mk "/repo" in
  let options := RemoveOptions.mk "/repo/wt" false false None in
  let evs := eventsOf (WorktreeService.remove this options) w startup in
  let evs' := eventsOf (WorktreeService.remove this options) w' startup in
  snd (WorktreeService.remove this options w startup) = Normal tt
  /\ map fst evs
     = [ GitRaw "/repo" ["worktree"; "prune"];
         GitRaw "/repo" ["worktree"; "remove"; "/repo/wt"];
         ExistsSync "/repo/wt";
         GitRaw "/repo" ["worktree"; "prune"] ]
  /\ RemovalSpec.claimedSequence this options (RemovalSpec.onWindows w)
       (WorktreeService.branchToDelete options)
       (RemovalSpec.failedRecoverably evs) (RemovalSpec.present evs)
     = [ GitRaw "/repo" ["worktree"; "prune"];
         GitRaw "/repo" ["worktree"; "remove"; "/repo/wt"];
         ExistsSync "/repo/wt" ]
  /\ map fst evs
     <> RemovalSpec.claimedSequence this options (RemovalSpec.onWindows w)
          (WorktreeService.branchToDelete options)
          (RemovalSpec.failedRecoverably evs) (RemovalSpec.present evs)
  /\ snd (WorktreeService.remove this options w' startup) = Throw boom
  /\ evs' = [ (GitRaw "/repo" ["worktree"; "prune"], Threw boom) ]
  /\ RemovalSpec.claimedSequence this options (RemovalSpec.onWindows w')
       (WorktreeService.branchToDelete options)
       (RemovalSpec.failedRecoverably evs') (RemovalSpec.present evs')
     = [ GitRaw "/repo" ["worktree"; "prune"];
         GitRaw "/repo" ["worktree"; "remove"; "/repo/wt"] ]
  /\ map fst evs'
     <> RemovalSpec.claimedSequence this options (RemovalSpec.onWindows w')
          (WorktreeService.branchToDelete options)
          (RemovalSpec.failedRecoverably evs') (RemovalSpec.present evs').
Proof.
  cbv zeta. repeat split; try reflexivity; intros F; vm_compute in F;
    discriminate F.
Qed.

(** C3.  When the [git worktree remove] call of a run throws [e], the run
    goes on to the manual clean-up (whose first step is the existence
    check of the path) iff the message of [e] contains ['Permission
    denied'] or ['is not a working tree']; with any other error the run
    ends there and [remove] throws [e] itself. *)
Theorem remove_recovers_by_message (w : World) (this : Service.t)
  (options : RemoveOptions.t) (m : Machine) (e : Thrown) :
  let r := WorktreeService.remove this options w m in
  let evs := eventsOf (WorktreeService.remove this options) w m in
  let matched :=
    (exists a b, messageOf e = a ++ "Permission denied" ++ b)
    \/ (exists a b, messageOf e = a ++ "is not a working tree" ++ b) in
  nth_error evs 1 = Some (RemovalSpec.removeCall this options, Threw e) ->
  (matched
   <-> exists found,
       nth_error evs 2
       = Some (RemovalSpec.existsCall options, ReturnedBool found))
  /\ (~ matched -> snd r = Throw e /\ List.length evs = 2).
Proof.
  cbv zeta. intros H.
  destruct (remove_events w this options m) as (r & E & R).
  rewrite E. cbn [snd].
  destruct (run_recovery _ _ _ _ _ _ _ R H) as [Hyes Hno].
  rewrite <- recoverable_iff. split; [exact Hyes|].
  intros N. apply Hno.
  destruct (WorktreeService.recoverable e); [contradiction N|]; reflexivity.
Qed.

(** A run on which C3 can be read off: [git worktree remove] fails with
    ['Permission denied'] and the clean-up starts. *)
Lemma remove_recovers_by_message_witness :
  let w := scriptedWorld "linux" isRemove
             (ErrorObject "error: unable to delete: Permission denied") true in
  let this := Service.mk "/repo" in
  let options := RemoveOptions.mk "/repo/wt" true false None in
  let e := ErrorObject "error: unable to delete: Permission denied" in
  let evs := eventsOf (WorktreeService.remove this options) w startup in
  nth_error evs 1 = Some (RemovalSpec.removeCall this options, Threw e)
  /\ exists found,
       nth_error evs 2
       = Some (RemovalSpec.existsCall options, ReturnedBool found).
Proof.
  cbv zeta. split; [reflexivity|].
  apply (remove_recovers_by_message
           (scriptedWorld "linux" isRemove
              (ErrorObject "error: unable to delete: Permission denied") true)
           (Service.mk "/repo")
           (RemoveOptions.mk "/repo/wt" true false None)
           startup
           (ErrorObject "error: unable to delete: Permission denied")
           eq_refl).
  left. exists "error: unable to delete: ", EmptyString. reflexivity.
Defined.

(** C5, as amended.  An error that reaches the caller of [remove] is the
    error of the last call of the run, which is a [git worktree prune]
    (its error comes through as it is), the [git worktree remove] with an
    error that is not recoverable (as it is, too), or the manual deletion
    (replaced by the generic error).  Conversely a failing [prune], a
    [git worktree remove] failing with a non-recoverable error and a
    failing manual deletion always end in these errors, a failing
    process-kill command is followed by the delay, and a failing
    [git branch -D] is followed by a normal return. *)
Theorem remove_error_routing (w : World) (this : Service.t)
  (options : RemoveOptions.t) (m : Machine) :
  let r := snd (WorktreeService.remove this options w m) in
  let evs := eventsOf (WorktreeService.remove this options) w m in
  let win := RemovalSpec.onWindows w in
  (forall err,
      r = Throw err ->
      RemovalSpec.escapes this options win
        (last evs (SetTimeout 0, Returned)) err)
  /\ (forall e, In (RemovalSpec.pruneCall this, Threw e) evs -> r = Throw e)
  /\ (forall e,
         In (RemovalSpec.removeCall this options, Threw e) evs ->
         WorktreeService.recoverable e = false -> r = Throw e)
  /\ (forall e,
         In (RemovalSpec.deletion win options, Threw e) evs ->
         r = Throw (WorktreeService.removalFailed (RemoveOptions.path options)))
  /\ (forall e,
         In (RemovalSpec.killCall options, Threw e) evs ->
         In (SetTimeout 500, Returned) evs)
  /\ (forall b e,
         In (RemovalSpec.branchCall this b, Threw e) evs -> r = Normal tt).
Proof.
  cbv zeta.
  destruct (remove_events w this options m) as (r & E & R).
  rewrite E. cbn [snd].
  exact (run_errors _ _ _ _ _ _ R).
Qed.

(** C5, as first stated, fails: an error of [git worktree remove] that
    matches neither substring is thrown to the caller as it is, and so is
    an error of [git worktree prune]. *)
Lemma remove_verbatim_error_counterexample :
  let boom := ErrorObject "fatal: not a git repository" in
  let this := Service.mk "/repo" in
  let options := RemoveOptions.mk "/repo/wt" false false None in
  let generic := WorktreeService.removalFailed "/repo/wt" in
  (In (RemovalSpec.removeCall this options, Threw boom)
      (eventsOf (WorktreeService.remove this options)
                (scriptedWorld "linux" isRemove boom true) startup)
   /\ snd (WorktreeService.remove this options
             (scriptedWorld "linux" isRemove boom true) startup)
      = Throw boom
   /\ boom <> generic)
  /\ (In (RemovalSpec.pruneCall this, Threw boom)
         (eventsOf (WorktreeService.remove this options)
                   (scriptedWorld "linux" (fun _ => true) boom true) startup)
      /\ snd (WorktreeService.remove this options
                (scriptedWorld "linux" (fun _ => true) boom true) startup)
         = Throw boom).
Proof.
  cbv zeta. repeat split; try (vm_compute; tauto); discriminate.
Qed.

(* ===================================================================== *)
(** * Facts about [Map]                                                   *)
(* ===================================================================== *)

Section MapFacts.

Context {V : Type}.

Lemma get_absent (m : JsMap.t V) k :
  JsMap.get m k = None <-> ~ In k (JsMap.keys m).
Proof.
  induction m as [|[k' v] m IH]; simpl.
  - tauto.
  - destruct (String.eqb_spec k' k) as [->|N].
    + split; [discriminate | intros H; exfalso; apply H; left; reflexivity].
    + rewrite IH. tauto.
Qed.

Lemma set_absent (m : JsMap.t V) k v :
  JsMap.get m k = None -> JsMap.set m k v = (m ++ [(k, v)])%list.
Proof.
  induction m as [|[k' v'] m IH]; simpl; [reflexivity|].
  destruct (String.eqb k' k); [discriminate|].
  intros H. rewrite (IH H). reflexivity.
Qed.

Lemma get_set (m : JsMap.t V) k v : JsMap.get (JsMap.set m k v) k = Some v.
Proof.
  induction m as [|[k' v'] m IH]; simpl.
  - rewrite String.eqb_refl. reflexivity.
  - destruct (String.eqb k' k) eqn:E; simpl; rewrite E; auto.
Qed.

Lemma keys_filter_incl (f : string * V -> bool) (m : JsMap.t V) k :
  In k (JsMap.keys (filter f m)) -> In k (JsMap.keys m).
Proof.
  unfold JsMap.keys. rewrite !in_map_iff.
  intros (e & E & H). apply filter_In in H. exists e. tauto.
Qed.

Lemma wf_filter (f : string * V -> bool) (m : JsMap.t V) :
  JsMap.wf m -> JsMap.wf (filter f m).
Proof.
  unfold JsMap.wf. induction m as [|[k v] m IH]; simpl; intros H.
  - constructor.
  - inversion H as [|? ? Hk Hm]; subst.
    destruct (f (k, v)); simpl; auto.
    constructor; auto. intros Hin. apply Hk.
    exact (keys_filter_incl f m k Hin).
Qed.

Lemma wf_snoc (m : JsMap.t V) k v :
  JsMap.wf m -> ~ In k (JsMap.keys m) -> JsMap.wf (m ++ [(k, v)])%list.
Proof.
  unfold JsMap.wf, JsMap.keys. rewrite map_app. simpl.
  induction (map fst m) as [|k' ks IH]; simpl; intros H N.
  - constructor; [tauto | constructor].
  - inversion H as [|? ? Hk Hm]; subst. constructor.
    + rewrite in_app_iff. simpl. intros [Hin|[E|[]]]; [tauto|].
      apply N. left. symmetry. exact E.
    + apply IH; tauto.
Qed.

Lemma filter_filter {A : Type} (f g : A -> bool) (l : list A) :
  filter f (filter g l) = filter (fun x => g x && f x) l.
Proof.
  induction l as [|a l IH]; simpl; [reflexivity|].
  destruct (g a); simpl; [destruct (f a)|]; rewrite IH; reflexivity.
Qed.

End MapFacts.

(* ===================================================================== *)
(** * stopByWorkdir                                                       *)
(* ===================================================================== *)

Section StopByWorkdir.

Variable w : World.
Variable workdir : string.

Local Abbreviation hit := (SessionSpec.hit w workdir).
Local Abbreviation killed := SessionSpec.killed.
Local Abbreviation stopStep := (SessionSpec.stopStep w workdir).
Local Abbreviation struck := (SessionSpec.struck w workdir).

Lemma stop_loop entries :
  forall m,
    forOf entries (AgentSessionManager.stopIfUnder w workdir) w m
    = (mkMachine
         (trace m ++ map killed (filter hit entries))
         (Manager.mk
            (fold_left stopStep entries
                       (Manager.sessions (agentSessionManager m)))
            (Manager.counter (agentSessionManager m)))
         (worktreeServices m),
       Normal tt).
Proof.
  induction entries as [|[id session] entries IH]; intros m.
  - destruct m as [tr [ss c] sv]. simpl. unfold retM.
    rewrite app_nil_r. reflexivity.
  - cbn [forOf]. unfold bindM at 1.
    unfold AgentSessionManager.stopIfUnder at 1.
    unfold AgentSessionManager.updateSessions.
    cbn [filter fold_left]. unfold SessionSpec.stopStep at 2.
    change (SessionSpec.hit w workdir (id, session))
      with (AgentSessionManager.under w workdir session).
    cbn [fst snd].
    destruct (AgentSessionManager.under w workdir session).
    + run_m. rewrite IH. unfold record.
      cbn [trace agentSessionManager worktreeServices
           Manager.sessions Manager.counter map].
      rewrite <- app_assoc. reflexivity.
    + run_m. rewrite IH. reflexivity.
Qed.

Lemma fold_stopStep entries :
  forall sessions,
    fold_left stopStep entries sessions
    = filter (fun e => negb (struck entries (fst e))) sessions.
Proof.
  induction entries as [|e entries IH]; intros sessions.
  - simpl. induction sessions as [|x xs IHx]; simpl; congruence.
  - cbn [fold_left]. rewrite IH. unfold SessionSpec.stopStep, JsMap.delete.
    destruct (hit e) eqn:E.
    + rewrite filter_filter. apply filter_ext. intros x.
      unfold SessionSpec.struck. cbn [existsb]. rewrite E. cbn [andb].
      rewrite negb_orb. rewrite (String.eqb_sym (fst x) (fst e)).
      reflexivity.
    + apply filter_ext. intros x. unfold SessionSpec.struck. cbn [existsb].
      rewrite E. reflexivity.
Qed.

Lemma struck_fresh entries k :
  ~ In k (JsMap.keys entries) -> struck entries k = false.
Proof.
  induction entries as [|e entries IH]; simpl; intros N; [reflexivity|].
  rewrite IH by tauto.
  destruct (String.eqb_spec (fst e) k) as [E|_].
  - exfalso. apply N. left. exact E.
  - rewrite andb_false_r. reflexivity.
Qed.

Lemma struck_own entries :
  JsMap.wf entries ->
  forall e, In e entries -> struck entries (fst e) = hit e.
Proof.
  unfold JsMap.wf.
  induction entries as [|e0 entries IH]; intros H e Hin; [destruct Hin|].
  simpl in H. inversion H as [|? ? Hk Hm]; subst.
  cbn [SessionSpec.struck existsb]. fold (SessionSpec.struck w workdir entries (fst e)).
  destruct Hin as [->|Hin].
  - rewrite String.eqb_refl, andb_true_r.
    rewrite (struck_fresh entries (fst e) Hk). apply orb_false_r.
  - rewrite (IH Hm e Hin).
    destruct (String.eqb_spec (fst e0) (fst e)) as [E|_].
    + exfalso. apply Hk. rewrite E. apply in_map. exact Hin.
    + rewrite andb_false_r. reflexivity.
Qed.

(** On a map the loop removes exactly the entries it hits. *)
Lemma stop_loop_map entries :
  JsMap.wf entries ->
  fold_left stopStep entries entries = filter (fun e => negb (hit e)) entries.
Proof.
  intros H. rewrite fold_stopStep. apply filter_ext_in.
  intros e Hin. rewrite (struck_own entries H e Hin). reflexivity.
Qed.

End StopByWorkdir.

Lemma stopByWorkdir_run workdir w m :
  AgentSessionManager.stopByWorkdir workdir w m
  = (mkMachine
       (trace m
        ++ map SessionSpec.killed
             (filter (SessionSpec.hit w workdir)
                     (Manager.sessions (agentSessionManager m))))
       (Manager.mk
          (fold_left (SessionSpec.stopStep w workdir)
                     (Manager.sessions (agentSessionManager m))
                     (Manager.sessions (agentSessionManager m)))
          (Manager.counter (agentSessionManager m)))
       (worktreeServices m),
     Normal tt).
Proof.
  unfold AgentSessionManager.stopByWorkdir. run_m.
  unfold JsMap.entries. apply stop_loop.
Qed.

Lemma append_assoc (a b c : string) : (a ++ b) ++ c = a ++ b ++ c.
Proof. induction a as [|x a IH]; simpl; congruence. Qed.

Lemma under_iff w workdir session :
  AgentSessionManager.under w workdir session = true
  <-> AgentSessionManager.normalize w (Session.workdir session)
      = AgentSessionManager.normalize w workdir
      \/ exists rest,
        AgentSessionManager.normalize w (Session.workdir session)
        = AgentSessionManager.normalize w workdir
          ++ String Js.SLASH EmptyString ++ rest.
Proof.
  unfold AgentSessionManager.under.
  rewrite orb_true_iff, String.eqb_eq, startsWith_iff.
  split; (intros [H|[rest H]]; [left; exact H | right; exists rest]).
  - rewrite H. apply append_assoc.
  - rewrite H. symmetry. apply append_assoc.
Qed.

(** C10.  On a map, [stopByWorkdir d] never throws; it kills, in map
    order, the processes of exactly the sessions whose working directory,
    with backslashes turned into slashes and lowercased, is the likewise
    normalised [d] or begins with it followed by ['/'], and removes
    exactly their entries; the other entries stay as they are, in their
    order, and the counter and the service cache are not touched. *)
Theorem stopByWorkdir_exact (workdir : string) (w : World) (m : Machine) :
  JsMap.wf (Manager.sessions (agentSessionManager m)) ->
  let r := AgentSessionManager.stopByWorkdir workdir w m in
  let sessions := Manager.sessions (agentSessionManager m) in
  let under := fun e : string * Session.t =>
                 AgentSessionManager.under w workdir (snd e) in
  snd r = Normal tt
  /\ Manager.sessions (agentSessionManager (fst r))
     = filter (fun e => negb (under e)) sessions
  /\ trace (fst r)
     = (trace m
        ++ map (fun e => (ProcessKill (Session.process (snd e)), Returned))
             (filter under sessions))%list
  /\ Manager.counter (agentSessionManager (fst r))
     = Manager.counter (agentSessionManager m)
  /\ worktreeServices (fst r) = worktreeServices m
  /\ (forall session,
         AgentSessionManager.under w workdir session = true
         <-> AgentSessionManager.normalize w (Session.workdir session)
             = AgentSessionManager.normalize w workdir
             \/ exists rest,
               AgentSessionManager.normalize w (Session.workdir session)
               = AgentSessionManager.normalize w workdir
                 ++ String Js.SLASH EmptyString ++ rest).
Proof.
  intros H. cbv zeta. rewrite stopByWorkdir_run. cbn [fst snd].
  cbn [trace agentSessionManager worktreeServices
       Manager.sessions Manager.counter].
  rewrite (stop_loop_map w workdir _ H).
  repeat split; try reflexivity; apply under_iff.
Qed.

(* ===================================================================== *)
(** * The session map                                                     *)
(* ===================================================================== *)

Lemma to_uint_nonnil (n : N) : N.to_uint n <> Decimal.Nil.
Proof.
  destruct n as [|p]; [discriminate|].
  apply DecimalPos.Unsigned.to_uint_nonnil.
Qed.

(** Two numbers with the same rendering are equal. *)
Lemma ofNumber_inj (a b : N) : Js.ofNumber a = Js.ofNumber b -> a = b.
Proof.
  unfold Js.ofNumber. intros H.
  apply DecimalN.Unsigned.to_uint_inj.
  pose proof (NilZero.usu (N.to_uint a) (to_uint_nonnil a)) as Ha.
  pose proof (NilZero.usu (N.to_uint b) (to_uint_nonnil b)) as Hb.
  rewrite H in Ha. rewrite Ha in Hb. injection Hb as E. exact E.
Qed.

Lemma Forall_filter_keep {A : Type} (P : A -> Prop) (f : A -> bool) l :
  Forall P l -> Forall P (filter f l).
Proof.
  rewrite !Forall_forall. intros H x Hx. apply filter_In in Hx.
  apply H. tauto.
Qed.

(** [++] on the counter. *)
Lemma increment_below (n : N) :
  (n < Js.MAX_EXACT)%N -> Js.increment n = (n + 1)%N.
Proof.
  intros H. unfold Js.increment. apply N.ltb_lt in H. rewrite H. reflexivity.
Qed.

Lemma increment_stalls (n : N) :
  (Js.MAX_EXACT <= n)%N -> Js.increment n = n.
Proof.
  intros H. unfold Js.increment. apply N.ltb_ge in H. rewrite H. reflexivity.
Qed.

Lemma increment_range (n : N) :
  (n <= Js.increment n)%N
  /\ ((n <= Js.MAX_EXACT)%N -> (Js.increment n <= Js.MAX_EXACT)%N).
Proof.
  unfold Js.increment. destruct (N.ltb_spec n Js.MAX_EXACT); lia.
Qed.

Section MapSet.

Context {V : Type}.

Lemma keys_set_present (m : JsMap.t V) k v v0 :
  JsMap.get m k = Some v0 -> JsMap.keys (JsMap.set m k v) = JsMap.keys m.
Proof.
  unfold JsMap.keys. induction m as [|[k' v'] m IH]; simpl; [discriminate|].
  destruct (String.eqb k' k); simpl; [reflexivity|].
  intros H. rewrite (IH H). reflexivity.
Qed.

Lemma wf_set (m : JsMap.t V) k v : JsMap.wf m -> JsMap.wf (JsMap.set m k v).
Proof.
  intros H. destruct (JsMap.get m k) as [v0|] eqn:E.
  - unfold JsMap.wf. rewrite (keys_set_present _ _ _ _ E). exact H.
  - rewrite (set_absent _ _ _ E). apply wf_snoc; [exact H|].
    apply get_absent. exact E.
Qed.

Lemma Forall_set (P : string * V -> Prop) (m : JsMap.t V) k v :
  Forall P m -> P (k, v) -> Forall P (JsMap.set m k v).
Proof.
  intros H Hnew. induction m as [|[k' v'] m IH]; simpl.
  - constructor; [exact Hnew | constructor].
  - inversion H as [|? ? Hhead Htail]; subst.
    destruct (String.eqb_spec k' k) as [->|N]; constructor; auto.
Qed.

End MapSet.

Section Invariant.

Import SessionSpec.

Lemma invariant_init : invariant Manager.init.
Proof.
  unfold invariant, keyed, numbered, bounded, JsMap.wf. simpl.
  repeat split; try constructor. discriminate.
Qed.

Lemma invariant_filter a (f : string * Session.t -> bool) :
  invariant a ->
  invariant (Manager.mk (filter f (Manager.sessions a)) (Manager.counter a)).
Proof.
  unfold invariant, keyed, numbered, bounded.
  cbn [Manager.sessions Manager.counter].
  intros (Hwf & Hk & Hn & Hb). repeat split.
  - apply wf_filter. exact Hwf.
  - apply Forall_filter_keep. exact Hk.
  - apply Forall_filter_keep. exact Hn.
  - exact Hb.
Qed.

Lemma numbered_bump a ss :
  Forall (fun e : string * Session.t =>
            exists n : N, (1 <= n <= Manager.counter a)%N
                          /\ fst e = "agent-" ++ Js.ofNumber n) ss ->
  Forall (fun e : string * Session.t =>
            exists n : N, (1 <= n <= Js.increment (Manager.counter a))%N
                          /\ fst e = "agent-" ++ Js.ofNumber n) ss.
Proof.
  apply Forall_impl. intros e (n & Hn & E). exists n.
  pose proof (proj1 (increment_range (Manager.counter a))).
  split; [lia | exact E].
Qed.

Lemma invariant_bump a :
  invariant a ->
  invariant (Manager.mk (Manager.sessions a)
                        (Js.increment (Manager.counter a))).
Proof.
  unfold invariant, keyed, numbered, bounded.
  cbn [Manager.sessions Manager.counter].
  intros (Hwf & Hk & Hn & Hb).
  repeat split; auto using numbered_bump.
  apply increment_range. exact Hb.
Qed.

(** Below 2^53 the next id is the key of no entry. *)
Lemma next_id_fresh a :
  invariant a ->
  (Manager.counter a < Js.MAX_EXACT)%N ->
  JsMap.get (Manager.sessions a)
            ("agent-" ++ Js.ofNumber (Js.increment (Manager.counter a)))
  = None.
Proof.
  intros (_ & _ & Hn & _) Hlt. rewrite (increment_below _ Hlt).
  apply get_absent. unfold JsMap.keys.
  intros Hin. apply in_map_iff in Hin. destruct Hin as (e & E & Hin).
  unfold numbered in Hn. rewrite Forall_forall in Hn.
  destruct (Hn e Hin) as (n & Hle & Hkey).
  rewrite Hkey in E. simpl in E. injection E as E.
  apply ofNumber_inj in E. lia.
Qed.

(** The next number is at least 1. *)
Lemma increment_positive (n : N) : (1 <= Js.increment n)%N.
Proof.
  unfold Js.increment, Js.MAX_EXACT.
  destruct (N.ltb_spec n 9007199254740992); lia.
Qed.

Lemma invariant_create a proc agent workdir onMessage :
  invariant a ->
  let id := "agent-" ++ Js.ofNumber (Js.increment (Manager.counter a)) in
  invariant
    (Manager.mk
       (JsMap.set (Manager.sessions a) id
                  (Session.mk id proc agent workdir onMessage))
       (Js.increment (Manager.counter a))).
Proof.
  intros (Hwf & Hk & Hn & Hb). cbv zeta.
  unfold invariant, keyed, numbered, bounded.
  cbn [Manager.sessions Manager.counter].
  repeat split.
  - apply wf_set. exact Hwf.
  - apply Forall_set; [exact Hk | reflexivity].
  - apply Forall_set; [apply numbered_bump; exact Hn|].
    exists (Js.increment (Manager.counter a)).
    pose proof (increment_positive (Manager.counter a)).
    split; [lia | reflexivity].
  - apply increment_range. exact Hb.
Qed.

Variable w : World.

Lemma create_run agent workdir onMessage m :
  let a := agentSessionManager m in
  let counter := Js.increment (Manager.counter a) in
  let id := "agent-" ++ Js.ofNumber counter in
  let call := Spawn "npx" ["claude-code-acp"] workdir in
  AgentSessionManager.create agent workdir onMessage w m
  = match spawn w (trace m) "npx" ["claude-code-acp"] workdir with
    | inl e =>
        (mkMachine (trace m ++ [(call, Threw e)])
                   (Manager.mk (Manager.sessions a) counter)
                   (worktreeServices m),
         Throw e)
    | inr proc =>
        (mkMachine (trace m ++ [(call, ReturnedRef proc)])
                   (Manager.mk
                      (JsMap.set (Manager.sessions a) id
                         (Session.mk id proc agent workdir onMessage))
                      counter)
                   (worktreeServices m),
         Normal id)
    end.
Proof.
  cbv zeta.
  unfold AgentSessionManager.create, AgentSessionManager.updateSessions.
  run_m. cbn [trace agentSessionManager].
  destruct (spawn w (trace m) "npx" ["claude-code-acp"] workdir);
    reflexivity.
Qed.

Lemma kill_loop sessions :
  forall m,
    forOf sessions AgentSessionManager.killSession w m
    = (mkMachine
         (trace m
          ++ map (fun s => (ProcessKill (Session.process s), Returned))
               sessions)
         (agentSessionManager m) (worktreeServices m),
       Normal tt).
Proof.
  induction sessions as [|s sessions IH]; intros m.
  - destruct m. simpl. unfold retM. rewrite app_nil_r. reflexivity.
  - cbn [forOf]. unfold bindM at 1, AgentSessionManager.killSession at 1.
    run_m. rewrite IH. unfold record.
    cbn [trace agentSessionManager worktreeServices map].
    rewrite <- app_assoc. reflexivity.
Qed.

(** Every operation keeps the invariant. *)
Lemma perform_invariant op m :
  invariant (agentSessionManager m) ->
  invariant (agentSessionManager (fst (perform op w m))).
Proof.
  intros H. destruct op as [agent workdir cb|sid content|sid| |workdir|id];
    cbn [perform].
  - unfold bindM. rewrite create_run.
    destruct (spawn w (trace m) "npx" ["claude-code-acp"] workdir);
      cbn [fst agentSessionManager].
    + apply invariant_bump. exact H.
    + apply invariant_create. exact H.
  - unfold AgentSessionManager.send. run_m.
    destruct (JsMap.get _ sid); run_m; exact H.
  - unfold AgentSessionManager.stop, AgentSessionManager.updateSessions.
    run_m. destruct (JsMap.get _ sid); run_m; cbn [fst agentSessionManager].
    + apply invariant_filter. exact H.
    + exact H.
  - unfold AgentSessionManager.stopAll, AgentSessionManager.updateSessions.
    run_m. rewrite kill_loop. cbn [fst agentSessionManager].
    unfold JsMap.clear.
    apply (invariant_filter (agentSessionManager m) (fun _ => false)) in H.
    replace (filter (fun _ => false) (Manager.sessions (agentSessionManager m)))
      with (@nil (string * Session.t)) in H; [exact H|].
    induction (Manager.sessions (agentSessionManager m)); simpl; auto.
  - rewrite stopByWorkdir_run. cbn [fst agentSessionManager].
    rewrite fold_stopStep. apply invariant_filter. exact H.
  - unfold AgentSessionManager.onExit, AgentSessionManager.updateSessions.
    run_m. cbn [fst agentSessionManager].
    apply invariant_filter. exact H.
Qed.

(** [stopAll], in closed form. *)
Lemma stopAll_run m :
  AgentSessionManager.stopAll w m
  = (mkMachine
       (trace m
        ++ map (fun s => (ProcessKill (Session.process s), Returned))
             (JsMap.values (Manager.sessions (agentSessionManager m))))
       (Manager.mk [] (Manager.counter (agentSessionManager m)))
       (worktreeServices m),
     Normal tt).
Proof.
  unfold AgentSessionManager.stopAll, AgentSessionManager.updateSessions.
  run_m. rewrite kill_loop. reflexivity.
Qed.

(** The counter takes every value up to 2^53. *)
Lemma reachable_counter (k : N) :
  (k <= Js.MAX_EXACT)%N ->
  reachable w (mkMachine [] (Manager.mk JsMap.empty k) JsMap.empty).
Proof.
  induction k as [|k IH] using N.peano_ind; intros Hk.
  - apply reach_start.
  - assert (k < Js.MAX_EXACT)%N as Hlt by lia.
    pose proof (reach_op w _ StopAll
                  (reach_op w _ (Create 0 EmptyString 0)
                     (IH ltac:(lia)))) as R.
    apply (reach_other w _ [] JsMap.empty) in R.
    cbn [perform] in R. rewrite stopAll_run in R.
    cbn [fst agentSessionManager Manager.counter] in R.
    unfold bindM in R. rewrite create_run in R.
    destruct (spawn w _ _ _ _) in R;
      cbn [fst agentSessionManager Manager.counter] in R;
      rewrite (increment_below _ Hlt), N.add_1_r in R; exact R.
Qed.

Lemma reachable_invariant m :
  reachable w m -> invariant (agentSessionManager m).
Proof.
  induction 1 as [tr services|m op R IH|m tr services R IH].
  - exact invariant_init.
  - apply perform_invariant. exact IH.
  - exact IH.
Qed.

End Invariant.

(** C6, as amended.  In every machine that the main process can reach,
    the session map has one entry per key and every key is the id of its
    session, and this still holds after [create], [send], [stop],
    [stopAll], [stopByWorkdir] and the exit callback.  [create] increments
    the counter and takes the id ['agent-<n>'] from the new value.  When
    [spawn] returns, [create] returns that id and sets the entry of the id
    to the new session; when [spawn] throws, [create] throws the same
    error and the map is left alone.  As long as the counter is below
    2^53 it becomes greater, the id is the key of no entry, and the new
    entry is added after the others, which stay as they are. *)
Theorem sessions_keep_invariant (w : World) (m : Machine) :
  SessionSpec.reachable w m ->
  SessionSpec.invariant (agentSessionManager m)
  /\ (forall op,
         SessionSpec.invariant
           (agentSessionManager (fst (SessionSpec.perform op w m))))
  /\ (forall agent workdir onMessage,
         let a := agentSessionManager m in
         let r := AgentSessionManager.create agent workdir onMessage w m in
         let after := agentSessionManager (fst r) in
         let id :=
           "agent-" ++ Js.ofNumber (Js.increment (Manager.counter a)) in
         Manager.counter after = Js.increment (Manager.counter a)
         /\ ((Manager.counter a < Js.MAX_EXACT)%N ->
             (Manager.counter a < Manager.counter after)%N
             /\ JsMap.get (Manager.sessions a) id = None)
         /\ match spawn w (trace m) "npx" ["claude-code-acp"] workdir with
            | inr proc =>
                let session := Session.mk id proc agent workdir onMessage in
                snd r = Normal id
                /\ Manager.sessions after
                   = JsMap.set (Manager.sessions a) id session
                /\ ((Manager.counter a < Js.MAX_EXACT)%N ->
                    Manager.sessions after
                    = (Manager.sessions a ++ [(id, session)])%list)
            | inl e =>
                snd r = Throw e
                /\ Manager.sessions after = Manager.sessions a
            end).
Proof.
  intros R. pose proof (reachable_invariant w m R) as H.
  split; [exact H|]. split; [intros op; apply perform_invariant; exact H|].
  intros agent workdir onMessage. cbv zeta.
  pose proof (next_id_fresh _ H) as F.
  rewrite create_run.
  destruct (spawn w (trace m) "npx" ["claude-code-acp"] workdir) as [e|proc];
    cbn [fst snd agentSessionManager Manager.counter Manager.sessions].
  - split; [reflexivity|]. split; [|split; reflexivity].
    intros Hlt. split; [|exact (F Hlt)].
    rewrite (increment_below _ Hlt). lia.
  - split; [reflexivity|]. split; [|split; [reflexivity|split]].
    + intros Hlt. split; [|exact (F Hlt)].
      rewrite (increment_below _ Hlt). lia.
    + reflexivity.
    + intros Hlt. apply set_absent. exact (F Hlt).
Qed.

(* ===================================================================== *)
(** * NDJSON framing                                                      *)
(* ===================================================================== *)

Lemma split_nonempty s sep : Js.split s sep <> [].
Proof.
  destruct s as [|c s]; simpl; [discriminate|].
  destruct (Ascii.eqb c sep); [discriminate|].
  destruct (Js.split s sep); discriminate.
Qed.

(** Splitting a concatenation: the complete lines of the first part, then
    the split of its last piece followed by the second part. *)
Lemma split_app s t sep :
  Js.split (s ++ t) sep
  = (removelast (Js.split s sep)
     ++ Js.split (last (Js.split s sep) EmptyString ++ t) sep)%list.
Proof.
  induction s as [|c s IH].
  - reflexivity.
  - cbn [append Js.split]. rewrite IH.
    pose proof (split_nonempty s sep) as NE.
    destruct (Js.split s sep) as [|l ls]; [contradiction NE; reflexivity|].
    destruct (Ascii.eqb c sep) eqn:E.
    + reflexivity.
    + destruct ls as [|l2 ls2].
      * cbn [removelast last app append Js.split]. rewrite E. reflexivity.
      * reflexivity.
Qed.

(** The last piece of a split holds no separator. *)
Lemma split_last_free s sep :
  Js.split (last (Js.split s sep) EmptyString) sep
  = [last (Js.split s sep) EmptyString].
Proof.
  induction s as [|c s IH].
  - reflexivity.
  - cbn [Js.split]. pose proof (split_nonempty s sep) as NE.
    destruct (Js.split s sep) as [|l ls]; [contradiction NE; reflexivity|].
    destruct (Ascii.eqb c sep) eqn:E.
    + exact IH.
    + destruct ls as [|l2 ls2].
      * cbn [last] in *. cbn [Js.split]. rewrite E, IH. reflexivity.
      * exact IH.
Qed.

Lemma last_app_nonempty {A : Type} (l l' : list A) d :
  l' <> [] -> last (l ++ l') d = last l' d.
Proof.
  intros NE. induction l as [|a l IH]; [reflexivity|].
  cbn [app last]. destruct (l ++ l')%list eqn:E.
  - apply app_eq_nil in E. tauto.
  - exact IH.
Qed.

Lemma trimStart_blank s : SessionSpec.blank s = true -> Js.trimStart s = EmptyString.
Proof.
  induction s as [|c s IH]; simpl; [reflexivity|].
  destruct (Js.isWhiteSpace c); simpl; [exact IH | discriminate].
Qed.

Lemma trimStart_nonblank s :
  SessionSpec.blank s = false ->
  exists c r, Js.trimStart s = String c r /\ Js.isWhiteSpace c = false.
Proof.
  induction s as [|c s IH]; simpl; [discriminate|].
  destruct (Js.isWhiteSpace c) eqn:E; simpl.
  - exact IH.
  - intros _. exists c, s. split; [reflexivity | exact E].
Qed.

(** [line.trim()] is truthy exactly on the lines that are not blank. *)
Lemma truthy_trim s : Js.truthy (Js.trim s) = negb (SessionSpec.blank s).
Proof.
  unfold Js.trim. destruct (SessionSpec.blank s) eqn:B.
  - rewrite (trimStart_blank s B). reflexivity.
  - destruct (trimStart_nonblank s B) as (c & r & -> & W).
    cbn [Js.trimEnd]. destruct (Js.trimEnd r); [rewrite W|]; reflexivity.
Qed.

Section Framing.

Import SessionSpec.

Variable w : World.
Variable session : Session.t.

Local Abbreviation delivered := (SessionSpec.delivered w session).

Lemma delivered_app l l' :
  delivered (l ++ l') = (delivered l ++ delivered l')%list.
Proof. unfold SessionSpec.delivered, parsed. rewrite flat_map_app, map_app. reflexivity. Qed.

Lemma deliveries_app evs evs' :
  deliveries (evs ++ evs') = (deliveries evs ++ deliveries evs')%list.
Proof. unfold deliveries. apply flat_map_app. Qed.

Local Abbreviation adds := (SessionSpec.adds w).

Lemma handleLine_run line m :
  exists evs,
    adds (AgentSessionManager.handleLine session line) m evs tt
    /\ deliveries evs = delivered [line].
Proof.
  unfold SessionSpec.adds, AgentSessionManager.handleLine, SessionSpec.delivered, parsed.
  rewrite truthy_trim. cbn [flat_map]. rewrite app_nil_r.
  destruct (blank line); cbn [negb].
  - exists []. rewrite app_nil_r. destruct m. split; reflexivity.
  - unfold AgentSessionManager.handleMessage. run_m.
    destruct (JSON_parse w line) as [e|raw]; run_m.
    + exists []. rewrite app_nil_r. destruct m. split; reflexivity.
    + match goal with
      | |- context [match ?x with inl _ => _ | inr _ => _ end] =>
          destruct x as [e|[]]
      end; run_m; unfold record;
        cbn [trace agentSessionManager worktreeServices];
        rewrite <- !app_assoc; cbn [app];
        eexists; (split; [reflexivity|]); reflexivity.
Qed.

Lemma handleLines_run lines :
  forall m,
  exists evs,
    adds (forOf lines (AgentSessionManager.handleLine session)) m evs tt
    /\ deliveries evs = delivered lines.
Proof.
  induction lines as [|line lines IH]; intros m.
  - exists []. unfold SessionSpec.adds. cbn [forOf]. unfold retM.
    rewrite app_nil_r. destruct m. split; reflexivity.
  - destruct (handleLine_run line m) as (evs1 & R1 & D1).
    destruct (IH (mkMachine (trace m ++ evs1) (agentSessionManager m)
                            (worktreeServices m))) as (evs2 & R2 & D2).
    exists (evs1 ++ evs2)%list. split.
    + unfold SessionSpec.adds in *. cbn [forOf]. unfold bindM. rewrite R1, R2.
      cbn [trace agentSessionManager worktreeServices].
      rewrite app_assoc. reflexivity.
    + rewrite deliveries_app, D1, D2.
      change (line :: lines) with ([line] ++ lines)%list.
      rewrite delivered_app. reflexivity.
Qed.

Lemma onStdoutData_run buffer chunk m :
  let lines := Js.split (buffer ++ chunk) Js.LF in
  exists evs,
    adds (AgentSessionManager.onStdoutData session buffer chunk) m evs
         (last lines EmptyString)
    /\ deliveries evs = delivered (removelast lines).
Proof.
  cbv zeta.
  destruct (handleLines_run
              (removelast (Js.split (buffer ++ chunk) Js.LF)) m)
    as (evs & R & D).
  exists evs. split; [|exact D].
  unfold SessionSpec.adds in *. unfold AgentSessionManager.onStdoutData.
  run_m. rewrite R. reflexivity.
Qed.

Lemma feed_run chunks :
  forall buffer m,
    Js.split buffer Js.LF = [buffer] ->
    let lines := Js.split (buffer ++ joined chunks) Js.LF in
    exists evs,
      adds (AgentSessionManager.feed session buffer chunks) m evs
           (last lines EmptyString)
      /\ deliveries evs = delivered (removelast lines).
Proof.
  induction chunks as [|chunk chunks IH]; intros buffer m Hfree; cbv zeta.
  - exists []. cbn [joined fold_right AgentSessionManager.feed].
    replace (buffer ++ EmptyString) with buffer
      by (clear; induction buffer; simpl; congruence).
    rewrite Hfree. unfold SessionSpec.adds. run_m. rewrite app_nil_r. destruct m.
    split; reflexivity.
  - destruct (onStdoutData_run buffer chunk m) as (evs1 & R1 & D1).
    set (rest := last (Js.split (buffer ++ chunk) Js.LF) EmptyString) in *.
    destruct (IH rest
                 (mkMachine (trace m ++ evs1) (agentSessionManager m)
                            (worktreeServices m))
                 (split_last_free (buffer ++ chunk) Js.LF))
      as (evs2 & R2 & D2).
    exists (evs1 ++ evs2)%list.
    cbn [joined fold_right]. fold (joined chunks).
    rewrite <- append_assoc, split_app. fold rest.
    pose proof (split_nonempty (rest ++ joined chunks) Js.LF) as NE.
    rewrite (last_app_nonempty _ _ _ NE), (removelast_app _ NE).
    split.
    + unfold SessionSpec.adds in *. cbn [AgentSessionManager.feed].
      run_m. rewrite R1. 
      change (AgentSessionManager.feed session rest chunks w
                (mkMachine (trace m ++ evs1) (agentSessionManager m)
                           (worktreeServices m))
              = (mkMachine (trace m ++ evs1 ++ evs2) (agentSessionManager m)
                   (worktreeServices m),
                 Normal (last (Js.split (rest ++ joined chunks) Js.LF)
                              EmptyString))).
      rewrite R2. cbn [trace agentSessionManager worktreeServices].
      rewrite app_assoc. reflexivity.
    + rewrite deliveries_app, delivered_app, D1, D2. reflexivity.
Qed.

End Framing.

(** C7.  Fed the chunks of [stdout] one after the other, starting from the
    empty buffer, the listener handles the newline-terminated lines of the
    whole stream, each once and in order, wherever the chunks are cut: the
    calls of [onMessage] are those of the session's callback, one per line
    that is not blank and parses as JSON, with the re-serialised value as
    content; the other lines leave no call.  The text after the last
    newline is what the buffer holds at the end, and each call of the
    listener parses its buffer followed by the chunk.  The session map and
    the service cache are not touched. *)
Theorem ndjson_framing (session : Session.t) (chunks : list string)
  (w : World) (m : Machine) :
  let r := AgentSessionManager.feed session EmptyString chunks w m in
  let lines := Js.split (SessionSpec.joined chunks) Js.LF in
  snd r = Normal (last lines EmptyString)
  /\ SessionSpec.deliveries
       (eventsOf (AgentSessionManager.feed session EmptyString chunks) w m)
     = map (fun raw => (Session.onMessage session, "assistant",
                        JSON_stringify w raw))
           (SessionSpec.parsed w (removelast lines))
  /\ agentSessionManager (fst r) = agentSessionManager m
  /\ worktreeServices (fst r) = worktreeServices m
  /\ (forall buffer chunk m',
         snd (AgentSessionManager.onStdoutData session buffer chunk w m')
         = Normal (last (Js.split (buffer ++ chunk) Js.LF) EmptyString)).
Proof.
  cbv zeta.
  destruct (feed_run w session chunks EmptyString m eq_refl)
    as (evs & R & D).
  cbn [append] in R, D. unfold SessionSpec.adds in R. unfold eventsOf. rewrite R.
  cbn [fst snd trace agentSessionManager worktreeServices].
  rewrite skipn_length_app. repeat split; try reflexivity.
  - exact D.
  - intros buffer chunk m'.
    destruct (onStdoutData_run w session buffer chunk m') as (evs' & R' & _).
    unfold SessionSpec.adds in R'. rewrite R'. reflexivity.
Qed.

(* ===================================================================== *)
(** * The WORKTREE_REMOVE handler                                         *)
(* ===================================================================== *)

Lemma map_filter_snd {A B C : Type} (f : B -> C) (g : B -> bool)
  (l : list (A * B)) :
  map (fun e => f (snd e)) (filter (fun e => g (snd e)) l)
  = map f (filter g (map snd l)).
Proof.
  induction l as [|[a b] l IH]; simpl; [reflexivity|].
  destruct (g b); simpl; rewrite IH; reflexivity.
Qed.

Lemma teardown_harmless p victims :
  Forall (fun c => SessionSpec.destructive c = false)
         (SessionSpec.teardownCalls p victims).
Proof.
  unfold SessionSpec.teardownCalls. repeat constructor.
  apply Forall_app. split.
  - apply Forall_forall. intros c Hc. apply in_map_iff in Hc.
    destruct Hc as (s & <- & _). reflexivity.
  - repeat constructor.
Qed.

Section Handler.

Import SessionSpec.

Variable w : World.

(** [getWorktreeService], in closed form: a cached service is returned as
    it is; otherwise the constructor is called, and its service cached
    unless it throws. *)
Lemma getWorktreeService_cases workdir m :
  Handlers.getWorktreeService workdir w m
  = match JsMap.get (worktreeServices m) workdir with
    | Some service => (m, Normal service)
    | None =>
        match simpleGit w (trace m) workdir with
        | inl e => (record m (SimpleGit workdir, Threw e), Throw e)
        | inr _ =>
            (mkMachine (trace m ++ [(SimpleGit workdir, Returned)])
                       (agentSessionManager m)
                       (JsMap.set (worktreeServices m) workdir
                                  (Service.mk workdir)),
             Normal (Service.mk workdir))
        end
    end.
Proof.
  unfold Handlers.getWorktreeService, WorktreeService.new, JsMap.has. run_m.
  destruct (JsMap.get (worktreeServices m) workdir) as [service|] eqn:E;
    cbn [negb]; run_m; cbn [worktreeServices].
  - rewrite E. reflexivity.
  - destruct (simpleGit w (trace m) workdir) as [e|[]]; [reflexivity|].
    unfold record. cbn [worktreeServices]. rewrite get_set. reflexivity.
Qed.

(** The teardown, in closed form. *)
Lemma teardown_cases options m :
  let p := RemoveOptions.path options in
  let sessions := Manager.sessions (agentSessionManager m) in
  let m1 := record m (StopWatchersInDirectory p, Returned) in
  Handlers.teardown options w m
  = match stopWatchersInDirectory w (trace m) p with
    | inl e => (record m (StopWatchersInDirectory p, Threw e), Throw e)
    | inr _ =>
        match ptyDestroyByWorkdir w (trace m1) p with
        | inl e => (record m1 (PtyDestroyByWorkdir p, Threw e), Throw e)
        | inr _ =>
            (mkMachine
               (trace m
                ++ map SessionSpec.completed
                     (SessionSpec.teardownCalls
                        p (SessionSpec.victims w options m)))
               (Manager.mk
                  (fold_left (SessionSpec.stopStep w p) sessions sessions)
                  (Manager.counter (agentSessionManager m)))
               (worktreeServices m),
             Normal tt)
        end
    end.
Proof.
  cbv zeta. unfold Handlers.teardown, SessionSpec.teardownCalls. run_m.
  destruct (stopWatchersInDirectory w (trace m) (RemoveOptions.path options))
    as [e|[]]; [reflexivity|].
  run_m.
  destruct (ptyDestroyByWorkdir w _ (RemoveOptions.path options))
    as [e|[]]; [reflexivity|].
  run_m. rewrite stopByWorkdir_run. run_m. unfold record.
  cbn [trace agentSessionManager worktreeServices
       Manager.sessions Manager.counter].
  rewrite <- !app_assoc. cbn [app map]. rewrite map_app. cbn [map].
  unfold SessionSpec.victims, JsMap.values, SessionSpec.killed,
    SessionSpec.hit, SessionSpec.completed.
  rewrite <- map_filter_snd, !map_map. reflexivity.
Qed.

End Handler.

(** C4.  In every run of the [WORKTREE_REMOVE] handler the calls of the
    teardown come first: stopping the watchers under the path, destroying
    the pseudo-terminals under it, killing the process of every agent
    session under it, and the 1000 ms delay; none of them is a call of the
    removal.  A run is one of four.  Stopping the watchers throws, or
    destroying the pseudo-terminals throws: the handler throws that error
    and the failed call is its last.  Or all the calls of the teardown
    return and the constructor of the service, called when none is cached
    for the directory, throws: the handler throws that error, again
    without any call of the removal.  Or all the calls of the teardown
    return, the service is there, and only then [WorktreeService.remove]
    runs, from the machine left so far, and decides the result. *)
Theorem removal_follows_teardown (workdir : string)
  (options : RemoveOptions.t) (w : World) (m : Machine) :
  let r := Handlers.worktreeRemove workdir options w m in
  let evs := eventsOf (Handlers.worktreeRemove workdir options) w m in
  let p := RemoveOptions.path options in
  let calls := SessionSpec.teardownCalls p (SessionSpec.victims w options m) in
  let done := map SessionSpec.completed calls in
  let cached := JsMap.has (worktreeServices m) workdir in
  Forall (fun c => SessionSpec.destructive c = false) calls
  /\ ((exists e,
          evs = [(StopWatchersInDirectory p, Threw e)]
          /\ snd r = Throw e)
      \/ (exists e,
             evs = [ (StopWatchersInDirectory p, Returned);
                     (PtyDestroyByWorkdir p, Threw e) ]
             /\ snd r = Throw e)
      \/ (exists e,
             cached = false
             /\ evs = (done ++ [(SimpleGit workdir, Threw e)])%list
             /\ snd r = Throw e)
      \/ (exists service m1,
             let opening :=
               if cached then [] else [(SimpleGit workdir, Returned)] in
             trace m1 = (trace m ++ done ++ opening)%list
             /\ evs = (done ++ opening
                       ++ eventsOf (WorktreeService.remove service options)
                            w m1)%list
             /\ snd r = snd (WorktreeService.remove service options w m1))).
Proof.
  cbv zeta. split; [apply teardown_harmless|].
  unfold eventsOf at 1 2 3 4, Handlers.worktreeRemove, JsMap.has. run_m.
  rewrite teardown_cases. cbv zeta.
  destruct (stopWatchersInDirectory w (trace m) _) as [e|[]].
  { left. exists e. cbn [fst snd trace record].
    rewrite skipn_length_app. split; reflexivity. }
  destruct (ptyDestroyByWorkdir w _ _) as [e|[]].
  { right. left. exists e. cbn [fst snd trace record].
    rewrite <- app_assoc, skipn_length_app. split; reflexivity. }
  right. right. rewrite getWorktreeService_cases.
  cbn [worktreeServices trace].
  destruct (JsMap.get (worktreeServices m) workdir) as [service|].
  - right.
    match goal with
    | |- context [WorktreeService.remove service options w ?m0] =>
        exists service, m0;
        destruct (remove_events w service options m0) as (r & E & _)
    end.
    cbv zeta. cbn [trace] in *. rewrite app_nil_r.
    split; [reflexivity|]. split; [|reflexivity].
    rewrite E. cbn [fst trace].
    rewrite <- app_assoc, skipn_length_app. reflexivity.
  - destruct (simpleGit w _ workdir) as [e|[]].
    + left. exists e. cbn [fst snd trace record].
      rewrite <- app_assoc, skipn_length_app. repeat split.
    + right.
      match goal with
      | |- context [WorktreeService.remove ?s options w ?m0] =>
          exists s, m0;
          destruct (remove_events w s options m0) as (r & E & _)
      end.
      cbv zeta. cbn [trace] in *.
      split; [rewrite <- app_assoc; reflexivity|]. split; [|reflexivity].
      rewrite E. cbn [fst trace].
      rewrite <- !app_assoc, skipn_length_app. reflexivity.
Qed.

(* ===================================================================== *)
(** * Runs on concrete machines                                           *)
(* ===================================================================== *)

(** C10 on two sessions in sibling directories: stopping [c:/repo/wt]
    stops the session under [C:\Repo\WT] and leaves the one under
    [C:\Repo\WTX]. *)
Lemma stopByWorkdir_exact_witness :
  JsMap.wf (Manager.sessions (agentSessionManager twoSessions))
  /\ JsMap.keys
       (Manager.sessions
          (agentSessionManager
             (fst (AgentSessionManager.stopByWorkdir "c:/repo/wt"
                     (scriptedWorld "win32" isRemove
                        (ErrorObject EmptyString) true)
                     twoSessions))))
     = ["agent-2"].
Proof.
  assert (JsMap.wf (Manager.sessions (agentSessionManager twoSessions)))
    as H.
  { unfold JsMap.wf. simpl. constructor.
    - simpl. intros [E|[]]. discriminate E.
    - constructor; [intros [] | constructor]. }
  split; [exact H|].
  destruct (stopByWorkdir_exact "c:/repo/wt"
              (scriptedWorld "win32" isRemove (ErrorObject EmptyString) true)
              twoSessions H) as (_ & E & _).
  rewrite E. reflexivity.
Defined.

(** C6 after a first [create]: the machine is reachable, the invariant
    holds, and the counter, which is 1, is raised by the next [create]. *)
Lemma sessions_keep_invariant_witness :
  let w := scriptedWorld "linux" isRemove (ErrorObject EmptyString) true in
  let m := fst (SessionSpec.perform (SessionSpec.Create 7 "/repo/wt" 9)
                                    w startup) in
  SessionSpec.reachable w m
  /\ SessionSpec.invariant (agentSessionManager m)
  /\ Manager.counter
       (agentSessionManager
          (fst (AgentSessionManager.create 7 "/repo/wt2" 9 w m)))
     = Js.increment (Manager.counter (agentSessionManager m)).
Proof.
  cbv zeta.
  assert (SessionSpec.reachable
            (scriptedWorld "linux" isRemove (ErrorObject EmptyString) true)
            (fst (SessionSpec.perform (SessionSpec.Create 7 "/repo/wt" 9)
                    (scriptedWorld "linux" isRemove
                                   (ErrorObject EmptyString) true)
                    startup))) as R.
  { apply SessionSpec.reach_op. apply SessionSpec.reach_start. }
  split; [exact R|].
  destruct (sessions_keep_invariant _ _ R) as (I & _ & C).
  split; [exact I|].
  exact (proj1 (C 7 "/repo/wt2" 9)).
Defined.

(** C6, as first stated, fails in two ways.  [create] does not always
    install an entry: when [spawn] throws, [create] throws and the map is
    as before.  And the counter is not strictly increasing for ever: the
    machine [stalled], whose counter is 2^53, is reachable, and there
    [create] leaves the counter as it is, returns the id that is already
    the key of an entry, and overwrites that entry. *)
Lemma create_fresh_id_counterexample :
  let w := scriptedWorld "linux" isRemove (ErrorObject EmptyString) true in
  let boom := ErrorObject "spawn EPERM" in
  let failed :=
    AgentSessionManager.create 7 "/a" 9 (broken w boom (fun _ => false))
                               startup in
  let r := AgentSessionManager.create 7 "/b" 9 w stalled in
  let id := "agent-9007199254740992" in
  (snd failed = Throw boom
   /\ Manager.sessions (agentSessionManager (fst failed)) = [])
  /\ SessionSpec.reachable w stalled
  /\ JsMap.get (Manager.sessions (agentSessionManager stalled)) id
     = Some (Session.mk id 0 7 "/a" 9)
  /\ snd r = Normal id
  /\ Manager.sessions (agentSessionManager (fst r))
     = [(id, Session.mk id 0 7 "/b" 9)]
  /\ Manager.counter (agentSessionManager (fst r))
     = Manager.counter (agentSessionManager stalled).
Proof.
  cbv zeta. split; [split; reflexivity|].
  split; [|repeat split; reflexivity].
  pose proof (SessionSpec.reach_op
                (scriptedWorld "linux" isRemove (ErrorObject EmptyString) true)
                _ (SessionSpec.Create 7 "/a" 9)
                (reachable_counter
                   (scriptedWorld "linux" isRemove
                                  (ErrorObject EmptyString) true)
                   9007199254740991 ltac:(discriminate))) as R.
  apply (SessionSpec.reach_other _ _ [] JsMap.empty) in R.
  exact R.
Qed.

Example create_twice :
  let w := scriptedWorld "linux" isRemove (ErrorObject EmptyString) true in
  JsMap.keys
    (Manager.sessions
       (agentSessionManager
          (fst (bindM (AgentSessionManager.create 7 "/a" 9)
                      (fun _ => AgentSessionManager.create 7 "/b" 9)
                      w startup))))
  = ["agent-1"; "agent-2"].
Proof. reflexivity. Qed.

(** A JSON line cut in two chunks is delivered once; a line that does not
    parse and a blank line are dropped; the unfinished line stays in the
    buffer. *)
Example framing_across_chunks :
  let w := scriptedWorld "linux" isRemove (ErrorObject EmptyString) true in
  let session := Session.mk "agent-1" 101 7 "/repo" 9 in
  let chunks := [ "{"; "}" ++ String Js.LF ("oops" ++ String Js.LF "  ");
                  String Js.LF "{}" ] in
  snd (AgentSessionManager.feed session EmptyString chunks w startup)
  = Normal "{}"
  /\ SessionSpec.deliveries
       (eventsOf (AgentSessionManager.feed session EmptyString chunks)
                 w startup)
     = [(9, "assistant", "{}")].
Proof. split; reflexivity. Qed.

(** On Windows the recovery runs the PowerShell pass and [rmdir]. *)
Example remove_recovery_on_windows :
  let w := scriptedWorld "win32" isRemove
             (ErrorObject "error: Permission denied") true in
  let options := RemoveOptions.mk "C:\repo\wt" true true (Some "feature") in
  map fst (eventsOf (WorktreeService.remove (Service.mk "C:\repo") options)
                    w startup)
  = [ GitRaw "C:\repo" ["worktree"; "prune"];
      GitRaw "C:\repo" ["worktree"; "remove"; "--force"; "C:\repo\wt"];
      ExistsSync "C:\repo\wt";
      ExecAsync (WorktreeService.killCommand "C:\repo\wt");
      SetTimeout 500;
      ExecAsync (WorktreeService.rmdirCommand "C:\repo\wt");
      GitRaw "C:\repo" ["worktree"; "prune"];
      GitRaw "C:\repo" ["branch"; "-D"; "feature"] ].
Proof. reflexivity. Qed.

(** The handler stops the session under the worktree before it removes
    anything. *)
Example handler_on_two_sessions :
  let w := scriptedWorld "linux" (fun _ => false)
                         (ErrorObject EmptyString) true in
  let options := RemoveOptions.mk "c:/repo/wt" false false None in
  map fst (eventsOf (Handlers.worktreeRemove "c:/repo" options)
                    w twoSessions)
  = [ StopWatchersInDirectory "c:/repo/wt";
      PtyDestroyByWorkdir "c:/repo/wt";
      ProcessKill 101;
      SetTimeout 1000;
      SimpleGit "c:/repo";
      GitRaw "c:/repo" ["worktree"; "prune"];
      GitRaw "c:/repo" ["worktree"; "remove"; "c:/repo/wt"] ].
Proof. reflexivity. Qed.

(* ===================================================================== *)
(** * More about the porcelain parser                                     *)
(* ===================================================================== *)

Lemma split_free_app l0 b sep :
  Js.split l0 sep = [l0] ->
  Js.split (l0 ++ String sep b) sep = l0 :: Js.split b sep.
Proof.
  induction l0 as [|c l IH]; intros H.
  - cbn [append Js.split]. rewrite Ascii.eqb_refl. reflexivity.
  - cbn [append Js.split] in *. pose proof (split_nonempty l sep) as NE.
    destruct (Ascii.eqb c sep).
    + destruct (Js.split l sep); [contradiction NE; reflexivity|].
      discriminate H.
    + destruct (Js.split l sep) as [|x xs] eqn:E;
        [contradiction NE; reflexivity|].
      injection H as Hx Hxs. subst x xs. rewrite (IH eq_refl). reflexivity.
Qed.

(** Splitting at a separator: the pieces of both sides. *)
Lemma split_sep a b sep :
  Js.split (a ++ String sep b) sep
  = (Js.split a sep ++ Js.split b sep)%list.
Proof.
  rewrite split_app.
  rewrite (split_free_app _ b sep (split_last_free a sep)).
  rewrite (app_removelast_last EmptyString (split_nonempty a sep)) at 3.
  rewrite <- app_assoc. reflexivity.
Qed.

Lemma inert_step st line :
  Notions.inert line = true -> Porcelain.parseLine st line = st.
Proof.
  unfold Notions.inert, Porcelain.parseLine. destruct st as [ws cur].
  intros H. apply negb_true_iff in H.
  repeat (apply orb_false_iff in H; destruct H as [H ?]).
  repeat match goal with
         | E : _ = false |- _ => rewrite E; clear E
         end.
  reflexivity.
Qed.

Lemma loop_skips_inert lines :
  forall st,
    fold_left Porcelain.parseLine lines st
    = fold_left Porcelain.parseLine
        (filter (fun l => negb (Notions.inert l)) lines) st.
Proof.
  induction lines as [|l lines IH]; intros st; [reflexivity|].
  cbn [filter fold_left]. destruct (Notions.inert l) eqn:E; cbn [negb].
  - rewrite (inert_step st l E). apply IH.
  - cbn [fold_left]. apply IH.
Qed.

(** X1.  The result of [list] depends only on the lines that one of the
    six tests recognises: every other line (an empty line, ['detached'],
    ['locked'] or ['prunable'] followed by a reason) is skipped wherever it
    stands; in particular a final newline changes nothing. *)
Theorem list_skips_other_lines (result : string) :
  Porcelain.parse result
  = Notions.parseLines
      (filter (fun l => negb (Notions.inert l)) (Js.split result Js.LF))
  /\ Porcelain.parse (result ++ String Js.LF EmptyString)
     = Porcelain.parse result
  /\ Notions.inert EmptyString = true
  /\ Notions.inert "detached" = true
  /\ (forall reason, Notions.inert ("locked " ++ reason) = true)
  /\ (forall reason, Notions.inert ("prunable " ++ reason) = true).
Proof.
  assert (forall r,
             Porcelain.parse r
             = Notions.parseLines
                 (filter (fun l => negb (Notions.inert l))
                         (Js.split r Js.LF))) as H.
  { intros r. unfold Porcelain.parse, Notions.parseLines.
    rewrite loop_skips_inert. reflexivity. }
  split; [apply H|]. split; [|repeat split; reflexivity].
  rewrite (H (result ++ String Js.LF EmptyString)), (H result).
  rewrite split_sep, filter_app. cbn [Js.split filter Notions.inert].
  rewrite app_nil_r. reflexivity.
Qed.

Lemma markFirst_Forall (P : GitWorktree -> Prop) ws :
  (forall wt, P wt -> P (set_isMainWorktree wt true)) ->
  Forall P ws -> Forall P (Porcelain.markFirst ws).
Proof.
  intros Hset H. destruct H as [|wt ws Hwt Hws]; simpl; constructor; auto.
Qed.

(** X2.  Every record that [list] returns has the properties that the
    type [GitWorktree] requires: a path, which is not empty, and the three
    flags. *)
Theorem list_records_complete (result : string) :
  Forall Notions.complete (Porcelain.parse result).
Proof.
  rewrite parse_expected. unfold PorcelainSpec.expected.
  apply markFirst_Forall.
  - intros wt (Hp & H1 & H2 & H3). repeat split; try assumption.
    discriminate.
  - apply Forall_forall. intros wt Hin. apply in_map_iff in Hin.
    destruct Hin as ([p b] & <- & Hin).
    unfold PorcelainSpec.named in Hin. apply filter_In in Hin.
    destruct Hin as [_ Hp]. cbn [fst] in Hp.
    repeat split; try discriminate.
    exists p. split; [reflexivity|]. intros ->. discriminate Hp.
Qed.

Lemma body_incl lines l : In l (PorcelainSpec.body lines) -> In l lines.
Proof.
  induction lines as [|x lines IH]; simpl; [tauto|].
  destruct (PorcelainSpec.opens x); simpl; tauto.
Qed.

Lemma stanzas_incl lines p b l :
  In (p, b) (PorcelainSpec.stanzas lines) -> In l b -> In l lines.
Proof.
  induction lines as [|x lines IH]; simpl; [tauto|].
  destruct (PorcelainSpec.opens x); simpl.
  - intros [E|H] Hl.
    + injection E as _ <-. right. apply body_incl. exact Hl.
    + right. apply IH; assumption.
  - intros H Hl. right. apply IH; assumption.
Qed.

Lemma lastRemainder_in prefix b r :
  PorcelainSpec.lastRemainder prefix b = Some r ->
  exists l, In l b /\ Js.startsWith l prefix = true
            /\ r = Js.substring l (String.length prefix).
Proof.
  unfold PorcelainSpec.lastRemainder.
  destruct (rev (filter (fun l => Js.startsWith l prefix) b))
    as [|l ls] eqn:E; [discriminate|].
  intros H. injection H as <-. exists l.
  assert (In l (rev (filter (fun l => Js.startsWith l prefix) b))) as Hin
      by (rewrite E; left; reflexivity).
  apply in_rev in Hin. apply filter_In in Hin. tauto.
Qed.

(** X3.  On output in which every ['branch '] line names a ref under
    ['refs/heads/'], as [git] prints them, [list] does remove exactly that
    prefix: its records are those of the stanzas with the prefix stripped,
    the first one marked as the main worktree. *)
Theorem list_strips_heads_prefix (result : string) :
  Notions.branchesUnderHeads result ->
  Porcelain.parse result
  = Porcelain.markFirst (PorcelainSpec.claimed result).
Proof.
  intros H. rewrite parse_expected.
  unfold PorcelainSpec.expected, PorcelainSpec.claimed. f_equal.
  apply map_ext_in. intros [p b] Hin.
  unfold PorcelainSpec.named in Hin. apply filter_In in Hin.
  destruct Hin as [Hin _]. unfold PorcelainSpec.recordWith. f_equal.
  destruct (PorcelainSpec.lastRemainder "branch " b) as [r|] eqn:E;
    [|reflexivity].
  cbn [option_map]. f_equal.
  destruct (lastRemainder_in _ _ _ E) as (l & Hl & Hs & ->).
  apply replace_prefix. apply H; [|exact Hs].
  exact (stanzas_incl _ _ _ _ Hin Hl).
Qed.

Lemma list_strips_heads_prefix_witness :
  map branch
      (Porcelain.parse
         ("worktree /repo" ++ String Js.LF "branch refs/heads/feat/refs/heads/x"))
  = [Some "feat/refs/heads/x"].
Proof.
  rewrite (list_strips_heads_prefix
             ("worktree /repo"
              ++ String Js.LF "branch refs/heads/feat/refs/heads/x")).
  - reflexivity.
  - intros line Hin Hs. cbn in Hin.
    destruct Hin as [<-|[<-|[]]]; [discriminate Hs | reflexivity].
Defined.

(* ===================================================================== *)
(** * More about removal                                                  *)
(* ===================================================================== *)

Lemma occurs_app c a b :
  Notions.occurs c (a ++ b) = Notions.occurs c a || Notions.occurs c b.
Proof.
  induction a as [|d a IH]; simpl; [reflexivity|].
  rewrite IH. apply orb_assoc.
Qed.

Lemma occurs_replaceAll c rep s :
  Notions.occurs c rep = false ->
  Notions.occurs c (Js.replaceAll s c rep) = false.
Proof.
  intros H. induction s as [|d s IH]; simpl; [reflexivity|].
  rewrite occurs_app, IH, orb_false_r.
  destruct (Ascii.eqb d c) eqn:E; [exact H|].
  simpl. rewrite E. reflexivity.
Qed.

Lemma occurs_replaceAll_keep c d rep s :
  Notions.occurs c s = false ->
  Notions.occurs c rep = false ->
  Notions.occurs c (Js.replaceAll s d rep) = false.
Proof.
  intros Hs Hrep. induction s as [|x s IH]; [reflexivity|].
  cbn [Notions.occurs] in Hs. apply orb_false_iff in Hs.
  destruct Hs as [Hx Hs]. cbn [Js.replaceAll].
  rewrite occurs_app, (IH Hs), orb_false_r.
  destruct (Ascii.eqb x d); [exact Hrep|].
  cbn [Notions.occurs]. rewrite Hx. reflexivity.
Qed.

(** X4.  The PowerShell command line of [killProcessesInDirectory] holds
    no newline and no forward slash, whatever the path: the newlines of
    the script, and those of the path, have become spaces, and the slashes
    of the path backslashes. *)
Theorem kill_command_single_line (dirPath : string) :
  Notions.occurs Js.LF (WorktreeService.killCommand dirPath) = false
  /\ Notions.occurs Js.SLASH (WorktreeService.killCommand dirPath) = false.
Proof.
  unfold WorktreeService.killCommand. split.
  - rewrite !occurs_app, occurs_replaceAll by reflexivity. reflexivity.
  - assert (Notions.occurs Js.SLASH
              (Js.replaceAll
                 (Js.replaceAll dirPath Js.SLASH WorktreeService.bs)
                 Js.BACKSLASH (WorktreeService.bs ++ WorktreeService.bs))
            = false) as H.
    { apply occurs_replaceAll_keep; [|reflexivity].
      apply occurs_replaceAll. reflexivity. }
    rewrite !occurs_app.
    rewrite occurs_replaceAll_keep; [reflexivity| |reflexivity].
    apply occurs_replaceAll_keep; [|reflexivity].
    unfold WorktreeService.psScript. rewrite !occurs_app, H. reflexivity.
Qed.

Section RunsMore.

Import RemovalSpec.

Variable this : Service.t.
Variable options : RemoveOptions.t.
Variable win : bool.
Variable target : option string.

Lemma run_platform evs r :
  run this options win target evs r ->
  Forall (fun ev =>
            Notions.platformCall win (RemoveOptions.path options) (fst ev))
         evs.
Proof.
  intros R. destruct R; destruct win, target;
    cbn [killEvents branchEvents app];
    repeat first [apply Forall_nil | apply Forall_cons];
    unfold pruneCall, removeCall, existsCall, killCall, deletion, branchCall;
    cbn [fst Notions.platformCall]; auto 6.
Qed.

Lemma run_forceful evs r :
  run this options win target evs r ->
  existsb (fun ev => Notions.forceful (fst ev)) evs
  = failedRecoverably evs && present evs.
Proof.
  intros R. destruct R; destruct win, target;
    cbn [killEvents branchEvents app existsb fst Notions.forceful
         failedRecoverably present nth_error
         pruneCall removeCall existsCall killCall deletion branchCall];
    repeat match goal with
           | H : WorktreeService.recoverable _ = _ |- _ => rewrite H
           end;
    reflexivity.
Qed.

Lemma run_gitIn evs r :
  run this options win target evs r ->
  Forall (Notions.gitIn (Service.git this)) evs.
Proof.
  intros R. destruct R; destruct win, target;
    cbn [killEvents branchEvents app];
    repeat first [apply Forall_nil | apply Forall_cons];
    unfold pruneCall, removeCall, existsCall, killCall, deletion, branchCall,
      Notions.gitIn;
    cbn [fst]; auto.
Qed.

End RunsMore.

(** X5.  In every run of [remove], a shell command is run on Windows only
    and is the process-kill command or [rmdir /s /q] on [options.path];
    [rm] is called off Windows only, on [options.path], recursive and
    forced. *)
Theorem remove_platform_calls (w : World) (this : Service.t)
  (options : RemoveOptions.t) (m : Machine) :
  Forall (fun ev =>
            Notions.platformCall (RemovalSpec.onWindows w)
                                 (RemoveOptions.path options) (fst ev))
         (eventsOf (WorktreeService.remove this options) w m).
Proof.
  destruct (remove_events w this options m) as (r & _ & R).
  exact (run_platform _ _ _ _ _ _ R).
Qed.

(** X6.  A run of [remove] kills processes or deletes the directory by
    hand exactly when [git worktree remove] threw a recoverable error and
    the path was then found to exist; when [git worktree remove] returns,
    or the path is gone, nothing is killed or deleted. *)
Theorem remove_force_guarded (w : World) (this : Service.t)
  (options : RemoveOptions.t) (m : Machine) :
  let evs := eventsOf (WorktreeService.remove this options) w m in
  existsb (fun ev => Notions.forceful (fst ev)) evs
  = RemovalSpec.failedRecoverably evs && RemovalSpec.present evs.
Proof.
  cbv zeta. destruct (remove_events w this options m) as (r & _ & R).
  exact (run_forceful _ _ _ _ _ _ R).
Qed.

Lemma single_call_keeps {T : Type} (c : Call) (shown : T -> Outcome)
  (answer : World -> list Event -> Thrown + T) (w : World) (m : Machine) :
  Notions.keeps (bindM (invoke c shown answer) (fun _ => retM tt)) w m.
Proof.
  unfold Notions.keeps, eventsOf. run_m.
  destruct (answer w (trace m)); cbn [fst trace record agentSessionManager
                                      worktreeServices];
    rewrite skipn_length_app; repeat split; reflexivity.
Qed.

Lemma list_keeps (this : Service.t) (w : World) (m : Machine) :
  Notions.keeps (WorktreeService.list_ this) w m.
Proof.
  unfold Notions.keeps, eventsOf, WorktreeService.list_. run_m.
  destruct (git_raw w (trace m) _ _);
    cbn [fst trace record agentSessionManager worktreeServices];
    rewrite skipn_length_app; repeat split; reflexivity.
Qed.

Lemma add_keeps (this : Service.t) (options : CreateOptions.t) (w : World)
  (m : Machine) :
  Notions.keeps (WorktreeService.add this options) w m.
Proof. apply single_call_keeps. Qed.

(** X7.  The methods of [WorktreeService] ([list], [add], [remove],
    [prune]) leave the session manager and the service cache as they are
    and only add events to the trace; [list], [add] and [prune] make one
    call each. *)
Theorem service_methods_keep_state (this : Service.t) (w : World)
  (m : Machine) :
  (forall options, Notions.keeps (WorktreeService.remove this options) w m)
  /\ (forall options, Notions.keeps (WorktreeService.add this options) w m)
  /\ Notions.keeps (WorktreeService.list_ this) w m
  /\ Notions.keeps (WorktreeService.prune this) w m
  /\ (forall options,
         map fst (eventsOf (WorktreeService.add this options) w m)
         = [GitRaw (Service.git this) (WorktreeService.addArgs options)])
  /\ map fst (eventsOf (WorktreeService.list_ this) w m)
     = [GitRaw (Service.git this) ["worktree"; "list"; "--porcelain"]]
  /\ map fst (eventsOf (WorktreeService.prune this) w m)
     = [GitRaw (Service.git this) ["worktree"; "prune"]].
Proof.
  split; [|split; [|split; [|split; [|split; [|split]]]]].
  - intros options. unfold Notions.keeps.
    destruct (remove_events w this options m) as (r & E & _).
    rewrite E. repeat split; reflexivity.
  - intros options. apply add_keeps.
  - apply list_keeps.
  - apply single_call_keeps.
  - intros options. unfold eventsOf, WorktreeService.add. run_m.
    destruct (git_raw w (trace m) _ _); cbn [fst trace record];
      rewrite skipn_length_app; reflexivity.
  - unfold eventsOf, WorktreeService.list_. run_m.
    destruct (git_raw w (trace m) _ _); cbn [fst trace record];
      rewrite skipn_length_app; reflexivity.
  - unfold eventsOf, WorktreeService.prune. run_m.
    destruct (git_raw w (trace m) _ _); cbn [fst trace record];
      rewrite skipn_length_app; reflexivity.
Qed.

(* ===================================================================== *)
(** * The service cache and the handlers                                  *)
(* ===================================================================== *)

Section MapFactsMore.

Context {V : Type}.

Lemma get_set_other (m : JsMap.t V) k k' v :
  k' <> k -> JsMap.get (JsMap.set m k v) k' = JsMap.get m k'.
Proof.
  intros N. induction m as [|[k0 v0] m IH]; simpl.
  - destruct (String.eqb_spec k k'); [congruence | reflexivity].
  - destruct (String.eqb_spec k0 k) as [->|Nk]; simpl.
    + destruct (String.eqb_spec k k'); [congruence | reflexivity].
    + destruct (String.eqb k0 k'); [reflexivity | exact IH].
Qed.

Lemma get_delete_same (m : JsMap.t V) k :
  JsMap.get (JsMap.delete m k) k = None.
Proof.
  unfold JsMap.delete. induction m as [|[k0 v0] m IH]; simpl; [reflexivity|].
  destruct (String.eqb k0 k) eqn:E; simpl; [exact IH|].
  rewrite E. exact IH.
Qed.

Lemma get_delete_other (m : JsMap.t V) k k' :
  k' <> k -> JsMap.get (JsMap.delete m k) k' = JsMap.get m k'.
Proof.
  intros N. unfold JsMap.delete.
  induction m as [|[k0 v0] m IH]; simpl; [reflexivity|].
  destruct (String.eqb_spec k0 k) as [->|Nk]; simpl.
  - destruct (String.eqb_spec k k'); [congruence | exact IH].
  - destruct (String.eqb k0 k'); [reflexivity | exact IH].
Qed.

Lemma get_in (m : JsMap.t V) k v : JsMap.get m k = Some v -> In (k, v) m.
Proof.
  induction m as [|[k0 v0] m IH]; simpl; [discriminate|].
  destruct (String.eqb_spec k0 k) as [->|N].
  - intros H. injection H as ->. left. reflexivity.
  - intros H. right. exact (IH H).
Qed.

End MapFactsMore.

Section Cache.

Variable w : World.

Lemma cacheBound_get services workdir service :
  Notions.cacheBound services ->
  JsMap.get services workdir = Some service ->
  service = Service.mk workdir.
Proof.
  intros [_ H] G. apply get_in in G. rewrite Forall_forall in H.
  exact (H _ G).
Qed.

Lemma cacheBound_filter services (f : string * Service.t -> bool) :
  Notions.cacheBound services -> Notions.cacheBound (filter f services).
Proof.
  intros [Hwf H]. split; [apply wf_filter; exact Hwf|].
  apply Forall_filter_keep. exact H.
Qed.

Lemma cacheBound_set services workdir :
  Notions.cacheBound services ->
  JsMap.get services workdir = None ->
  Notions.cacheBound (JsMap.set services workdir (Service.mk workdir)).
Proof.
  intros [Hwf H] G. rewrite (set_absent _ _ _ G). split.
  - apply wf_snoc; [exact Hwf | apply get_absent; exact G].
  - apply Forall_app. split; [exact H | repeat constructor].
Qed.

(** With a bound cache [getWorktreeService] either throws or yields the
    service of the directory asked for; the cache stays bound, and the
    only call it can make is the constructor's. *)
Lemma getWorktreeService_bound workdir m :
  Notions.cacheBound (worktreeServices m) ->
  exists evs services r,
    Handlers.getWorktreeService workdir w m
    = (mkMachine (trace m ++ evs) (agentSessionManager m) services, r)
    /\ Notions.cacheBound services
    /\ Forall (fun ev => SessionSpec.destructive (fst ev) = false) evs
    /\ (r = Normal (Service.mk workdir) \/ exists e, r = Throw e).
Proof.
  intros B. rewrite getWorktreeService_cases.
  destruct (JsMap.get (worktreeServices m) workdir) as [service|] eqn:E.
  - rewrite (cacheBound_get _ _ _ B E).
    exists [], (worktreeServices m), (Normal (Service.mk workdir)).
    rewrite app_nil_r. destruct m. repeat split; auto; apply B.
  - destruct (simpleGit w (trace m) workdir) as [e|[]].
    + exists [(SimpleGit workdir, Threw e)], (worktreeServices m), (Throw e).
      split; [reflexivity|]. split; [exact B|].
      split; [repeat constructor | right; exists e; reflexivity].
    + exists [(SimpleGit workdir, Returned)],
        (JsMap.set (worktreeServices m) workdir (Service.mk workdir)),
        (Normal (Service.mk workdir)).
      split; [reflexivity|]. split; [apply cacheBound_set; assumption|].
      split; [repeat constructor | left; reflexivity].
Qed.

(** The [WORKTREE_REMOVE] handler keeps a bound cache bound. *)
Lemma worktreeRemove_bound workdir options m :
  Notions.cacheBound (worktreeServices m) ->
  Notions.cacheBound
    (worktreeServices (fst (Handlers.worktreeRemove workdir options w m))).
Proof.
  intros B. unfold Handlers.worktreeRemove. run_m.
  rewrite teardown_cases. cbv zeta.
  destruct (stopWatchersInDirectory w (trace m) _) as [e|[]]; [exact B|].
  destruct (ptyDestroyByWorkdir w _ _) as [e|[]]; [exact B|].
  match goal with
  | |- context [Handlers.getWorktreeService workdir w ?m0] =>
      destruct (getWorktreeService_bound workdir m0 B)
        as (evs & services & r & G & B' & _ & [->|[e ->]]); rewrite G
  end; [|exact B'].
  match goal with
  | |- context [WorktreeService.remove ?s options w ?m0] =>
      destruct (remove_events w s options m0) as (r & E & _); rewrite E
  end.
  exact B'.
Qed.

End Cache.

(** X8.  A request for a cached directory returns the cached service
    without any call and changes nothing.  A request for a directory that
    is not cached makes one call, the constructor's: when it throws, the
    request throws the same error and nothing is cached; when it returns,
    the service of the directory is returned and cached.  No request
    touches the sessions or the services of the other directories, and
    after a request that returned, the same request makes no call, returns
    the service that is cached and leaves the machine as it is. *)
Theorem getWorktreeService_idempotent (workdir : string) (w : World)
  (m : Machine) :
  let r := Handlers.getWorktreeService workdir w m in
  let evs := eventsOf (Handlers.getWorktreeService workdir) w m in
  agentSessionManager (fst r) = agentSessionManager m
  /\ trace (fst r) = (trace m ++ evs)%list
  /\ (forall other,
         other <> workdir ->
         JsMap.get (worktreeServices (fst r)) other
         = JsMap.get (worktreeServices m) other)
  /\ match JsMap.get (worktreeServices m) workdir with
     | Some service => r = (m, Normal service)
     | None =>
         match simpleGit w (trace m) workdir with
         | inl e =>
             evs = [(SimpleGit workdir, Threw e)]
             /\ snd r = Throw e
             /\ worktreeServices (fst r) = worktreeServices m
         | inr _ =>
             evs = [(SimpleGit workdir, Returned)]
             /\ snd r = Normal (Service.mk workdir)
             /\ JsMap.get (worktreeServices (fst r)) workdir
                = Some (Service.mk workdir)
         end
     end
  /\ (forall service,
         snd r = Normal service ->
         Handlers.getWorktreeService workdir w (fst r)
         = (fst r, Normal service)).
Proof.
  cbv zeta. unfold eventsOf. rewrite (getWorktreeService_cases w workdir m).
  destruct (JsMap.get (worktreeServices m) workdir) as [service|] eqn:E;
    cbn [fst snd].
  - rewrite Nat.sub_diag || rewrite skipn_all. rewrite app_nil_r.
    repeat split; try reflexivity.
    intros service' H. injection H as <-.
    rewrite getWorktreeService_cases, E. reflexivity.
  - destruct (simpleGit w (trace m) workdir) as [e|[]];
      cbn [fst snd trace record agentSessionManager worktreeServices];
      rewrite skipn_length_app; repeat split; try reflexivity.
    + intros service H. discriminate H.
    + intros other N. apply get_set_other. exact N.
    + apply get_set.
    + intros service H. injection H as <-.
      rewrite getWorktreeService_cases. cbn [worktreeServices].
      rewrite get_set. reflexivity.
Qed.

(** X9.  [clearWorktreeService] forgets the service of its directory and
    of no other, [clearAllWorktreeServices] forgets them all; neither
    throws nor touches the trace or the sessions; and the next request for
    a cleared directory calls the constructor again. *)
Theorem clearWorktreeService_forgets (workdir : string) (w : World)
  (m : Machine) :
  let r := Handlers.clearWorktreeService workdir w m in
  let all := Handlers.clearAllWorktreeServices w m in
  snd r = Normal tt
  /\ JsMap.get (worktreeServices (fst r)) workdir = None
  /\ (forall other,
         other <> workdir ->
         JsMap.get (worktreeServices (fst r)) other
         = JsMap.get (worktreeServices m) other)
  /\ trace (fst r) = trace m
  /\ agentSessionManager (fst r) = agentSessionManager m
  /\ map fst (eventsOf (Handlers.getWorktreeService workdir) w (fst r))
     = [SimpleGit workdir]
  /\ all = (mkMachine (trace m) (agentSessionManager m) JsMap.empty,
            Normal tt).
Proof.
  cbv zeta.
  unfold Handlers.clearWorktreeService, Handlers.clearAllWorktreeServices.
  run_m. cbn [fst snd trace agentSessionManager worktreeServices].
  repeat split.
  - apply get_delete_same.
  - intros other N. apply get_delete_other. exact N.
  - unfold eventsOf. rewrite getWorktreeService_cases.
    cbn [worktreeServices trace]. rewrite get_delete_same.
    destruct (simpleGit w (trace m) workdir) as [e|[]];
      cbn [fst trace record]; rewrite skipn_length_app; reflexivity.
Qed.

(** X10.  Bound caches stay bound: when every cached service is bound to
    the directory it is cached under, this still holds after a request to
    the cache, whether it returns or throws, after either way of clearing
    the cache and after each of the three worktree handlers; and a
    request that returns yields the service of the directory asked
    for. *)
Theorem cache_stays_bound (workdir : string) (w : World) (m : Machine) :
  Notions.cacheBound (worktreeServices m) ->
  let after := fun (A : Type) (c : M A) => worktreeServices (fst (c w m)) in
  Notions.cacheBound (after _ (Handlers.getWorktreeService workdir))
  /\ (forall service,
         snd (Handlers.getWorktreeService workdir w m) = Normal service ->
         service = Service.mk workdir)
  /\ Notions.cacheBound (after _ (Handlers.clearWorktreeService workdir))
  /\ Notions.cacheBound (after _ Handlers.clearAllWorktreeServices)
  /\ Notions.cacheBound (after _ (Handlers.worktreeList workdir))
  /\ (forall options,
         Notions.cacheBound (after _ (Handlers.worktreeAdd workdir options)))
  /\ (forall options,
         Notions.cacheBound
           (after _ (Handlers.worktreeRemove workdir options))).
Proof.
  intros B. cbv beta zeta.
  destruct (getWorktreeService_bound w workdir m B)
    as (evs & services & r & G & B' & _ & [->|[e ->]]).
  - split; [rewrite G; exact B'|].
    split; [rewrite G; intros service H; injection H as <-; reflexivity|].
    split.
    { unfold Handlers.clearWorktreeService. run_m. cbn [fst worktreeServices].
      apply cacheBound_filter. exact B. }
    split.
    { unfold Handlers.clearAllWorktreeServices. run_m.
      cbn [fst worktreeServices]. split; constructor. }
    split.
    { unfold Handlers.worktreeList. run_m. rewrite G.
      destruct (list_keeps (Service.mk workdir) w
                  (mkMachine (trace m ++ evs) (agentSessionManager m)
                             services))
        as (_ & K & _).
      rewrite K. exact B'. }
    split.
    { intros options. unfold Handlers.worktreeAdd. run_m. rewrite G.
      destruct (add_keeps (Service.mk workdir) options w
                  (mkMachine (trace m ++ evs) (agentSessionManager m)
                             services))
        as (_ & K & _).
      rewrite K. exact B'. }
    intros options. apply worktreeRemove_bound. exact B.
  - split; [rewrite G; exact B'|].
    split; [rewrite G; intros service H; discriminate H|].
    split.
    { unfold Handlers.clearWorktreeService. run_m. cbn [fst worktreeServices].
      apply cacheBound_filter. exact B. }
    split.
    { unfold Handlers.clearAllWorktreeServices. run_m.
      cbn [fst worktreeServices]. split; constructor. }
    split.
    { unfold Handlers.worktreeList. run_m. rewrite G. exact B'. }
    split.
    { intros options. unfold Handlers.worktreeAdd. run_m. rewrite G.
      exact B'. }
    intros options. apply worktreeRemove_bound. exact B.
Qed.

Section HandlerMore.

Variable w : World.

Lemma harmless_gitIn workdir ev :
  SessionSpec.destructive (fst ev) = false -> Notions.gitIn workdir ev.
Proof.
  unfold Notions.gitIn. destruct (fst ev); simpl; try tauto. discriminate.
Qed.

Lemma completed_gitIn workdir calls :
  Forall (fun c => SessionSpec.destructive c = false) calls ->
  Forall (Notions.gitIn workdir) (map SessionSpec.completed calls).
Proof.
  intros H. apply Forall_forall. intros ev Hin. apply in_map_iff in Hin.
  destruct Hin as (c & <- & Hc). apply harmless_gitIn.
  rewrite Forall_forall in H. exact (H c Hc).
Qed.

End HandlerMore.

(** X11.  With a bound cache, every [git] command that the handlers
    WORKTREE_LIST, WORKTREE_ADD and WORKTREE_REMOVE issue for a directory
    runs in that directory. *)
Theorem handlers_run_git_in_workdir (workdir : string) (w : World)
  (m : Machine) :
  Notions.cacheBound (worktreeServices m) ->
  Forall (Notions.gitIn workdir)
         (eventsOf (Handlers.worktreeList workdir) w m)
  /\ (forall options,
         Forall (Notions.gitIn workdir)
                (eventsOf (Handlers.worktreeAdd workdir options) w m))
  /\ (forall options,
         Forall (Notions.gitIn workdir)
                (eventsOf (Handlers.worktreeRemove workdir options) w m)).
Proof.
  intros B.
  destruct (getWorktreeService_bound w workdir m B)
    as (evs & services & r & G & _ & Hevs & Hr).
  assert (Forall (Notions.gitIn workdir) evs) as Gevs.
  { eapply Forall_impl; [|exact Hevs]. intros ev. apply harmless_gitIn. }
  split; [|split].
  - unfold eventsOf, Handlers.worktreeList, WorktreeService.list_. run_m.
    rewrite G. destruct Hr as [->|[e ->]].
    + run_m. cbn [trace Service.git].
      destruct (git_raw w (trace m ++ evs) workdir _);
        cbn [fst trace record];
        rewrite <- app_assoc, skipn_length_app;
        (apply Forall_app; split; [exact Gevs | repeat constructor]).
    + cbn [fst trace]. rewrite skipn_length_app. exact Gevs.
  - intros options.
    unfold eventsOf, Handlers.worktreeAdd, WorktreeService.add. run_m.
    rewrite G. destruct Hr as [->|[e ->]].
    + run_m. cbn [trace Service.git].
      destruct (git_raw w (trace m ++ evs) workdir _);
        cbn [fst trace record];
        rewrite <- app_assoc, skipn_length_app;
        (apply Forall_app; split; [exact Gevs | repeat constructor]).
    + cbn [fst trace]. rewrite skipn_length_app. exact Gevs.
  - intros options. unfold eventsOf, Handlers.worktreeRemove. run_m.
    rewrite teardown_cases. cbv zeta.
    destruct (stopWatchersInDirectory w (trace m) _) as [e|[]].
    { cbn [fst trace record]. rewrite skipn_length_app. repeat constructor. }
    destruct (ptyDestroyByWorkdir w _ _) as [e|[]].
    { cbn [fst trace record]. rewrite <- app_assoc, skipn_length_app.
      repeat constructor. }
    match goal with
    | |- context [Handlers.getWorktreeService workdir w ?m0] =>
        destruct (getWorktreeService_bound w workdir m0 B)
          as (evs' & services' & r' & G' & _ & Hevs' & Hr'); rewrite G'
    end.
    assert (Forall (Notions.gitIn workdir) evs') as Gevs'.
    { eapply Forall_impl; [|exact Hevs']. intros ev. apply harmless_gitIn. }
    cbn [trace agentSessionManager].
    destruct Hr' as [->|[e ->]].
    + match goal with
      | |- context [WorktreeService.remove ?s options w ?m0] =>
          destruct (remove_events w s options m0) as (r0 & E & R); rewrite E;
          set (removal := eventsOf (WorktreeService.remove s options) w m0)
            in *
      end.
      cbn [fst trace]. rewrite <- !app_assoc, skipn_length_app.
      apply Forall_app. split; [|apply Forall_app; split].
      * apply completed_gitIn. apply teardown_harmless.
      * exact Gevs'.
      * exact (run_gitIn _ _ _ _ _ _ R).
    + cbn [fst trace]. rewrite <- !app_assoc, skipn_length_app.
      apply Forall_app. split; [|exact Gevs'].
      apply completed_gitIn. apply teardown_harmless.
Qed.

Lemma handlers_run_git_in_workdir_witness :
  Forall (Notions.gitIn "/repo")
         (eventsOf (Handlers.worktreeRemove
                      "/repo" (RemoveOptions.mk "/repo/wt" true true
                                                (Some "feature")))
                   (scriptedWorld "linux" isRemove
                      (ErrorObject "error: Permission denied") true)
                   startup).
Proof.
  apply (handlers_run_git_in_workdir
           "/repo"
           (scriptedWorld "linux" isRemove
              (ErrorObject "error: Permission denied") true)
           startup).
  split; constructor.
Defined.

Lemma cache_stays_bound_witness :
  Notions.cacheBound
    (worktreeServices
       (fst (Handlers.worktreeList "/repo"
               (scriptedWorld "linux" isRemove (ErrorObject EmptyString) true)
               startup))).
Proof.
  apply (cache_stays_bound
           "/repo"
           (scriptedWorld "linux" isRemove (ErrorObject EmptyString) true)
           startup).
  split; constructor.
Defined.

(** X12.  On a session map, what the WORKTREE_REMOVE handler does to the
    sessions is decided by its first two steps.  When stopping the
    watchers throws, or destroying the pseudo-terminals throws, the
    handler throws that error, the failed call is its last, and the map
    is as it was.  When both return, the handler performs every call of
    the teardown and leaves in the map exactly the sessions that are not
    under [options.path], whatever the constructor of the service and the
    removal do afterwards.  The counter never changes. *)
Theorem handler_clears_sessions (workdir : string)
  (options : RemoveOptions.t) (w : World) (m : Machine) :
  JsMap.wf (Manager.sessions (agentSessionManager m)) ->
  let r := Handlers.worktreeRemove workdir options w m in
  let evs := eventsOf (Handlers.worktreeRemove workdir options) w m in
  let p := RemoveOptions.path options in
  let sessions := Manager.sessions (agentSessionManager m) in
  let after := Manager.sessions (agentSessionManager (fst r)) in
  let under := fun e : string * Session.t =>
                 AgentSessionManager.under w p (snd e) in
  Manager.counter (agentSessionManager (fst r))
  = Manager.counter (agentSessionManager m)
  /\ match stopWatchersInDirectory w (trace m) p with
     | inl e =>
         evs = [(StopWatchersInDirectory p, Threw e)]
         /\ snd r = Throw e /\ after = sessions
     | inr _ =>
         match ptyDestroyByWorkdir
                 w (trace m ++ [(StopWatchersInDirectory p, Returned)]) p
         with
         | inl e =>
             evs = [ (StopWatchersInDirectory p, Returned);
                     (PtyDestroyByWorkdir p, Threw e) ]
             /\ snd r = Throw e /\ after = sessions
         | inr _ =>
             after = filter (fun e => negb (under e)) sessions
             /\ exists rest,
                 evs = (map SessionSpec.completed
                            (SessionSpec.teardownCalls
                               p (SessionSpec.victims w options m))
                        ++ rest)%list
         end
     end.
Proof.
  intros Hwf. cbv zeta. unfold eventsOf, Handlers.worktreeRemove. run_m.
  rewrite teardown_cases. cbv zeta. unfold record at 2. cbn [trace].
  destruct (stopWatchersInDirectory w (trace m) _) as [e|[]].
  { cbn [fst snd trace record agentSessionManager].
    rewrite skipn_length_app. repeat split. }
  destruct (ptyDestroyByWorkdir w _ _) as [e|[]].
  { cbn [fst snd trace record agentSessionManager].
    rewrite <- app_assoc, skipn_length_app. repeat split. }
  rewrite getWorktreeService_cases. cbn [worktreeServices trace].
  assert (forall (c : Machine * Completion unit) rest,
             agentSessionManager (fst c)
             = Manager.mk
                 (fold_left (SessionSpec.stopStep w (RemoveOptions.path options))
                            (Manager.sessions (agentSessionManager m))
                            (Manager.sessions (agentSessionManager m)))
                 (Manager.counter (agentSessionManager m)) ->
             trace (fst c)
             = ((trace m
                 ++ map SessionSpec.completed
                      (SessionSpec.teardownCalls
                         (RemoveOptions.path options)
                         (SessionSpec.victims w options m)))
                ++ rest)%list ->
             Manager.counter (agentSessionManager (fst c))
             = Manager.counter (agentSessionManager m)
             /\ Manager.sessions (agentSessionManager (fst c))
                = filter (fun e => negb (AgentSessionManager.under
                                           w (RemoveOptions.path options)
                                           (snd e)))
                         (Manager.sessions (agentSessionManager m))
             /\ exists rest',
                 skipn (List.length (trace m)) (trace (fst c))
                 = (map SessionSpec.completed
                        (SessionSpec.teardownCalls
                           (RemoveOptions.path options)
                           (SessionSpec.victims w options m))
                    ++ rest')%list) as Close.
  { intros c rest Ha Ht. rewrite Ha, Ht.
    cbn [Manager.counter Manager.sessions].
    split; [reflexivity|]. split.
    - exact (stop_loop_map w (RemoveOptions.path options) _ Hwf).
    - exists rest. rewrite <- app_assoc, skipn_length_app. reflexivity. }
  destruct (JsMap.get (worktreeServices m) workdir) as [service|].
  - match goal with
    | |- context [WorktreeService.remove ?s options w ?m0] =>
        destruct (remove_events w s options m0) as (r & E & _); rewrite E
    end.
    eapply Close; cbn [fst trace agentSessionManager]; reflexivity.
  - destruct (simpleGit w _ workdir) as [e|[]].
    + eapply Close; cbn [fst trace record agentSessionManager]; reflexivity.
    + match goal with
      | |- context [WorktreeService.remove ?s options w ?m0] =>
          destruct (remove_events w s options m0) as (r & E & _); rewrite E
      end.
      eapply Close; cbn [fst trace agentSessionManager];
        [reflexivity | rewrite <- app_assoc; reflexivity].
Qed.

Lemma handler_clears_sessions_witness :
  JsMap.keys
    (Manager.sessions
       (agentSessionManager
          (fst (Handlers.worktreeRemove
                  "c:/repo" (RemoveOptions.mk "c:/repo/wt" false false None)
                  (scriptedWorld "linux" (fun _ => true)
                                 (ErrorObject "fatal: broken") true)
                  twoSessions))))
  = ["agent-2"].
Proof.
  assert (JsMap.wf (Manager.sessions (agentSessionManager twoSessions)))
    as H.
  { unfold JsMap.wf. simpl. constructor.
    - simpl. intros [E|[]]. discriminate E.
    - constructor; [intros [] | constructor]. }
  destruct (handler_clears_sessions
              "c:/repo" (RemoveOptions.mk "c:/repo/wt" false false None)
              (scriptedWorld "linux" (fun _ => true)
                             (ErrorObject "fatal: broken") true)
              twoSessions H) as (_ & E & _).
  rewrite E. reflexivity.
Defined.

(* ===================================================================== *)
(** * More about the session manager                                      *)
(* ===================================================================== *)

(** X13.  [send] to an id that is not in the map throws
    ['Session not found: <id>'] before any call and leaves the machine as
    it is; [send] to a session of the map never throws and writes one line
    to the standard input of the process of that session: the prompt
    request followed by a newline.  The map is never changed. *)
Theorem send_missing_or_known (sessionId content : string) (w : World)
  (m : Machine) :
  let r := AgentSessionManager.send sessionId content w m in
  let evs := eventsOf (AgentSessionManager.send sessionId content) w m in
  agentSessionManager (fst r) = agentSessionManager m
  /\ worktreeServices (fst r) = worktreeServices m
  /\ match JsMap.get (Manager.sessions (agentSessionManager m)) sessionId with
     | None => r = (m, Throw (Notions.notFound sessionId))
     | Some session =>
         snd r = Normal tt
         /\ map fst evs
            = [ RandomUUID;
                StdinWrite
                  (Session.process session)
                  (JSON_stringify w
                     (AgentSessionManager.promptRequest
                        (randomUUID w (trace m)) content)
                   ++ String Js.LF EmptyString) ]
     end.
Proof.
  cbv zeta. unfold eventsOf, AgentSessionManager.send, Notions.notFound. run_m.
  destruct (JsMap.get (Manager.sessions (agentSessionManager m)) sessionId)
    as [session|]; run_m; unfold record;
    cbn [fst snd trace agentSessionManager worktreeServices].
  - rewrite <- app_assoc, skipn_length_app. repeat split; reflexivity.
  - repeat split; reflexivity.
Qed.

Lemma get_after_stop sessionId w m :
  JsMap.get
    (Manager.sessions
       (agentSessionManager (fst (AgentSessionManager.stop sessionId w m))))
    sessionId
  = None.
Proof.
  unfold AgentSessionManager.stop, AgentSessionManager.updateSessions. run_m.
  destruct (JsMap.get (Manager.sessions (agentSessionManager m)) sessionId)
    eqn:E; run_m; cbn [fst agentSessionManager Manager.sessions].
  - apply get_delete_same.
  - exact E.
Qed.

(** X14.  [stop] never throws.  It kills the process of the session with
    that id, if there is one, and afterwards the map has no entry for the
    id while every other id is looked up as before; a second [stop] of the
    same id does nothing, and a later [send] to it throws
    ['Session not found']. *)
Theorem stop_removes_one (sessionId : string) (w : World) (m : Machine) :
  let r := AgentSessionManager.stop sessionId w m in
  let before := Manager.sessions (agentSessionManager m) in
  let after := Manager.sessions (agentSessionManager (fst r)) in
  snd r = Normal tt
  /\ eventsOf (AgentSessionManager.stop sessionId) w m
     = match JsMap.get before sessionId with
       | Some session => [(ProcessKill (Session.process session), Returned)]
       | None => []
       end
  /\ JsMap.get after sessionId = None
  /\ (forall other, other <> sessionId ->
                    JsMap.get after other = JsMap.get before other)
  /\ Manager.counter (agentSessionManager (fst r))
     = Manager.counter (agentSessionManager m)
  /\ AgentSessionManager.stop sessionId w (fst r) = (fst r, Normal tt)
  /\ (forall content,
         snd (AgentSessionManager.send sessionId content w (fst r))
         = Throw (Notions.notFound sessionId)).
Proof.
  cbv zeta.
  assert (forall m0,
             JsMap.get (Manager.sessions (agentSessionManager m0)) sessionId
             = None ->
             AgentSessionManager.stop sessionId w m0 = (m0, Normal tt)
             /\ forall content,
                 snd (AgentSessionManager.send sessionId content w m0)
                 = Throw (Notions.notFound sessionId)) as Hnone.
  { intros m0 E. unfold AgentSessionManager.stop, AgentSessionManager.send.
    run_m. rewrite E. split; reflexivity. }
  destruct (JsMap.get (Manager.sessions (agentSessionManager m)) sessionId)
    as [session|] eqn:E.
  - assert (AgentSessionManager.stop sessionId w m
            = (mkMachine
                 (trace m ++ [(ProcessKill (Session.process session),
                               Returned)])
                 (Manager.mk
                    (JsMap.delete (Manager.sessions (agentSessionManager m))
                                  sessionId)
                    (Manager.counter (agentSessionManager m)))
                 (worktreeServices m),
               Normal tt)) as R.
    { unfold AgentSessionManager.stop, AgentSessionManager.updateSessions.
      run_m. rewrite E. reflexivity. }
    unfold eventsOf. rewrite R.
    cbn [fst snd trace agentSessionManager Manager.sessions Manager.counter].
    rewrite skipn_length_app.
    destruct (Hnone (mkMachine
                 (trace m ++ [(ProcessKill (Session.process session),
                               Returned)])
                 (Manager.mk
                    (JsMap.delete (Manager.sessions (agentSessionManager m))
                                  sessionId)
                    (Manager.counter (agentSessionManager m)))
                 (worktreeServices m))
                (get_delete_same _ sessionId)) as [H1 H2].
    repeat split; try reflexivity; try assumption.
    + apply get_delete_same.
    + intros other N. apply get_delete_other. exact N.
  - destruct (Hnone m E) as [H1 H2]. unfold eventsOf. rewrite H1.
    cbn [fst snd]. rewrite skipn_all. repeat split; auto.
Qed.

(** X15.  When [create] returns an id, the process was spawned as
    [npx claude-code-acp] in the working directory given, the map holds
    under that id the session of that process, and a [send] to the id
    succeeds and writes to that process.  When [spawn] throws, [create]
    throws the same error and registers nothing. *)
Theorem create_then_send (agent : AgentMetadata) (workdir : string)
  (onMessage : Callback) (content : string) (w : World) (m : Machine) :
  let r := AgentSessionManager.create agent workdir onMessage w m in
  match snd r with
  | Normal id =>
      exists proc,
        eventsOf (AgentSessionManager.create agent workdir onMessage) w m
        = [(Spawn "npx" ["claude-code-acp"] workdir, ReturnedRef proc)]
        /\ JsMap.get (Manager.sessions (agentSessionManager (fst r))) id
           = Some (Session.mk id proc agent workdir onMessage)
        /\ snd (AgentSessionManager.send id content w (fst r)) = Normal tt
        /\ List.length
             (Notions.written
                proc
                (eventsOf (AgentSessionManager.send id content) w (fst r)))
           = 1
  | Throw e =>
      eventsOf (AgentSessionManager.create agent workdir onMessage) w m
      = [(Spawn "npx" ["claude-code-acp"] workdir, Threw e)]
      /\ Manager.sessions (agentSessionManager (fst r))
         = Manager.sessions (agentSessionManager m)
  end.
Proof.
  cbv zeta. unfold eventsOf. rewrite create_run.
  destruct (spawn w (trace m) "npx" ["claude-code-acp"] workdir)
    as [e|proc]; cbn [fst snd trace agentSessionManager Manager.sessions];
    rewrite skipn_length_app.
  - split; reflexivity.
  - exists proc. split; [reflexivity|]. split; [apply get_set|].
    unfold AgentSessionManager.send. run_m.
    cbn [agentSessionManager Manager.sessions]. rewrite get_set. run_m.
    unfold record. cbn [fst snd trace Session.process].
    split; [reflexivity|].
    rewrite <- (app_assoc (trace m ++ [_]) [_] [_]), skipn_length_app.
    unfold Notions.written. cbn. rewrite Nat.eqb_refl. reflexivity.
Qed.

(** X16.  [stopAll] never throws: it kills the process of every session,
    in map order, and empties the map; the counter keeps its value, and
    afterwards every [send] throws ['Session not found']. *)
Theorem stopAll_kills_everything (w : World) (m : Machine) :
  let r := AgentSessionManager.stopAll w m in
  snd r = Normal tt
  /\ eventsOf AgentSessionManager.stopAll w m
     = map (fun s => (ProcessKill (Session.process s), Returned))
           (JsMap.values (Manager.sessions (agentSessionManager m)))
  /\ Manager.sessions (agentSessionManager (fst r)) = []
  /\ Manager.counter (agentSessionManager (fst r))
     = Manager.counter (agentSessionManager m)
  /\ worktreeServices (fst r) = worktreeServices m
  /\ (forall sessionId content,
         snd (AgentSessionManager.send sessionId content w (fst r))
         = Throw (Notions.notFound sessionId)).
Proof.
  cbv zeta.
  assert (AgentSessionManager.stopAll w m
          = (mkMachine
               (trace m
                ++ map (fun s => (ProcessKill (Session.process s), Returned))
                     (JsMap.values
                        (Manager.sessions (agentSessionManager m))))
               (Manager.mk [] (Manager.counter (agentSessionManager m)))
               (worktreeServices m),
             Normal tt)) as R.
  { unfold AgentSessionManager.stopAll, AgentSessionManager.updateSessions.
    run_m. rewrite kill_loop. reflexivity. }
  unfold eventsOf. rewrite R.
  cbn [fst snd trace agentSessionManager worktreeServices
       Manager.sessions Manager.counter].
  rewrite skipn_length_app. repeat split.
Qed.

Section Counter.

Variable w : World.

(** No operation lowers the counter, and only [create] can raise it. *)
Lemma counter_perform op m :
  Manager.counter (agentSessionManager (fst (SessionSpec.perform op w m)))
  = match op with
    | SessionSpec.Create _ _ _ =>
        Js.increment (Manager.counter (agentSessionManager m))
    | _ => Manager.counter (agentSessionManager m)
    end.
Proof.
  destruct op as [agent workdir cb|sid content|sid| |workdir|id];
    cbn [SessionSpec.perform].
  - unfold bindM. rewrite create_run.
    destruct (spawn w (trace m) "npx" ["claude-code-acp"] workdir);
      reflexivity.
  - unfold AgentSessionManager.send. run_m.
    destruct (JsMap.get _ sid); run_m; reflexivity.
  - unfold AgentSessionManager.stop, AgentSessionManager.updateSessions.
    run_m. destruct (JsMap.get _ sid); run_m; reflexivity.
  - rewrite stopAll_run. reflexivity.
  - rewrite stopByWorkdir_run. reflexivity.
  - unfold AgentSessionManager.onExit, AgentSessionManager.updateSessions.
    run_m. reflexivity.
Qed.

(** The room that the operations after [op] have below 2^53. *)
Lemma room_perform op ops m :
  (Manager.counter (agentSessionManager m)
   + Notions.creations (op :: ops) <= Js.MAX_EXACT)%N ->
  (Manager.counter (agentSessionManager m)
   <= Manager.counter (agentSessionManager (fst (SessionSpec.perform op w m))))%N
  /\ (Manager.counter (agentSessionManager (fst (SessionSpec.perform op w m)))
      + Notions.creations ops <= Js.MAX_EXACT)%N.
Proof.
  rewrite counter_perform. cbn [Notions.creations].
  destruct op; try lia.
  intros H. rewrite increment_below by lia. lia.
Qed.

Lemma createdIds_above ops :
  forall m,
    (Manager.counter (agentSessionManager m)
     + Notions.creations ops <= Js.MAX_EXACT)%N ->
    Forall (fun id => exists n : N,
                (Manager.counter (agentSessionManager m) < n)%N
                /\ id = "agent-" ++ Js.ofNumber n)
           (Notions.createdIds w ops m).
Proof.
  induction ops as [|op ops IH]; intros m Hroom; [constructor|].
  cbn [Notions.createdIds].
  destruct (room_perform op ops m Hroom) as (Hle & Hroom').
  assert (Forall (fun id => exists n : N,
                      (Manager.counter (agentSessionManager m) < n)%N
                      /\ id = "agent-" ++ Js.ofNumber n)
                 (Notions.createdIds w ops
                    (fst (SessionSpec.perform op w m)))) as Hrest.
  { eapply Forall_impl; [|apply IH; exact Hroom']. intros id (n & Hn & E).
    exists n. split; [lia | exact E]. }
  destruct op as [agent workdir cb|sid content|sid| |workdir|id];
    try exact Hrest.
  rewrite create_run in *.
  destruct (spawn w (trace m) "npx" ["claude-code-acp"] workdir);
    cbn [snd]; [exact Hrest|].
  constructor; [|exact Hrest].
  exists (Js.increment (Manager.counter (agentSessionManager m))).
  split; [|reflexivity].
  cbn [Notions.creations] in Hroom. rewrite increment_below; lia.
Qed.

Lemma createdIds_NoDup ops :
  forall m,
    (Manager.counter (agentSessionManager m)
     + Notions.creations ops <= Js.MAX_EXACT)%N ->
    NoDup (Notions.createdIds w ops m).
Proof.
  induction ops as [|op ops IH]; intros m Hroom; [constructor|].
  cbn [Notions.createdIds].
  destruct (room_perform op ops m Hroom) as (Hle & Hroom').
  destruct op as [agent workdir cb|sid content|sid| |workdir|id];
    try (apply IH; exact Hroom').
  pose proof (createdIds_above ops _ Hroom') as A.
  rewrite Forall_forall in A.
  rewrite create_run.
  destruct (spawn w (trace m) "npx" ["claude-code-acp"] workdir);
    cbn [snd]; [apply IH; exact Hroom'|].
  constructor; [|apply IH; exact Hroom'].
  intros Hin. destruct (A _ Hin) as (n & Hn & E).
  rewrite counter_perform in Hn.
  simpl in E. injection E as E.
  apply ofNumber_inj in E. lia.
Qed.

End Counter.

(** X17.  Ids are not reused while the counter stays below 2^53: when
    the counter at the start and the number of calls of [create] among
    the operations add up to 2^53 at most, then however [create], [send],
    [stop], [stopAll], [stopByWorkdir] and exit callbacks follow one
    another, the ids that the calls of [create] return are pairwise
    different, also after the sessions before them were stopped, and each
    is ['agent-<n>'] for an [n] above the counter at the start. *)
Theorem created_ids_distinct (w : World) (ops : list SessionSpec.Op)
  (m : Machine) :
  (Manager.counter (agentSessionManager m) + Notions.creations ops
   <= Js.MAX_EXACT)%N ->
  NoDup (Notions.createdIds w ops m)
  /\ Forall (fun id => exists n : N,
                 (Manager.counter (agentSessionManager m) < n)%N
                 /\ id = "agent-" ++ Js.ofNumber n)
            (Notions.createdIds w ops m).
Proof.
  intros Hroom.
  split; [apply createdIds_NoDup | apply createdIds_above]; exact Hroom.
Qed.

Lemma created_ids_distinct_witness :
  NoDup
    (Notions.createdIds
       (scriptedWorld "linux" isRemove (ErrorObject EmptyString) true)
       [ SessionSpec.Create 7 "/a" 9; SessionSpec.StopAll;
         SessionSpec.Create 7 "/a" 9 ]
       startup).
Proof.
  apply (created_ids_distinct
           (scriptedWorld "linux" isRemove (ErrorObject EmptyString) true)
           [ SessionSpec.Create 7 "/a" 9; SessionSpec.StopAll;
             SessionSpec.Create 7 "/a" 9 ]
           startup).
  vm_compute. discriminate.
Defined.

Example ids_after_stopAll :
  Notions.createdIds
    (scriptedWorld "linux" isRemove (ErrorObject EmptyString) true)
    [ SessionSpec.Create 7 "/a" 9; SessionSpec.StopAll;
      SessionSpec.Create 7 "/a" 9; SessionSpec.Stop "agent-2";
      SessionSpec.Create 7 "/b" 9 ]
    startup
  = ["agent-1"; "agent-2"; "agent-3"].
Proof. reflexivity. Qed.

(** At 2^53 the bound of X17 is needed: the next two ids are the same. *)
Example ids_repeat_when_stalled :
  Notions.createdIds
    (scriptedWorld "linux" isRemove (ErrorObject EmptyString) true)
    [ SessionSpec.Create 7 "/a" 9; SessionSpec.Create 7 "/b" 9 ]
    stalled
  = ["agent-9007199254740992"; "agent-9007199254740992"].
Proof. reflexivity. Qed.

Lemma filter_idem {A : Type} (f : A -> bool) (l : list A) :
  filter f (filter f l) = filter f l.
Proof.
  rewrite filter_filter. apply filter_ext. intros x. apply andb_diag.
Qed.

Lemma filter_none {A : Type} (f : A -> bool) (l : list A) :
  filter f (filter (fun x => negb (f x)) l) = [].
Proof.
  rewrite filter_filter. induction l as [|a l IH]; simpl; [reflexivity|].
  destruct (f a); simpl; exact IH.
Qed.

Lemma delete_absent {V : Type} (m : JsMap.t V) k :
  JsMap.get m k = None -> JsMap.delete m k = m.
Proof.
  unfold JsMap.delete. induction m as [|[k0 v0] m IH]; simpl; [reflexivity|].
  destruct (String.eqb k0 k) eqn:E; [discriminate|].
  intros H. cbn [negb]. rewrite (IH H). reflexivity.
Qed.

(** X18.  On a session map, [stopByWorkdir] done twice is [stopByWorkdir]
    done once: after the first call no session is under the directory,
    and the second call kills nothing and leaves the machine as it is. *)
Theorem stopByWorkdir_idempotent (workdir : string) (w : World)
  (m : Machine) :
  JsMap.wf (Manager.sessions (agentSessionManager m)) ->
  let m1 := fst (AgentSessionManager.stopByWorkdir workdir w m) in
  AgentSessionManager.stopByWorkdir workdir w m1 = (m1, Normal tt)
  /\ Forall (fun e => AgentSessionManager.under w workdir (snd e) = false)
            (Manager.sessions (agentSessionManager m1)).
Proof.
  intros Hwf. cbv zeta. rewrite (stopByWorkdir_run workdir w m). cbn [fst].
  rewrite (stop_loop_map w workdir _ Hwf). split.
  - rewrite stopByWorkdir_run.
    cbn [trace agentSessionManager worktreeServices
         Manager.sessions Manager.counter].
    rewrite (stop_loop_map w workdir _
               (wf_filter (fun e => negb (SessionSpec.hit w workdir e)) _
                          Hwf)).
    rewrite filter_idem.
    rewrite (filter_none (SessionSpec.hit w workdir)).
    cbn [map]. rewrite app_nil_r. reflexivity.
  - cbn [agentSessionManager Manager.sessions].
    apply Forall_forall. intros e Hin. apply filter_In in Hin.
    destruct Hin as [_ Hn]. apply negb_true_iff in Hn. exact Hn.
Qed.

Lemma stopByWorkdir_idempotent_witness :
  let w := scriptedWorld "win32" isRemove (ErrorObject EmptyString) true in
  let m1 := fst (AgentSessionManager.stopByWorkdir "C:\Repo\wt" w twoSessions)
  in
  eventsOf (AgentSessionManager.stopByWorkdir "C:\Repo\wt") w m1 = [].
Proof.
  cbv zeta.
  assert (JsMap.wf (Manager.sessions (agentSessionManager twoSessions)))
    as H.
  { unfold JsMap.wf. simpl. constructor.
    - simpl. intros [E|[]]. discriminate E.
    - constructor; [intros [] | constructor]. }
  unfold eventsOf.
  rewrite (proj1 (stopByWorkdir_idempotent
                    "C:\Repo\wt"
                    (scriptedWorld "win32" isRemove
                                   (ErrorObject EmptyString) true)
                    twoSessions H)).
  cbn [fst]. apply skipn_all.
Defined.

Lemma replaceAll_backslash_idem s :
  Js.replaceAll (Js.replaceAll s Js.BACKSLASH (String Js.SLASH EmptyString))
                Js.BACKSLASH (String Js.SLASH EmptyString)
  = Js.replaceAll s Js.BACKSLASH (String Js.SLASH EmptyString).
Proof.
  induction s as [|c s IH]; [reflexivity|].
  cbn [Js.replaceAll]. destruct (Ascii.eqb c Js.BACKSLASH) eqn:E.
  - cbn [append Js.replaceAll]. rewrite IH. reflexivity.
  - cbn [append Js.replaceAll]. rewrite E, IH. reflexivity.
Qed.

Lemma replaceAll_slash_backslash s :
  Js.replaceAll (Js.replaceAll s Js.SLASH (String Js.BACKSLASH EmptyString))
                Js.BACKSLASH (String Js.SLASH EmptyString)
  = Js.replaceAll s Js.BACKSLASH (String Js.SLASH EmptyString).
Proof.
  induction s as [|c s IH]; [reflexivity|].
  cbn [Js.replaceAll]. destruct (Ascii.eqb c Js.SLASH) eqn:E.
  - apply Ascii.eqb_eq in E. subst c.
    cbn [append Js.replaceAll]. rewrite IH. reflexivity.
  - cbn [append Js.replaceAll].
    destruct (Ascii.eqb c Js.BACKSLASH); rewrite IH; reflexivity.
Qed.

Lemma forOf_ext {A : Type} (f g : A -> M unit) (l : list A) :
  (forall x, f x = g x) -> forOf l f = forOf l g.
Proof.
  intros H. induction l as [|x l IH]; [reflexivity|].
  cbn [forOf]. rewrite H, IH. reflexivity.
Qed.

Lemma stopByWorkdir_normalized w d d' m :
  AgentSessionManager.normalize w d = AgentSessionManager.normalize w d' ->
  AgentSessionManager.stopByWorkdir d w m
  = AgentSessionManager.stopByWorkdir d' w m.
Proof.
  intros H. unfold AgentSessionManager.stopByWorkdir. run_m.
  rewrite (forOf_ext (AgentSessionManager.stopIfUnder w d)
                     (AgentSessionManager.stopIfUnder w d')); [reflexivity|].
  intros [id session].
  unfold AgentSessionManager.stopIfUnder, AgentSessionManager.under.
  rewrite H. reflexivity.
Qed.

(** X19.  [stopByWorkdir] does not tell the two path separators apart:
    the directory written with slashes only, or with backslashes only,
    stops the same sessions with the same effects.  And a session whose
    working directory is the very string given is always stopped. *)
Theorem stopByWorkdir_separators (workdir : string) (w : World)
  (m : Machine) :
  AgentSessionManager.stopByWorkdir
    (Js.replaceAll workdir Js.BACKSLASH (String Js.SLASH EmptyString)) w m
  = AgentSessionManager.stopByWorkdir workdir w m
  /\ AgentSessionManager.stopByWorkdir
       (Js.replaceAll workdir Js.SLASH (String Js.BACKSLASH EmptyString)) w m
     = AgentSessionManager.stopByWorkdir workdir w m
  /\ (forall session,
         Session.workdir session = workdir ->
         AgentSessionManager.under w workdir session = true).
Proof.
  split; [|split].
  - apply stopByWorkdir_normalized. unfold AgentSessionManager.normalize.
    rewrite replaceAll_backslash_idem. reflexivity.
  - apply stopByWorkdir_normalized. unfold AgentSessionManager.normalize.
    rewrite replaceAll_slash_backslash. reflexivity.
  - intros session <-. unfold AgentSessionManager.under.
    rewrite String.eqb_refl. reflexivity.
Qed.

(** X20.  The exit callback makes no call and never throws; it removes
    the entry of its id and no other.  Coming after [stop] of the same id,
    as it does when [stop] killed the process, it changes nothing. *)
Theorem exit_after_stop (id : string) (w : World) (m : Machine) :
  let r := AgentSessionManager.onExit id w m in
  let stopped := fst (AgentSessionManager.stop id w m) in
  snd r = Normal tt
  /\ trace (fst r) = trace m
  /\ JsMap.get (Manager.sessions (agentSessionManager (fst r))) id = None
  /\ (forall other,
         other <> id ->
         JsMap.get (Manager.sessions (agentSessionManager (fst r))) other
         = JsMap.get (Manager.sessions (agentSessionManager m)) other)
  /\ AgentSessionManager.onExit id w stopped = (stopped, Normal tt).
Proof.
  cbv zeta.
  assert (forall m0,
             AgentSessionManager.onExit id w m0
             = (mkMachine (trace m0)
                  (Manager.mk
                     (JsMap.delete (Manager.sessions (agentSessionManager m0))
                                   id)
                     (Manager.counter (agentSessionManager m0)))
                  (worktreeServices m0), Normal tt)) as R.
  { intros m0.
    unfold AgentSessionManager.onExit, AgentSessionManager.updateSessions.
    run_m. reflexivity. }
  rewrite !R. cbn [fst snd trace agentSessionManager Manager.sessions].
  repeat split.
  - apply get_delete_same.
  - intros other N. apply get_delete_other. exact N.
  - rewrite (delete_absent _ _ (get_after_stop id w m)).
    destruct (fst (AgentSessionManager.stop id w m)) as [tr [ss c] sv].
    reflexivity.
Qed.

(* ===================================================================== *)
(** * More about the NDJSON framing                                       *)
(* ===================================================================== *)

Lemma split_free s sep :
  Notions.occurs sep s = false -> Js.split s sep = [s].
Proof.
  induction s as [|c s IH]; [reflexivity|].
  cbn [Notions.occurs Js.split]. intros H.
  apply orb_false_iff in H. destruct H as [E H].
  rewrite E, (IH H). reflexivity.
Qed.

Lemma free_split s sep :
  Js.split s sep = [s] -> Notions.occurs sep s = false.
Proof.
  induction s as [|c s IH]; [reflexivity|].
  cbn [Notions.occurs Js.split]. pose proof (split_nonempty s sep) as NE.
  destruct (Ascii.eqb c sep).
  - destruct (Js.split s sep); [contradiction NE; reflexivity|].
    discriminate.
  - destruct (Js.split s sep) as [|x xs] eqn:E;
      [contradiction NE; reflexivity|].
    intros H. injection H as Hx Hxs. subst x xs. exact (IH eq_refl).
Qed.

Lemma joined_free chunks :
  Forall (fun chunk => Notions.occurs Js.LF chunk = false) chunks ->
  Notions.occurs Js.LF (SessionSpec.joined chunks) = false.
Proof.
  induction 1 as [|c chunks Hc _ IH]; [reflexivity|].
  cbn [SessionSpec.joined fold_right]. fold (SessionSpec.joined chunks).
  rewrite occurs_app, Hc, IH. reflexivity.
Qed.

(** X21.  The buffer of the listener never holds a newline: whatever the
    buffer and the chunk of a call, and whatever the chunks fed from the
    empty buffer, the listener returns and the new buffer has no newline
    in it. *)
Theorem buffer_holds_no_newline (session : Session.t) (w : World)
  (m : Machine) :
  (forall buffer chunk,
      exists rest,
        snd (AgentSessionManager.onStdoutData session buffer chunk w m)
        = Normal rest
        /\ Notions.occurs Js.LF rest = false)
  /\ (forall chunks,
         exists rest,
           snd (AgentSessionManager.feed session EmptyString chunks w m)
           = Normal rest
           /\ Notions.occurs Js.LF rest = false).
Proof.
  split.
  - intros buffer chunk.
    destruct (onStdoutData_run w session buffer chunk m) as (evs & R & _).
    unfold SessionSpec.adds in R. rewrite R. eexists.
    split; [reflexivity|]. apply free_split. apply split_last_free.
  - intros chunks.
    destruct (feed_run w session chunks EmptyString m eq_refl)
      as (evs & R & _).
    unfold SessionSpec.adds in R. rewrite R. eexists.
    split; [reflexivity|]. apply free_split. apply split_last_free.
Qed.

(** X22.  Nothing is delivered before a newline arrives: when no chunk
    holds a newline, no call of [onMessage] is made, however many chunks
    come and even when their text is valid JSON, and the buffer holds all
    of the text. *)
Theorem nothing_delivered_without_newline (session : Session.t)
  (chunks : list string) (w : World) (m : Machine) :
  Forall (fun chunk => Notions.occurs Js.LF chunk = false) chunks ->
  snd (AgentSessionManager.feed session EmptyString chunks w m)
  = Normal (SessionSpec.joined chunks)
  /\ SessionSpec.deliveries
       (eventsOf (AgentSessionManager.feed session EmptyString chunks) w m)
     = [].
Proof.
  intros H.
  destruct (feed_run w session chunks EmptyString m eq_refl)
    as (evs & R & D).
  cbn [append] in R, D.
  rewrite (split_free _ _ (joined_free chunks H)) in R, D.
  unfold SessionSpec.adds in R. unfold eventsOf. rewrite R.
  cbn [fst snd trace last]. rewrite skipn_length_app.
  split; [reflexivity | exact D].
Qed.

Lemma nothing_delivered_without_newline_witness :
  SessionSpec.deliveries
    (eventsOf (AgentSessionManager.feed
                 (Session.mk "agent-1" 101 7 "/repo" 9) EmptyString
                 ["{"; "}"])
              (scriptedWorld "linux" isRemove (ErrorObject EmptyString) true)
              startup)
  = [].
Proof.
  apply (nothing_delivered_without_newline
           (Session.mk "agent-1" 101 7 "/repo" 9) ["{"; "}"]
           (scriptedWorld "linux" isRemove (ErrorObject EmptyString) true)
           startup).
  repeat constructor.
Defined.

(* ===================================================================== *)
(** * The repository filter of the sidebar                                *)
(* ===================================================================== *)

Lemma filter_all {A : Type} (f : A -> bool) (l : list A) :
  (forall x, f x = true) -> filter f l = l.
Proof.
  intros H. induction l as [|a l IH]; simpl; [reflexivity|].
  rewrite H, IH. reflexivity.
Qed.

(** X23.  When lowercasing leaves the empty string empty, an empty search
    query lists every repository, in order, and the notice that nothing
    matches is not shown; and for no query are the two notices shown
    together. *)
Theorem sidebar_empty_query (w : World)
  (repositories : list WorkspaceSidebar.Repository) :
  toLowerCase w EmptyString = EmptyString ->
  WorkspaceSidebar.filteredRepos w repositories EmptyString = repositories
  /\ WorkspaceSidebar.showsNoMatch w repositories EmptyString = false
  /\ (forall searchQuery,
         WorkspaceSidebar.showsNoMatch w repositories searchQuery
         && WorkspaceSidebar.showsEmpty repositories searchQuery = false).
Proof.
  intros H. split; [|split].
  - unfold WorkspaceSidebar.filteredRepos. rewrite H.
    apply filter_all. intros repo. rewrite includes_unfold. reflexivity.
  - unfold WorkspaceSidebar.showsNoMatch. apply andb_false_r.
  - intros q. unfold WorkspaceSidebar.showsNoMatch,
      WorkspaceSidebar.showsEmpty.
    destruct (Js.truthy q); rewrite ?andb_false_r; reflexivity.
Qed.

Lemma sidebar_empty_query_witness :
  WorkspaceSidebar.filteredRepos
    (scriptedWorld "linux" isRemove (ErrorObject EmptyString) true)
    [ WorkspaceSidebar.mkRepository "EnsoAI" "/src/EnsoAI";
      WorkspaceSidebar.mkRepository "notes" "/src/notes" ]
    EmptyString
  = [ WorkspaceSidebar.mkRepository "EnsoAI" "/src/EnsoAI";
      WorkspaceSidebar.mkRepository "notes" "/src/notes" ].
Proof.
  apply (sidebar_empty_query
           (scriptedWorld "linux" isRemove (ErrorObject EmptyString) true)
           [ WorkspaceSidebar.mkRepository "EnsoAI" "/src/EnsoAI";
             WorkspaceSidebar.mkRepository "notes" "/src/notes" ]).
  reflexivity.
Defined.
